(** * A shallow embedding of the blog backend

    The development follows the layout of the repository: [accounts]
    (registration and profile serializers) and [blog] (the post, tag and
    comment view sets with their serializers).  The relational store is
    modelled by finite maps from primary keys to rows; a handler is a
    function from the store and the request to a response and the
    store it leaves behind. *)

From Stdlib Require Import ZArith Ascii String.
From stdpp Require Import gmap strings pretty list fin_maps fin_sets sorting.
From Equations Require Import Equations.

Local Open Scope string_scope.
Local Open Scope Z_scope.

(** ** Text: the fragment of Python's [str] the handlers use

    Text is modelled as strings.  Python's [str.strip] and [str.lower]
    are the interpreter's, defined over the whole of Unicode: the handlers
    take them as a parameter, [Python].  The functions [strip] and [lower]
    below are what these methods do on ASCII text; they make the instance
    [ascii_range], which the sample requests use, and [lower] is the case
    folding of the store's [icontains] lookup. *)

Module Text.

(** [str.isspace] on one character: TAB..CR, FS..US and SPACE. *)
Definition isspace (c : ascii) : bool :=
  let n := nat_of_ascii c in
  ((9 <=? n)%nat && (n <=? 13)%nat) || ((28 <=? n)%nat && (n <=? 32)%nat).

Fixpoint lstrip (s : string) : string :=
  match s with
  | EmptyString => EmptyString
  | String c s' => if isspace c then lstrip s' else s
  end.

Definition rstrip (s : string) : string :=
  String.rev (lstrip (String.rev s)).

(** [s.strip()] *)
Definition strip (s : string) : string := rstrip (lstrip s).

Definition lower_char (c : ascii) : ascii :=
  let n := nat_of_ascii c in
  if ((65 <=? n)%nat && (n <=? 90)%nat) then ascii_of_nat (n + 32) else c.

(** [s.lower()] *)
Fixpoint lower (s : string) : string :=
  match s with
  | EmptyString => EmptyString
  | String c s' => String (lower_char c) (lower s')
  end.

Fixpoint startswith (p s : string) : bool :=
  match p, s with
  | EmptyString, _ => true
  | String a p', String b s' => if decide (a = b) then startswith p' s' else false
  | String _ _, EmptyString => false
  end.

(** [needle in hay] *)
Fixpoint contains (needle hay : string) : bool :=
  startswith needle hay ||
  match hay with
  | EmptyString => false
  | String _ hay' => contains needle hay'
  end.

(** The ORM lookup [field__icontains=needle]. *)
Definition icontains (hay needle : string) : bool :=
  contains (lower needle) (lower hay).

(** Truth value of a string in a condition: non-empty. *)
Definition truthy (s : string) : bool :=
  if decide (s = "") then false else true.

(** Truth value of [params.get(key, None)]. *)
Definition given (o : option string) : option string :=
  match o with
  | Some s => if truthy s then Some s else None
  | None => None
  end.

(** The string methods of the interpreter. *)
Record Python := {
  py_strip : string → string;
  py_lower : string → string;
}.

Definition ascii_range : Python := {| py_strip := strip; py_lower := lower |}.

End Text.

(** ** Responses *)

(** A response is a status code with the serialized data, or with the
    error body (a dictionary from keys to messages). *)
Inductive Response (A : Type) : Type :=
| Success (code : nat) (data : A)
| Failure (code : nat) (errors : list (string * string)).
Arguments Success {A} code data.
Arguments Failure {A} code errors.

(** What the store-access layer hands back: a value, or the exception it
    raised. *)
Inductive Outcome (A : Type) : Type :=
| Done (a : A)
| Raised (exception : string).
Arguments Done {A} a.
Arguments Raised {A} exception.

Definition HTTP_200_OK : nat := 200.
Definition HTTP_201_CREATED : nat := 201.
Definition HTTP_204_NO_CONTENT : nat := 204.
Definition HTTP_400_BAD_REQUEST : nat := 400.
Definition HTTP_401_UNAUTHORIZED : nat := 401.
Definition HTTP_403_FORBIDDEN : nat := 403.
Definition HTTP_404_NOT_FOUND : nat := 404.
Definition HTTP_500_INTERNAL_SERVER_ERROR : nat := 500.

Definition not_authenticated {A} : Response A :=
  Failure HTTP_401_UNAUTHORIZED
    [("detail", "Authentication credentials were not provided.")].
Definition permission_denied {A} : Response A :=
  Failure HTTP_403_FORBIDDEN
    [("detail", "You do not have permission to perform this action.")].
Definition not_found {A} : Response A :=
  Failure HTTP_404_NOT_FOUND [("detail", "Not found.")].
Definition server_error {A} (exception : string) : Response A :=
  Failure HTTP_500_INTERNAL_SERVER_ERROR [("detail", exception)].

Definition status_code {A} (r : Response A) : nat :=
  match r with
  | Success c _ => c
  | Failure c _ => c
  end.

(** ** Request bodies

    [request.data] is the parsed body of the request: any JSON value.  A
    number is kept as the text that [str] gives for it. *)
#[local] Unset Elimination Schemes.
Inductive JSON :=
| JNull
| JBool (b : bool)
| JNumber (repr : string)
| JString (s : string)
| JArray (items : list JSON)
| JObject (members : list (string * JSON)).
#[local] Set Elimination Schemes.

Module Body.

(** The value of a key in a dictionary: of the members with one key the
    parser keeps the last. *)
Fixpoint lookup (key : string) (members : list (string * JSON)) : option JSON :=
  match members with
  | [] => None
  | (k, v) :: members =>
      match lookup key members with
      | Some v' => Some v'
      | None => if decide (k = key) then Some v else None
      end
  end.

(** [data.get(key, default)]: a dictionary has the method, another value
    raises. *)
Definition get (data : JSON) (key : string) (default : JSON) : Outcome JSON :=
  match data with
  | JObject members => Done (from_option id default (lookup key members))
  | _ => Raised "AttributeError"
  end.

(** [value.strip()]: a string has the method, another value raises. *)
Definition strip (py : Text.Python) (value : JSON) : Outcome string :=
  match value with
  | JString s => Done (Text.py_strip py s)
  | _ => Raised "AttributeError"
  end.

End Body.

(** ** The blog application *)

Module Blog.

(** Primary keys of rows and of users are natural numbers; the request's
    user is an [option nat], [None] being the anonymous user. *)

Record Tag := { tag_name : string; tag_slug : string }.

(** Modelled from the spec: the rows of [blog/models.py] (section 3 of
    the specification).  A post carries its author, its status string,
    the two counters and the set of tags it is related to. *)
Record Post := {
  post_title : string;
  post_slug : string;
  post_content : string;
  post_excerpt : string;
  post_author : nat;
  post_status : string;
  post_views_count : Z;
  post_likes_count : Z;
  post_tags : gset nat;
}.

Record Comment := {
  comment_content : string;
  comment_author : nat;
  comment_post : nat;
  comment_parent : option nat;
  comment_likes_count : Z;
}.

(** Like and Bookmark rows are unique per (post, user), CommentLike rows
    per (comment, user): each table is a set of such pairs.  The comment
    table has its sequence of keys: [comment_seq] is above the keys the
    table has handed out, those of deleted comments included. *)
Record Store := {
  posts : gmap nat Post;
  tags : gmap nat Tag;
  comments : gmap nat Comment;
  likes : gset (nat * nat);
  bookmarks : gset (nat * nat);
  comment_likes : gset (nat * nat);
  comment_seq : nat;
}.

Definition with_posts (m : gmap nat Post) (st : Store) : Store :=
  {| posts := m; tags := tags st; comments := comments st; likes := likes st;
     bookmarks := bookmarks st; comment_likes := comment_likes st;
     comment_seq := comment_seq st |}.

Definition with_tags (m : gmap nat Tag) (st : Store) : Store :=
  {| posts := posts st; tags := m; comments := comments st; likes := likes st;
     bookmarks := bookmarks st; comment_likes := comment_likes st;
     comment_seq := comment_seq st |}.

Definition with_comments (m : gmap nat Comment) (st : Store) : Store :=
  {| posts := posts st; tags := tags st; comments := m; likes := likes st;
     bookmarks := bookmarks st; comment_likes := comment_likes st;
     comment_seq := comment_seq st |}.

Definition with_likes (s : gset (nat * nat)) (st : Store) : Store :=
  {| posts := posts st; tags := tags st; comments := comments st; likes := s;
     bookmarks := bookmarks st; comment_likes := comment_likes st;
     comment_seq := comment_seq st |}.

Definition with_likes_count (n : Z) (p : Post) : Post :=
  {| post_title := post_title p; post_slug := post_slug p;
     post_content := post_content p; post_excerpt := post_excerpt p;
     post_author := post_author p; post_status := post_status p;
     post_views_count := post_views_count p; post_likes_count := n;
     post_tags := post_tags p |}.

Definition with_views_count (n : Z) (p : Post) : Post :=
  {| post_title := post_title p; post_slug := post_slug p;
     post_content := post_content p; post_excerpt := post_excerpt p;
     post_author := post_author p; post_status := post_status p;
     post_views_count := n; post_likes_count := post_likes_count p;
     post_tags := post_tags p |}.

Definition with_tag_set (ts : gset nat) (p : Post) : Post :=
  {| post_title := post_title p; post_slug := post_slug p;
     post_content := post_content p; post_excerpt := post_excerpt p;
     post_author := post_author p; post_status := post_status p;
     post_views_count := post_views_count p;
     post_likes_count := post_likes_count p; post_tags := ts |}.

Definition with_content (s : string) (c : Comment) : Comment :=
  {| comment_content := s; comment_author := comment_author c;
     comment_post := comment_post c; comment_parent := comment_parent c;
     comment_likes_count := comment_likes_count c |}.

Definition with_bookmarks (s : gset (nat * nat)) (st : Store) : Store :=
  {| posts := posts st; tags := tags st; comments := comments st; likes := likes st;
     bookmarks := s; comment_likes := comment_likes st; comment_seq := comment_seq st |}.

Definition with_comment_likes (s : gset (nat * nat)) (st : Store) : Store :=
  {| posts := posts st; tags := tags st; comments := comments st; likes := likes st;
     bookmarks := bookmarks st; comment_likes := s; comment_seq := comment_seq st |}.

Definition with_comment_seq (n : nat) (st : Store) : Store :=
  {| posts := posts st; tags := tags st; comments := comments st; likes := likes st;
     bookmarks := bookmarks st; comment_likes := comment_likes st; comment_seq := n |}.

Definition with_comment_likes_count (n : Z) (c : Comment) : Comment :=
  {| comment_content := comment_content c; comment_author := comment_author c;
     comment_post := comment_post c; comment_parent := comment_parent c;
     comment_likes_count := n |}.

#[global] Instance Tag_eq_dec : EqDecision Tag.
Proof. solve_decision. Defined.
#[global] Instance Post_eq_dec : EqDecision Post.
Proof. solve_decision. Defined.
#[global] Instance Comment_eq_dec : EqDecision Comment.
Proof. solve_decision. Defined.

(** The tag rows related to a post. *)
Definition tags_of (st : Store) (p : Post) : list Tag :=
  omap (λ i, tags st !! i) (elements (post_tags p)).

Inductive Action :=
| act_list | act_retrieve | act_create | act_update | act_partial_update
| act_destroy | act_my_posts | act_like | act_bookmark | act_comments
| act_trending.

#[global] Instance Action_eq_dec : EqDecision Action.
Proof. solve_decision. Defined.

(** [request.query_params]: the [author] parameter is kept as the key it
    denotes. *)
Record QueryParams := {
  qp_status : option string;
  qp_author : option nat;
  qp_tag : option string;
  qp_search : option string;
}.

Definition no_params : QueryParams :=
  {| qp_status := None; qp_author := None; qp_tag := None; qp_search := None |}.

(** A queryset over posts is a list of rows with their primary key. *)

Definition is_authenticated (user : option nat) : bool :=
  match user with Some _ => true | None => false end.

Inductive Method := GET | HEAD | OPTIONS | POST | PUT | PATCH | DELETE.

#[global] Instance Method_eq_dec : EqDecision Method.
Proof. solve_decision. Defined.

(** [request.method in SAFE_METHODS] *)
Definition is_safe (m : Method) : bool :=
  match m with GET | HEAD | OPTIONS => true | _ => false end.

(** Modelled from the spec: the object permission of
    [blog/permissions.py], which is not part of the sources at hand.
    Reads are open; a write is for the author of the object (sections 3
    and 4.3: only the author may edit or delete).  The handlers take the
    permission as a parameter, this is the instance the specification
    describes. *)
Definition IsAuthorOrReadOnly (m : Method) (author : nat) (user : option nat) : bool :=
  is_safe m || bool_decide (user = Some author).

(** ** Comments and their serializer *)

(** The reply tree as [CommentSerializer] renders it. *)
#[local] Unset Elimination Schemes.
Inductive CommentData := mkCommentData {
  cd_id : nat;
  cd_post : nat;
  cd_author : nat;
  cd_content : string;
  cd_parent : option nat;
  cd_replies : list CommentData;
  cd_can_edit : bool;
  cd_can_delete : bool;
  cd_is_liked : bool;
  cd_likes_count : Z;
}.
#[local] Set Elimination Schemes.

Module CommentSerializer.

(** [obj.replies.all()]: the comments whose parent is [id]. *)
Definition replies (st : Store) (id : nat) : list (nat * Comment) :=
  filter (λ r, comment_parent r.2 = Some id) (map_to_list (comments st)).

Definition get_can_edit (user : option nat) (obj : Comment) : bool :=
  if is_authenticated user then bool_decide (Some (comment_author obj) = user)
  else false.

Definition get_can_delete (user : option nat) (obj : Comment) : bool :=
  if is_authenticated user then bool_decide (Some (comment_author obj) = user)
  else false.

Definition get_is_liked (st : Store) (user : option nat) (id : nat) : bool :=
  match user with
  | Some u => bool_decide ((id, u) ∈ comment_likes st)
  | None => false
  end.

(** The serializer calls itself on the replies ([get_replies]); [depth]
    bounds the nesting of these calls, and [None] stands for a
    recursion that has not ended within it. *)
Fixpoint to_representation (depth : nat) (st : Store) (user : option nat)
    (id : nat) (obj : Comment) : option CommentData :=
  match depth with
  | O => None
  | S depth =>
      nested ← mapM (λ r, to_representation depth st user r.1 r.2) (replies st id);
      Some {| cd_id := id;
              cd_post := comment_post obj;
              cd_author := comment_author obj;
              cd_content := comment_content obj;
              cd_parent := comment_parent obj;
              cd_replies := nested;
              cd_can_edit := get_can_edit user obj;
              cd_can_delete := get_can_delete user obj;
              cd_is_liked := get_is_liked st user id;
              cd_likes_count := comment_likes_count obj |}
  end.

(** A forest of [n] comments nests at most [n] deep. *)
Definition depth_bound (st : Store) : nat := S (size (comments st)).

(** [CommentSerializer(comments, many=True).data] *)
Definition many (st : Store) (user : option nat) (rows : list (nat * Comment))
    : option (list CommentData) :=
  mapM (λ r, to_representation (depth_bound st) st user r.1 r.2) rows.

(** [serializer.validated_data] of a comment: the writable fields of the
    serializer, once [is_valid] has accepted the request body. *)
Record ValidatedData := {
  cvd_content : string;
  cvd_post : nat;
  cvd_parent : option nat;
}.

(** The key the store gives a new comment: the next of the sequence, a
    key above those the table has handed out and above those it holds. *)
Definition next_id (st : Store) : nat :=
  fresh (dom (comments st)) `max` comment_seq st.

(** [serializer.save(author=..., post=..., parent=...)]: the keyword
    arguments that are given take the place of the validated fields, and
    the row is created with the next key and a counter of zero.  The
    result is the key, the row and the store. *)
Definition save (st : Store) (validated_data : ValidatedData) (author : nat)
    (post : option nat) (parent : option (option nat)) : nat * Comment * Store :=
  let id := next_id st in
  let obj := {| comment_content := cvd_content validated_data;
                comment_author := author;
                comment_post := default (cvd_post validated_data) post;
                comment_parent := default (cvd_parent validated_data) parent;
                comment_likes_count := 0 |} in
  (id, obj, with_comment_seq (S id) (with_comments (<[id := obj]> (comments st)) st)).

End CommentSerializer.

(** The body of a post detail. *)
Record PostDetail := {
  pd_id : nat;
  pd_title : string;
  pd_slug : string;
  pd_excerpt : string;
  pd_author : nat;
  pd_tags : list (nat * Tag);
  pd_status : string;
  pd_views_count : Z;
  pd_likes_count : Z;
  pd_comments_count : nat;
  pd_is_liked : bool;
  pd_is_bookmarked : bool;
  pd_content : string;
  pd_comments : list CommentData;
}.

Module PostDetailSerializer.

(** [obj.comments.filter(parent=None)] *)
Definition top_level_comments (st : Store) (pk : nat) : list (nat * Comment) :=
  filter (λ r, comment_post r.2 = pk ∧ comment_parent r.2 = None)
    (map_to_list (comments st)).

Definition get_comments (st : Store) (user : option nat) (pk : nat)
    : option (list CommentData) :=
  CommentSerializer.many st user (top_level_comments st pk).

Definition get_is_liked (st : Store) (user : option nat) (pk : nat) : bool :=
  match user with
  | Some u => bool_decide ((pk, u) ∈ likes st)
  | None => false
  end.

Definition get_is_bookmarked (st : Store) (user : option nat) (pk : nat) : bool :=
  match user with
  | Some u => bool_decide ((pk, u) ∈ bookmarks st)
  | None => false
  end.

Definition to_representation (st : Store) (user : option nat) (pk : nat) (obj : Post)
    : option PostDetail :=
  nested ← get_comments st user pk;
  Some {| pd_id := pk;
          pd_title := post_title obj;
          pd_slug := post_slug obj;
          pd_excerpt := post_excerpt obj;
          pd_author := post_author obj;
          pd_tags := omap (λ i, pair i <$> tags st !! i) (elements (post_tags obj));
          pd_status := post_status obj;
          pd_views_count := post_views_count obj;
          pd_likes_count := post_likes_count obj;
          pd_comments_count :=
            length (filter (λ r, comment_post r.2 = pk) (map_to_list (comments st)));
          pd_is_liked := get_is_liked st user pk;
          pd_is_bookmarked := get_is_bookmarked st user pk;
          pd_content := post_content obj;
          pd_comments := nested |}.

End PostDetailSerializer.

(** ** The serializer of post writes *)

(** The representation of a written post. *)
Record PostWriteData := {
  pw_id : nat;
  pw_title : string;
  pw_content : string;
  pw_excerpt : string;
  pw_tag_objects : list (nat * Tag);
  pw_status : string;
  pw_slug : string;
}.

Module PostCreateUpdateSerializer.

(** [validated_data]: each key is present or absent. *)
Record ValidatedData := {
  vd_title : option string;
  vd_content : option string;
  vd_excerpt : option string;
  vd_status : option string;
  vd_tags : option (list string);
}.

(** [Tag.objects.get(name=name)]: the row, [None] when there is none,
    or the exception raised when there are several. *)
Definition Tag_get (name : string) (table : gmap nat Tag) : Outcome (option (nat * Tag)) :=
  match map_to_list (filter (λ r, tag_name r.2 = name) table) with
  | [] => Done None
  | [row] => Done (Some row)
  | _ :: _ :: _ => Raised "MultipleObjectsReturned"
  end.

(** Modelled from the spec: the row that [Tag.objects.create(name=name)]
    stores.  [blog/models.py] is not part of the sources at hand; the
    slug it derives from the name is [slugify name].  The slug of a tag
    is unique (section 3): the store refuses the row when a tag has the
    slug, and otherwise the row gets a key that is not in use. *)
Definition Tag_create (slugify : string → string) (name : string)
    (table : gmap nat Tag) : Outcome (nat * gmap nat Tag) :=
  let slug := slugify name in
  if decide (map_Exists (λ _ t, tag_slug t = slug) table) then Raised "IntegrityError"
  else
    let id := fresh (dom table) in
    Done (id, <[id := {| tag_name := name; tag_slug := slug |}]> table).

(** [Tag.objects.get_or_create(name=name)]: the key of the tag and the
    table it leaves.  When the creation is refused the lookup is tried
    again, finds nothing as before it, and the exception is raised. *)
Definition Tag_get_or_create (slugify : string → string) (name : string)
    (table : gmap nat Tag) : Outcome (nat * gmap nat Tag) :=
  match Tag_get name table with
  | Raised e => Raised e
  | Done (Some row) => Done (row.1, table)
  | Done None => Tag_create slugify name table
  end.

(** [tag_name.strip().lower()] *)
Definition normalise (py : Text.Python) (tag_name : string) : string :=
  Text.py_lower py (Text.py_strip py tag_name).

(** The loop over [tags_data]: [instance.tags.add(tag)] for each name.
    The result is the store the loop leaves, with the exception that
    stopped it, if any. *)
Fixpoint add_tags (py : Text.Python) (slugify : string → string)
    (tags_data : list string) (pk : nat) (st : Store) : Store * option string :=
  match tags_data with
  | [] => (st, None)
  | tag_name :: tags_data =>
      match Tag_get_or_create slugify (normalise py tag_name) (tags st) with
      | Raised e => (st, Some e)
      | Done (tag, table) =>
          let st := with_tags table st in
          let st :=
            with_posts
              (alter (λ p, with_tag_set ({[ tag ]} ∪ post_tags p) p) pk (posts st)) st in
          add_tags py slugify tags_data pk st
      end
  end.

(** [setattr(instance, attr, value)] for the items of [validated_data]. *)
Definition set_fields (vd : ValidatedData) (instance : Post) : Post :=
  {| post_title := default (post_title instance) (vd_title vd);
     post_slug := post_slug instance;
     post_content := default (post_content instance) (vd_content vd);
     post_excerpt := default (post_excerpt instance) (vd_excerpt vd);
     post_author := post_author instance;
     post_status := default (post_status instance) (vd_status vd);
     post_views_count := post_views_count instance;
     post_likes_count := post_likes_count instance;
     post_tags := post_tags instance |}.

Definition update (py : Text.Python) (slugify : string → string) (st : Store)
    (pk : nat) (instance : Post) (validated_data : ValidatedData)
    : Store * option string :=
  let tags_data := vd_tags validated_data in
  (* Update post fields *)
  let instance := set_fields validated_data instance in
  let st := with_posts (<[pk := instance]> (posts st)) st in
  (* Update tags if provided *)
  match tags_data with
  | Some tags_data =>
      let st := with_posts (alter (with_tag_set ∅) pk (posts st)) st in
      add_tags py slugify tags_data pk st
  | None => (st, None)
  end.

Definition to_representation (st : Store) (pk : nat) (obj : Post) : PostWriteData :=
  {| pw_id := pk;
     pw_title := post_title obj;
     pw_content := post_content obj;
     pw_excerpt := post_excerpt obj;
     pw_tag_objects := omap (λ i, pair i <$> tags st !! i) (elements (post_tags obj));
     pw_status := post_status obj;
     pw_slug := post_slug obj |}.

End PostCreateUpdateSerializer.

Module PostViewSet.

(** [Post.objects...] *)
Definition objects (st : Store) : list (nat * Post) := map_to_list (posts st).

Definition by_status (s : string) (qs : list (nat * Post)) : list (nat * Post) :=
  filter (λ r, post_status r.2 = s) qs.

Definition by_author (a : nat) (qs : list (nat * Post)) : list (nat * Post) :=
  filter (λ r, post_author r.2 = a) qs.

Definition matches_search (st : Store) (search : string) (p : Post) : bool :=
  Text.icontains (post_title p) search
  || Text.icontains (post_content p) search
  || existsb (λ t, Text.icontains (tag_name t) search) (tags_of st p).

Definition get_queryset (st : Store) (action : Action) (user : option nat)
    (qp : QueryParams) : list (nat * Post) :=
  let queryset := objects st in
  (* Filter by status *)
  let queryset :=
    match Text.given (qp_status qp) with
    | Some status_filter => by_status status_filter queryset
    | None =>
        if decide (action = act_list) then
          (* By default, only show published posts for list view *)
          if negb (is_authenticated user) then by_status "published" queryset
          else
            filter (λ r, post_status r.2 = "published" ∨ Some (post_author r.2) = user)
              queryset
        else queryset
    end in
  (* Filter by author *)
  let queryset :=
    match qp_author qp with
    | Some author_id => by_author author_id queryset
    | None => queryset
    end in
  (* Filter by tag *)
  let queryset :=
    match Text.given (qp_tag qp) with
    | Some slug =>
        filter (λ r, Exists (λ t, tag_slug t = slug) (tags_of st r.2)) queryset
    | None => queryset
    end in
  (* Filter by search query *)
  let queryset :=
    match Text.given (qp_search qp) with
    | Some search =>
        remove_dups (filter (λ r, Is_true (matches_search st search r.2)) queryset)
    | None => queryset
    end in
  queryset.

(** [get_object]: the row of the queryset with the given key, or the
    404 of [get_object_or_404]. *)
Definition get_object (st : Store) (action : Action) (user : option nat)
    (qp : QueryParams) (pk : nat) : option Post :=
  (list_to_map (get_queryset st action user qp) : gmap nat Post) !! pk.

(** [list]: the queryset after the framework's filter backends and
    paginator, passed as [backends]. *)
Definition list_posts
    (backends : QueryParams → list (nat * Post) → list (nat * Post))
    (st : Store) (user : option nat) (qp : QueryParams) : list (nat * Post) :=
  backends qp (get_queryset st act_list user qp).

(** The annotation [F('views_count') + F('likes_count') * 2]. *)
Definition engagement (p : Post) : Z :=
  post_views_count p + post_likes_count p * 2.

(** [order_by('-engagement')] *)
Definition by_engagement_desc (r1 r2 : nat * Post) : Prop :=
  engagement r2.2 ≤ engagement r1.2.

#[global] Instance by_engagement_desc_dec : RelDecision by_engagement_desc.
Proof. intros r1 r2. unfold by_engagement_desc. apply _. Defined.

Definition trending (st : Store) (user : option nat) (qp : QueryParams)
    : list (nat * Post) :=
  take 10
    (merge_sort by_engagement_desc
       (by_status "published" (get_queryset st act_trending user qp))).

(** [retrieve]: the view counter is incremented by the store, the row
    is read back and rendered. *)
Definition retrieve (permission : Method → nat → option nat → bool)
    (st : Store) (user : option nat) (qp : QueryParams) (pk : nat)
    : Response PostDetail * Store :=
  match get_object st act_retrieve user qp pk with
  | None => (not_found, st)
  | Some instance =>
      if negb (permission GET (post_author instance) user) then
        (match user with None => not_authenticated | Some _ => permission_denied end, st)
      else
        let st :=
          with_posts
            (alter (λ p, with_views_count (post_views_count p + 1) p) pk (posts st))
            st in
        let instance := default instance (posts st !! pk) in
        match PostDetailSerializer.to_representation st user pk instance with
        | Some data => (Success HTTP_200_OK data, st)
        | None => (server_error "RecursionError", st)
        end
  end.

(** [update] and [partial_update]: the framework's update of a model view
    set, with the serializer of post writes; [method] is [PUT] or [PATCH],
    and [validated_data] is the request body once it has passed the
    serializer's field validation. *)
Definition update (py : Text.Python) (permission : Method → nat → option nat → bool)
    (slugify : string → string) (method : Method) (st : Store) (user : option nat)
    (qp : QueryParams) (pk : nat)
    (validated_data : PostCreateUpdateSerializer.ValidatedData)
    : Response PostWriteData * Store :=
  match user with
  | None => (not_authenticated, st)
  | Some u =>
      let action := if decide (method = PATCH) then act_partial_update else act_update in
      match get_object st action user qp pk with
      | None => (not_found, st)
      | Some instance =>
          if negb (permission method (post_author instance) user) then
            (permission_denied, st)
          else
            match PostCreateUpdateSerializer.update py slugify st pk instance
                    validated_data with
            | (st, Some e) => (server_error e, st)
            | (st, None) =>
                let instance := default instance (posts st !! pk) in
                (Success HTTP_200_OK
                   (PostCreateUpdateSerializer.to_representation st pk instance), st)
            end
      end
  end.

(** The body of the [like] response. *)
Record LikeData := { like_status : string; like_likes_count : Z }.

(** [Like.objects.get_or_create(post=post, user=user)]: the table it
    leaves and the [created] flag. *)
Definition get_or_create (row : nat * nat) (table : gset (nat * nat))
    : gset (nat * nat) * bool :=
  if decide (row ∈ table) then (table, false) else ({[ row ]} ∪ table, true).

Definition like (st : Store) (user : option nat) (qp : QueryParams) (pk : nat)
    : Response LikeData * Store :=
  match user with
  | None => (not_authenticated, st)
  | Some u =>
      match get_object st act_like user qp pk with
      | None => (not_found, st)
      | Some post =>
          let '(table, created) := get_or_create (pk, u) (likes st) in
          if negb created then
            (* Unlike *)
            let table := table ∖ {[ (pk, u) ]} in
            let likes_count := Z.max 0 (post_likes_count post - 1) in
            let st := with_likes table st in
            let st := with_posts (alter (with_likes_count likes_count) pk (posts st)) st in
            (Success HTTP_200_OK
               {| like_status := "unliked"; like_likes_count := likes_count |}, st)
          else
            (* Like: the increment is evaluated by the store, then read back *)
            let st := with_likes table st in
            let st :=
              with_posts
                (alter (λ p, with_likes_count (post_likes_count p + 1) p) pk (posts st))
                st in
            let post := default post (posts st !! pk) in
            (Success HTTP_200_OK
               {| like_status := "liked"; like_likes_count := post_likes_count post |},
             st)
      end
  end.

(** The number of Like rows of a post. *)
Definition like_rows (st : Store) (pk : nat) : nat :=
  size (filter (λ row, row.1 = pk) (likes st)).

(** A run of like calls on one post, one per user of the list. *)
Definition like_calls (pk : nat) (users : list nat) (st : Store) : Store :=
  foldl (λ st u, (like st (Some u) no_params pk).2) st users.

(** [my_posts]: [pages] is the paginator of the view set, which answers a
    page of the queryset or nothing when pagination is off. *)
Definition my_posts (pages : list (nat * Post) → option (list (nat * Post)))
    (st : Store) (user : option nat) (qp : QueryParams)
    : Response (list (nat * Post)) :=
  match user with
  | None => not_authenticated
  | Some u =>
      let queryset := by_author u (get_queryset st act_my_posts user qp) in
      match pages queryset with
      | Some page => Success HTTP_200_OK page
      | None => Success HTTP_200_OK queryset
      end
  end.

(** [bookmark]: the toggle on Bookmark rows; the body is the status. *)
Definition bookmark (st : Store) (user : option nat) (qp : QueryParams) (pk : nat)
    : Response string * Store :=
  match user with
  | None => (not_authenticated, st)
  | Some u =>
      match get_object st act_bookmark user qp pk with
      | None => (not_found, st)
      | Some post =>
          let '(table, created) := get_or_create (pk, u) (bookmarks st) in
          if negb created then
            (* Remove bookmark *)
            (Success HTTP_200_OK "unbookmarked",
             with_bookmarks (table ∖ {[ (pk, u) ]}) st)
          else
            (* Add bookmark *)
            (Success HTTP_200_OK "bookmarked", with_bookmarks table st)
      end
  end.

Definition HTTP_405_METHOD_NOT_ALLOWED : nat := 405.

(** The body of the [comments] route: the list of comments on [GET], the
    new comment on [POST]. *)
Inductive CommentsBody :=
| Listing (comments : list CommentData)
| Created (comment : CommentData).

(** [comments]: the top-level comments of a post on [GET], a new comment
    on [POST], the two methods of the route; [validated] is the validated
    body of the request, [None] when [serializer.is_valid()] is false with
    [errors]. *)
Local Definition comments (method : Method) (st : Store) (user : option nat)
    (qp : QueryParams) (pk : nat)
    (validated : option CommentSerializer.ValidatedData)
    (errors : list (string * string))
    : Response CommentsBody * Store :=
  if negb (is_safe method || is_authenticated user) then (not_authenticated, st)
  else
    match method, user with
    | GET, _ =>
        match get_object st act_comments user qp pk with
        | None => (not_found, st)
        | Some post =>
            match CommentSerializer.many st user
                    (filter (λ r, comment_post r.2 = pk ∧ comment_parent r.2 = None)
                       (map_to_list (Blog.comments st))) with
            | Some data => (Success HTTP_200_OK (Listing data), st)
            | None => (server_error "RecursionError", st)
            end
        end
    | POST, Some u =>
        match get_object st act_comments user qp pk with
        | None => (not_found, st)
        | Some post =>
            match validated with
            | Some validated_data =>
                let '(id, obj, st) :=
                  CommentSerializer.save st validated_data u (Some pk) None in
                match CommentSerializer.to_representation
                        (CommentSerializer.depth_bound st) st user id obj with
                | Some data => (Success HTTP_201_CREATED (Created data), st)
                | None => (server_error "RecursionError", st)
                end
            | None => (Failure HTTP_400_BAD_REQUEST errors, st)
            end
        end
    | _, _ => (Failure HTTP_405_METHOD_NOT_ALLOWED [("detail", "Method not allowed.")], st)
    end.

End PostViewSet.

(** ** The comment view set *)

Module CommentViewSet.

Definition get_object (st : Store) (pk : nat) : option Comment :=
  comments st !! pk.

(** [update]: [method] is the method of the request, [PUT] or [PATCH];
    [data] is [request.data].  An exception that the handler does not
    catch is answered 500. *)
Definition update (py : Text.Python) (permission : Method → nat → option nat → bool)
    (method : Method) (st : Store) (user : option nat) (pk : nat)
    (data : JSON) : Response CommentData * Store :=
  match user with
  | None => (not_authenticated, st)
  | Some u =>
      match get_object st pk with
      | None => (not_found, st)
      | Some comment =>
          if negb (permission method (comment_author comment) user) then
            (permission_denied, st)
          (* Check if user is the author *)
          else if decide (comment_author comment ≠ u) then
            (Failure HTTP_403_FORBIDDEN
               [("error", "You can only edit your own comments")], st)
          else
            (* Only allow content to be updated *)
            match Body.get data "content" (JString "") with
            | Raised e => (server_error e, st)
            | Done value =>
                match Body.strip py value with
                | Raised e => (server_error e, st)
                | Done content =>
                    if negb (Text.truthy content) then
                      (Failure HTTP_400_BAD_REQUEST
                         [("error", "Comment content cannot be empty")], st)
                    else
                      let comment := with_content content comment in
                      let st := with_comments (<[pk := comment]> (comments st)) st in
                      match CommentSerializer.to_representation
                              (CommentSerializer.depth_bound st) st user pk comment with
                      | Some data => (Success HTTP_200_OK data, st)
                      | None => (server_error "RecursionError", st)
                      end
                end
            end
      end
  end.

(** [partial_update] hands the request to [update]. *)
Definition partial_update := update.

(** The comments whose parent is among [seen]. *)
Definition parent_in (seen : gset nat) (c : Comment) : Prop :=
  from_option (λ p, p ∈ seen) False (comment_parent c).

#[global] Instance parent_in_dec seen c : Decision (parent_in seen c).
Proof. unfold parent_in. destruct (comment_parent c); simpl; apply _. Defined.

Definition replies_to (table : gmap nat Comment) (seen : gset nat) : gset nat :=
  dom (filter (λ r, parent_in seen r.2) table).

(** Modelled from the spec: the cascade that [blog/models.py] declares on
    [Comment.parent], which is not part of the sources at hand (section
    3: deleting a parent deletes its subtree).  The deletion collects the
    comment, then the replies to what it has collected, until a round
    finds nothing new. *)
Equations collect (table : gmap nat Comment) (seen : gset nat) : gset nat
  by wf (size (dom table ∖ seen)) lt :=
  collect table seen with decide (replies_to table seen ⊆ seen) := {
    | left _ => seen
    | right Hnew => collect table (seen ∪ replies_to table seen) }.
Next Obligation.
  apply subset_size. split.
  - intros x. rewrite !elem_of_difference, elem_of_union. tauto.
  - intros Hsub. apply Hnew. intros x Hx.
    destruct (decide (x ∈ seen)) as [|Hx']; [done|].
    assert (x ∈ dom table) as Hd.
    { unfold replies_to in Hx. apply elem_of_dom in Hx as [c Hc].
      apply map_lookup_filter_Some in Hc as [Hc _]. by apply elem_of_dom. }
    assert (x ∈ dom table ∖ (seen ∪ replies_to table seen)) as Hin.
    { apply Hsub. by apply elem_of_difference. }
    apply elem_of_difference in Hin as [_ Hin]. exfalso. apply Hin.
    apply elem_of_union. by right.
Qed.

(** [comment.delete()] *)
Definition delete (pk : nat) (st : Store) : Store :=
  let collected := collect (comments st) {[ pk ]} in
  with_comments (filter (λ r, r.1 ∉ collected) (comments st)) st.

Definition destroy (permission : Method → nat → option nat → bool)
    (st : Store) (user : option nat) (pk : nat) : Response unit * Store :=
  match user with
  | None => (not_authenticated, st)
  | Some u =>
      match get_object st pk with
      | None => (not_found, st)
      | Some comment =>
          if negb (permission DELETE (comment_author comment) user) then
            (permission_denied, st)
          (* Check if user is the author *)
          else if decide (comment_author comment ≠ u) then
            (Failure HTTP_403_FORBIDDEN
               [("error", "You can only delete your own comments")], st)
          else
            (* Delete the comment (this will also delete replies due to CASCADE) *)
            (Success HTTP_204_NO_CONTENT (), delete pk st)
      end
  end.

(** [create] with [perform_create]: the author is the caller, the post and
    the parent are those of the body. *)
Definition create (st : Store) (user : option nat)
    (validated : option CommentSerializer.ValidatedData)
    (errors : list (string * string)) : Response CommentData * Store :=
  match user with
  | None => (not_authenticated, st)
  | Some u =>
      match validated with
      | None => (Failure HTTP_400_BAD_REQUEST errors, st)
      | Some validated_data =>
          let '(id, obj, st) := CommentSerializer.save st validated_data u None None in
          match CommentSerializer.to_representation
                  (CommentSerializer.depth_bound st) st user id obj with
          | Some data => (Success HTTP_201_CREATED data, st)
          | None => (server_error "RecursionError", st)
          end
      end
  end.

(** [reply]: a comment on the post of the parent, below the parent. *)
Definition reply (st : Store) (user : option nat) (pk : nat)
    (validated : option CommentSerializer.ValidatedData)
    (errors : list (string * string)) : Response CommentData * Store :=
  match user with
  | None => (not_authenticated, st)
  | Some u =>
      match get_object st pk with
      | None => (not_found, st)
      | Some parent_comment =>
          match validated with
          | Some validated_data =>
              let '(id, obj, st) :=
                CommentSerializer.save st validated_data u
                  (Some (comment_post parent_comment)) (Some (Some pk)) in
              match CommentSerializer.to_representation
                      (CommentSerializer.depth_bound st) st user id obj with
              | Some data => (Success HTTP_201_CREATED data, st)
              | None => (server_error "RecursionError", st)
              end
          | None => (Failure HTTP_400_BAD_REQUEST errors, st)
          end
      end
  end.

(** [like]: the toggle on CommentLike rows, with the counter of the
    comment. *)
Definition like (st : Store) (user : option nat) (pk : nat)
    : Response PostViewSet.LikeData * Store :=
  match user with
  | None => (not_authenticated, st)
  | Some u =>
      match get_object st pk with
      | None => (not_found, st)
      | Some comment =>
          let '(table, created) := PostViewSet.get_or_create (pk, u) (comment_likes st) in
          if negb created then
            (* Unlike *)
            let table := table ∖ {[ (pk, u) ]} in
            let likes_count := Z.max 0 (comment_likes_count comment - 1) in
            let st := with_comment_likes table st in
            let st :=
              with_comments
                (alter (with_comment_likes_count likes_count) pk (comments st)) st in
            (Success HTTP_200_OK
               {| PostViewSet.like_status := "unliked";
                  PostViewSet.like_likes_count := likes_count |}, st)
          else
            (* Like: the increment is evaluated by the store, then read back *)
            let st := with_comment_likes table st in
            let st :=
              with_comments
                (alter (λ c, with_comment_likes_count (comment_likes_count c + 1) c) pk
                   (comments st)) st in
            let comment := default comment (comments st !! pk) in
            (Success HTTP_200_OK
               {| PostViewSet.like_status := "liked";
                  PostViewSet.like_likes_count := comment_likes_count comment |}, st)
      end
  end.

End CommentViewSet.

(** ** The tag and bookmark view sets *)

Module TagViewSet.

(** The annotation [Count('posts')]: the posts related to the tag. *)
Definition posts_count (st : Store) (id : nat) : nat :=
  size (filter (λ r : nat * Post, id ∈ post_tags r.2) (Blog.posts st)).

(** [order_by('-posts_count')] *)
Definition by_posts_count_desc (st : Store) (r1 r2 : nat * Tag) : Prop :=
  (posts_count st r2.1 ≤ posts_count st r1.1)%nat.

#[global] Instance by_posts_count_desc_dec st : RelDecision (by_posts_count_desc st).
Proof. intros r1 r2. unfold by_posts_count_desc. apply _. Defined.

(** [queryset]: every tag with its count, the most used first. *)
Definition queryset (st : Store) : list (nat * Tag * nat) :=
  (λ r, (r, posts_count st r.1)) <$>
    merge_sort (by_posts_count_desc st) (map_to_list (tags st)).

(** [posts]: the published posts of a tag. *)
Definition posts (st : Store) (pk : nat) : Response (list (nat * Post)) :=
  match tags st !! pk with
  | None => not_found
  | Some tag =>
      Success HTTP_200_OK
        (filter (λ r : nat * Post, pk ∈ post_tags r.2 ∧ post_status r.2 = "published")
           (map_to_list (Blog.posts st)))
  end.

End TagViewSet.

Module BookmarkViewSet.

(** [get_queryset]: the Bookmark rows of the caller, as (post, user). *)
Definition get_queryset (st : Store) (user : option nat) : Response (list (nat * nat)) :=
  match user with
  | None => not_authenticated
  | Some u =>
      Success HTTP_200_OK (elements (filter (λ row : nat * nat, row.2 = u) (bookmarks st)))
  end.

End BookmarkViewSet.

(** ** The admin site *)

Module CommentAdmin.

(** Python's [s[:n]] on text. *)
Fixpoint prefix (n : nat) (s : string) : string :=
  match n, s with
  | S n, String c s => String c (prefix n s)
  | _, _ => EmptyString
  end.

(** [content_preview] *)
Definition content_preview (obj : Comment) : string :=
  if (50 <? String.length (comment_content obj))%nat then
    prefix 50 (comment_content obj) +:+ "..."
  else comment_content obj.

End CommentAdmin.

End Blog.

(** ** The accounts application *)

Module Accounts.

(** A row of the user table; [password] holds the hash. *)
Record User := {
  username : string;
  email : string;
  password : string;
}.

Record UserProfile := {
  bio : string;
  profile_picture : option string;
}.

(** Profiles are one-to-one with users: the table is keyed by the user. *)
Record Store := {
  users : gmap nat User;
  profiles : gmap nat UserProfile;
}.

(** What the handlers use of the framework and of the settings, which
    are not part of the sources at hand: the checks of the username and
    email fields, the password policy, the password hasher and the
    normalisations of the username and of the email by the user
    manager. *)
Record Framework := {
  username_valid : string → bool;
  email_valid : string → bool;
  validate_password : string → bool;
  make_password : string → string;
  normalize_username : string → string;
  normalize_email : string → string;
}.

Module RegisterSerializer.

(** The request body; every field is required. *)
Record Data := {
  d_username : option string;
  d_password : option string;
  d_password2 : option string;
  d_email : option string;
}.

Record Attrs := {
  a_username : string;
  a_password : string;
  a_password2 : string;
  a_email : string;
}.

(** [UniqueValidator(queryset=User.objects.all())] on a field. *)
Definition unique (field : User → string) (value : string) (st : Store) : bool :=
  bool_decide (map_Forall (λ _ u, field u ≠ value) (users st)).

(** The presence check of a character field: the field is required, and
    a value that is empty, or empty once stripped, is blank. *)
Definition required (py : Text.Python) (o : option string) : list string :=
  match o with
  | None => ["This field is required."]
  | Some s =>
      if bool_decide (s = "") || bool_decide (Text.py_strip py s = "")
      then ["This field may not be blank."] else []
  end.

Definition check (ok : bool) (message : string) : list string :=
  if ok then [] else [message].

(** The value of a character field: the text of the body, stripped. *)
Definition to_internal_value (py : Text.Python) (o : option string) : string :=
  Text.py_strip py (default "" o).

(** The errors of one field: those of the presence check, or else those
    of the validators of the field on its value. *)
Definition field_errors (py : Text.Python) (name : string) (o : option string)
    (checks : string → list string) : list (string * string) :=
  match required py o with
  | [] => pair name <$> checks (to_internal_value py o)
  | errors => pair name <$> errors
  end.

(** Field validation, in the order of [Meta.fields]. *)
Definition run_validation (py : Text.Python) (fw : Framework) (st : Store) (data : Data)
    : list (string * string) :=
  field_errors py "username" (d_username data)
    (λ v, (check (username_valid fw v) "Enter a valid username."
           ++ check (unique username v st) "A user with that username already exists.")%list)
  ++ field_errors py "password" (d_password data)
       (λ v, check (validate_password fw v) "This password does not meet the policy.")
  ++ field_errors py "password2" (d_password2 data) (λ _, [])
  ++ field_errors py "email" (d_email data)
       (λ v, (check (email_valid fw v) "Enter a valid email address."
              ++ check (unique email v st) "This field must be unique.")%list).

Definition validate (attrs : Attrs) : Outcome Attrs :=
  if decide (a_password attrs ≠ a_password2 attrs) then
    Raised "Password fields didn't match."
  else Done attrs.

(** [create]: [create_user] normalises the email and the username and
    saves the row, which the store refuses when a user has the username;
    the password is then set to its hash.  The profile row is modelled
    from the spec (section 3: a profile is created alongside its user);
    the code that creates it is not part of the sources at hand. *)
Definition create (fw : Framework) (st : Store) (validated_data : Attrs)
    : Outcome (nat * User * Store) :=
  let user := {| username := normalize_username fw (a_username validated_data);
                 email := normalize_email fw (a_email validated_data);
                 password := make_password fw (a_password validated_data) |} in
  if decide (map_Exists (λ _ u, username u = username user) (users st)) then
    Raised "IntegrityError"
  else
    let id := fresh (dom (users st)) in
    Done (id, user,
          {| users := <[id := user]> (users st);
             profiles :=
               <[id := {| bio := ""; profile_picture := None |}]> (profiles st) |}).

(** The declared fields with their [write_only] flag. *)
Definition fields : list (string * bool) :=
  [("username", false); ("password", true); ("password2", true); ("email", false)].

Definition getattr (user : User) (name : string) : option string :=
  if decide (name = "username") then Some (username user)
  else if decide (name = "email") then Some (email user)
  else if decide (name = "password") then Some (password user)
  else None.

(** [serializer.data]: the readable fields of the instance. *)
Definition to_representation (user : User) : list (string * string) :=
  omap (λ f, if f.2 : bool then None else pair f.1 <$> getattr user f.1) fields.

End RegisterSerializer.

Module RegisterView.
Import RegisterSerializer.

(** [POST /register/]: the fields are validated on their stripped
    values, which are also the attributes that [validate] compares and
    [create] stores.  An exception of the store is not caught: 500. *)
Definition post (py : Text.Python) (fw : Framework) (st : Store) (data : Data)
    : Response (list (string * string)) * Store :=
  match run_validation py fw st data with
  | [] =>
      let attrs := {| a_username := to_internal_value py (d_username data);
                      a_password := to_internal_value py (d_password data);
                      a_password2 := to_internal_value py (d_password2 data);
                      a_email := to_internal_value py (d_email data) |} in
      match validate attrs with
      | Raised message => (Failure HTTP_400_BAD_REQUEST [("password", message)], st)
      | Done validated_data =>
          match create fw st validated_data with
          | Raised e => (server_error e, st)
          | Done (_, user, st) => (Success HTTP_201_CREATED (to_representation user), st)
          end
      end
  | errors => (Failure HTTP_400_BAD_REQUEST errors, st)
  end.

End RegisterView.

(** The representation [UpdateUserProfileSerializer] gives of a profile. *)
Record ProfileData := {
  pr_username : string;
  pr_bio : string;
  pr_profile_picture : option string;
}.

Module UpdateUserProfileSerializer.

(** [validated_data]: [vd_username] is the [username] of the nested
    [user] dictionary, which is present when the field was sent. *)
Record ValidatedData := {
  vd_username : option string;
  vd_bio : option string;
  vd_profile_picture : option (option string);
}.

(** [User.objects.filter(username=username).exists()] *)
Definition username_exists (name : string) (st : Store) : bool :=
  bool_decide (map_Exists (λ _ u, username u = name) (users st)).

Definition with_username (name : string) (u : User) : User :=
  {| username := name; email := email u; password := password u |}.

(** [update]: [uid] is the key of [instance.user]. *)
Definition update (st : Store) (uid : nat) (user : User) (instance : UserProfile)
    (validated_data : ValidatedData) : Outcome Store :=
  let user_data := vd_username validated_data in
  (* Update user fields if provided *)
  let saved :=
    match user_data with
    | Some name =>
        if Text.truthy name && bool_decide (name ≠ username user) then
          if username_exists name st then
            Raised "This username is already taken."
          else Done (<[uid := with_username name user]> (users st))
        else Done (users st)
    | None => Done (users st)
    end in
  match saved with
  | Raised message => Raised message
  | Done table =>
      (* Update profile fields *)
      let instance :=
        {| bio := default (bio instance) (vd_bio validated_data);
           profile_picture :=
             default (profile_picture instance) (vd_profile_picture validated_data) |} in
      Done {| users := table; profiles := <[uid := instance]> (profiles st) |}
  end.

Definition to_representation (user : User) (instance : UserProfile) : ProfileData :=
  {| pr_username := username user;
     pr_bio := bio instance;
     pr_profile_picture := profile_picture instance |}.

End UpdateUserProfileSerializer.

Module UpdateUserProfileView.
Import UpdateUserProfileSerializer.

(** [PUT /profile/update/]: the object is the profile of the caller. *)
Definition put (st : Store) (caller : option nat) (validated_data : ValidatedData)
    : Response ProfileData * Store :=
  match caller with
  | None => (not_authenticated, st)
  | Some uid =>
      match users st !! uid, profiles st !! uid with
      | Some user, Some instance =>
          match update st uid user instance validated_data with
          | Raised message => (Failure HTTP_400_BAD_REQUEST [("username", message)], st)
          | Done st =>
              match users st !! uid, profiles st !! uid with
              | Some user, Some instance =>
                  (Success HTTP_200_OK (to_representation user instance), st)
              | _, _ => (server_error "DoesNotExist", st)
              end
          end
      | _, _ => (server_error "RelatedObjectDoesNotExist", st)
      end
  end.

End UpdateUserProfileView.

(** The representation [UserProfileSerializer] gives of a profile. *)
Record ProfileView := {
  pv_username : string;
  pv_email : string;
  pv_bio : string;
  pv_profile_picture : option string;
}.

Module UserProfileView.

(** [GET /profile/]: the object is the profile of the caller. *)
Definition get (st : Store) (caller : option nat) : Response ProfileView :=
  match caller with
  | None => not_authenticated
  | Some uid =>
      match users st !! uid, profiles st !! uid with
      | Some user, Some instance =>
          Success HTTP_200_OK
            {| pv_username := username user;
               pv_email := email user;
               pv_bio := bio instance;
               pv_profile_picture := profile_picture instance |}
      | _, _ => server_error "RelatedObjectDoesNotExist"
      end
  end.

End UserProfileView.

End Accounts.

(** ** Well-formed stores and what the properties speak of *)

Module Model.
Import Blog.

(** The counter of a post agrees with its Like rows. *)
Definition likes_consistent (st : Store) (pk : nat) : Prop :=
  ∃ post, posts st !! pk = Some post
          ∧ post_likes_count post = Z.of_nat (PostViewSet.like_rows st pk).

(** Keys are handed out in increasing order and a reply names a comment
    that exists when it is written: a parent has a smaller key than its
    replies, so that comments form a forest. *)
Definition parents_first (table : gmap nat Comment) : Prop :=
  map_Forall (λ id c, ∀ p, comment_parent c = Some p → (p < id)%nat) table.

#[global] Instance parents_first_dec table : Decision (parents_first table).
Proof.
  apply map_Forall_dec. intros id c.
  destruct (comment_parent c) as [p|].
  - destruct (decide (p < id)%nat) as [Hlt|Hge].
    + left. by intros ? [= <-].
    + right. intros H. by apply Hge, H.
  - by left.
Defined.

(** The keys of the comment table above [id]. *)
Definition above (st : Store) (id : nat) : gset nat :=
  filter (λ k, (id < k)%nat) (dom (comments st)).

(** [in_subtree table root x]: [x] is [root] or a reply, through any
    number of parents, to [root]. *)
Inductive in_subtree (table : gmap nat Comment) (root : nat) : nat → Prop :=
| subtree_root : in_subtree table root root
| subtree_reply x c p :
    table !! x = Some c → comment_parent c = Some p →
    in_subtree table root p → in_subtree table root x.

(** [rendered table liked user id c d]: [d] is the rendering of the
    comment [c] with key [id] for [user]: its own fields, the flags of
    the caller, and under [cd_replies] the renderings of its replies in
    [table], recursively; [liked] is the table of comment likes. *)
#[local] Unset Elimination Schemes.
Inductive rendered (table : gmap nat Comment) (liked : gset (nat * nat))
    (user : option nat) : nat → Comment → CommentData → Prop :=
| rendered_node id c d :
    cd_id d = id →
    cd_post d = comment_post c →
    cd_author d = comment_author c →
    cd_content d = comment_content c →
    cd_parent d = comment_parent c →
    cd_likes_count d = comment_likes_count c →
    (cd_can_edit d = true ↔ user = Some (comment_author c)) →
    (cd_can_delete d = true ↔ user = Some (comment_author c)) →
    (cd_is_liked d = true ↔ ∃ u, user = Some u ∧ (id, u) ∈ liked) →
    Forall2 (λ r n, rendered table liked user r.1 r.2 n)
      (filter (λ r, comment_parent r.2 = Some id) (map_to_list table))
      (cd_replies d) →
    rendered table liked user id c d.
#[local] Set Elimination Schemes.

(** No two tags have the same name. *)
Definition tags_unique (table : gmap nat Tag) : Prop :=
  map_Forall (λ i t1, map_Forall (λ j t2, tag_name t1 = tag_name t2 → i = j) table) table.

#[global] Instance tags_unique_dec table : Decision (tags_unique table).
Proof. unfold tags_unique. apply _. Defined.

(** No tag has the name. *)
Definition unnamed (table : gmap nat Tag) (name : string) : Prop :=
  map_Forall (λ _ t, tag_name t ≠ name) table.

(** No tag has the slug. *)
Definition slug_free (table : gmap nat Tag) (slug : string) : Prop :=
  map_Forall (λ _ t, tag_slug t ≠ slug) table.

(** The names that have no tag can be given their slugs: none of these
    slugs is in use, and two of these names have two slugs. *)
Definition slugs_free (slugify : string → string) (table : gmap nat Tag)
    (names : list string) : Prop :=
  Forall (λ n, unnamed table n → slug_free table (slugify n)) names
  ∧ Forall (λ n1, Forall (λ n2, unnamed table n1 → unnamed table n2 →
                                slugify n1 = slugify n2 → n1 = n2) names) names.

#[global] Instance slugs_free_dec slugify table names :
  Decision (slugs_free slugify table names).
Proof. unfold slugs_free, unnamed, slug_free. apply _. Defined.

(** Every post counter agrees with the Like rows of the post. *)
Definition all_likes_consistent (st : Store) : Prop :=
  ∀ pk post, posts st !! pk = Some post →
             post_likes_count post = Z.of_nat (PostViewSet.like_rows st pk).

(** The number of CommentLike rows of a comment. *)
Definition comment_like_rows (st : Store) (pk : nat) : nat :=
  size (filter (λ row : nat * nat, row.1 = pk) (comment_likes st)).

(** Every comment counter agrees with the CommentLike rows of the
    comment. *)
Definition all_comment_likes_consistent (st : Store) : Prop :=
  ∀ pk c, comments st !! pk = Some c →
          comment_likes_count c = Z.of_nat (comment_like_rows st pk).

(** Every parent a comment names is a comment of the table. *)
Definition refs_closed (table : gmap nat Comment) : Prop :=
  map_Forall (λ _ c, ∀ p, comment_parent c = Some p → is_Some (table !! p)) table.

#[global] Instance refs_closed_dec table : Decision (refs_closed table).
Proof.
  apply map_Forall_dec. intros id c.
  destruct (comment_parent c) as [p|].
  - destruct (decide (is_Some (table !! p))) as [Hs|Hn].
    + left. by intros ? [= <-].
    + right. intros H. by apply Hn, H.
  - by left.
Defined.

(** The row a reply by [u] to the comment [parent] with key [pk] stores. *)
Definition reply_row (st : Store) (u pk : nat) (parent : Comment)
    (vd : CommentSerializer.ValidatedData) : Comment :=
  {| comment_content := CommentSerializer.cvd_content vd;
     comment_author := u;
     comment_post := comment_post parent;
     comment_parent := Some pk;
     comment_likes_count := 0 |}.

(** The keys of the comments, and of the comments that CommentLike rows
    name, are keys the sequence has handed out. *)
Definition keys_handed_out (st : Store) : Prop :=
  map_Forall (λ k _, (k < comment_seq st)%nat) (comments st)
  ∧ set_Forall (λ row, (row.1 < comment_seq st)%nat) (comment_likes st).

#[global] Instance keys_handed_out_dec st : Decision (keys_handed_out st).
Proof. unfold keys_handed_out. apply _. Defined.

(** A run of retrievals of one post, one per caller of the list. *)
Definition retrievals (permission : Method → nat → option nat → bool) (pk : nat)
    (callers : list (option nat)) (st : Store) : Store :=
  foldl (λ st user, (PostViewSet.retrieve permission st user no_params pk).2) st callers.

End Model.

Module AccountModel.
Import Accounts.

(** No two users have the same username. *)
Definition usernames_unique (table : gmap nat User) : Prop :=
  map_Forall (λ i u1, map_Forall (λ j u2, username u1 = username u2 → i = j) table) table.

#[global] Instance usernames_unique_dec table : Decision (usernames_unique table).
Proof. unfold usernames_unique. apply _. Defined.

(** No two users have the same email. *)
Definition emails_unique (table : gmap nat User) : Prop :=
  map_Forall (λ i u1, map_Forall (λ j u2, email u1 = email u2 → i = j) table) table.

#[global] Instance emails_unique_dec table : Decision (emails_unique table).
Proof. unfold emails_unique. apply _. Defined.

End AccountModel.

(** ** Sample stores *)

Module Samples.
Import Blog.

Definition hello : Post :=
  {| post_title := "Hello"; post_slug := "hello"; post_content := "A first post";
     post_excerpt := ""; post_author := 7; post_status := "published";
     post_views_count := 3; post_likes_count := 1; post_tags := {[ 1%nat ]} |}.

Definition secret : Post :=
  {| post_title := "Secret"; post_slug := "secret"; post_content := "Not yet";
     post_excerpt := ""; post_author := 8; post_status := "draft";
     post_views_count := 9; post_likes_count := 0; post_tags := ∅ |}.

Definition comment (content : string) (author : nat) (parent : option nat) : Comment :=
  {| comment_content := content; comment_author := author; comment_post := 1;
     comment_parent := parent; comment_likes_count := 0 |}.

(** Two posts, the second a draft; one tag; a thread 1 ← 2 ← 3 and a
    comment 4 of its own on the first post; one like. *)
Definition blog : Store :=
  {| posts := {[ 1%nat := hello; 2%nat := secret ]};
     tags := {[ 1%nat := {| tag_name := "rocq"; tag_slug := "rocq" |} ]};
     comments := {[ 1%nat := comment "first" 7 None;
                    2%nat := comment "reply" 8 (Some 1%nat);
                    3%nat := comment "reply to the reply" 7 (Some 2%nat);
                    4%nat := comment "second" 7 None ]};
     likes := {[ (1%nat, 7%nat) ]};
     bookmarks := ∅;
     comment_likes := ∅;
     comment_seq := 5 |}.

(** Twelve published posts, the post with key [k] having [k] views and no
    like. *)
Definition twelve : Store :=
  {| posts :=
       list_to_map
         ((λ k : nat,
             (k, {| post_title := "Post"; post_slug := "post-" +:+ pretty k;
                    post_content := "";
                    post_excerpt := ""; post_author := 7; post_status := "published";
                    post_views_count := Z.of_nat k; post_likes_count := 0;
                    post_tags := ∅ |})) <$> seq 1 12);
     tags := ∅; comments := ∅; likes := ∅; bookmarks := ∅; comment_likes := ∅;
     comment_seq := 0 |}.

Definition drafts : QueryParams :=
  {| qp_status := Some "draft"; qp_author := None; qp_tag := None; qp_search := None |}.

Definition retag : PostCreateUpdateSerializer.ValidatedData :=
  {| PostCreateUpdateSerializer.vd_title := None;
     PostCreateUpdateSerializer.vd_content := None;
     PostCreateUpdateSerializer.vd_excerpt := None;
     PostCreateUpdateSerializer.vd_status := None;
     PostCreateUpdateSerializer.vd_tags := Some [" Coq "; "ROCQ"] |}.

Definition bob : Accounts.User :=
  {| Accounts.username := "bob"; Accounts.email := "b@x.com";
     Accounts.password := "pbkdf2$bob" |}.

Definition accounts : Accounts.Store :=
  {| Accounts.users := {[ 1%nat := bob ]};
     Accounts.profiles :=
       {[ 1%nat := {| Accounts.bio := ""; Accounts.profile_picture := None |} ]} |}.

Definition framework : Accounts.Framework :=
  {| Accounts.username_valid := λ _, true;
     Accounts.email_valid := λ _, true;
     Accounts.validate_password := λ s, (8 <=? String.length s)%nat;
     Accounts.make_password := λ s, "pbkdf2$" +:+ s;
     Accounts.normalize_username := λ s, s;
     Accounts.normalize_email := λ s, s |}.

Definition alice : Accounts.RegisterSerializer.Data :=
  {| Accounts.RegisterSerializer.d_username := Some "alice";
     Accounts.RegisterSerializer.d_password := Some "Aa12345!";
     Accounts.RegisterSerializer.d_password2 := Some "Aa12345!";
     Accounts.RegisterSerializer.d_email := Some "a@x.com" |}.

Definition keep_name : Accounts.UpdateUserProfileSerializer.ValidatedData :=
  {| Accounts.UpdateUserProfileSerializer.vd_username := Some "bob";
     Accounts.UpdateUserProfileSerializer.vd_bio := Some "Hi";
     Accounts.UpdateUserProfileSerializer.vd_profile_picture := None |}.

End Samples.

(** * Properties *)

Module TextFacts.

Example strip_both_ends : Text.strip "  a b  " = "a b".
Proof. reflexivity. Qed.

Example strip_blank : Text.strip "   " = "".
Proof. reflexivity. Qed.

Example normalise_tag : Text.lower (Text.strip " Rocq Prover ") = "rocq prover".
Proof. reflexivity. Qed.

Example icontains_case : Text.icontains "Hello World" "o w" = true.
Proof. reflexivity. Qed.

End TextFacts.

Module PermissionFacts.
Import Blog.

Lemma IsAuthorOrReadOnly_author m author :
  IsAuthorOrReadOnly m author (Some author) = true.
Proof.
  unfold IsAuthorOrReadOnly. rewrite bool_decide_eq_true_2 by done.
  apply orb_true_r.
Qed.

Lemma IsAuthorOrReadOnly_read author user :
  IsAuthorOrReadOnly GET author user = true.
Proof. done. Qed.

End PermissionFacts.

Module PostFacts.
Import Blog Blog.PostViewSet Model.

(** Each stage of [get_queryset] selects rows of the stage before it. *)
Ltac queryset_stage :=
  repeat match goal with
    | H : _ ∈ remove_dups _ |- _ => rewrite elem_of_remove_dups in H
    | H : _ ∈ filter _ _ |- _ => apply list_elem_of_filter in H as [? H]
    | H : _ ∈ by_status _ _ |- _ => unfold by_status in H
    | H : _ ∈ by_author _ _ |- _ => unfold by_author in H
    | H : context [match ?x with _ => _ end] |- _ =>
        destruct x eqn:?; cbv iota beta in H
    end.

Lemma get_queryset_objects st action user qp r :
  r ∈ get_queryset st action user qp → r ∈ objects st.
Proof. unfold get_queryset. intros H. queryset_stage; done. Qed.

Lemma get_queryset_status st action user qp s r :
  Text.given (qp_status qp) = Some s →
  r ∈ get_queryset st action user qp → post_status r.2 = s.
Proof.
  unfold get_queryset. intros -> H. queryset_stage; done.
Qed.

Lemma get_queryset_list_anonymous st qp r :
  Text.given (qp_status qp) = None →
  r ∈ get_queryset st act_list None qp → post_status r.2 = "published".
Proof.
  unfold get_queryset. intros -> H. simpl in H. queryset_stage; done.
Qed.

Section ListPosts.
(** The filter backends and the paginator only select and reorder. *)
Variable backends : QueryParams → list (nat * Post) → list (nat * Post).
Hypothesis backends_select : ∀ qp qs, backends qp qs ⊆ qs.

(** C1 (amended): every post listed for an anonymous caller has the
    status named by a non-empty [status] parameter, and status
    [published] when no such parameter is given, whatever the author,
    tag and search filters are. *)
Theorem list_posts_anonymous_status st qp r :
  r ∈ list_posts backends st None qp →
  post_status r.2 = default "published" (Text.given (qp_status qp)).
Proof.
  unfold list_posts. intros H. apply backends_select in H.
  destruct (Text.given (qp_status qp)) as [s|] eqn:E; simpl.
  - by eapply get_queryset_status.
  - by eapply get_queryset_list_anonymous.
Qed.
End ListPosts.

Lemma list_posts_anonymous_status_witness :
  (1%nat, Samples.hello) ∈ list_posts (λ _ qs, qs) Samples.blog None no_params
  ∧ post_status Samples.hello = "published".
Proof.
  assert ((1%nat, Samples.hello) ∈ list_posts (λ _ qs, qs) Samples.blog None no_params)
    as Hin.
  { apply (bool_decide_unpack _). vm_compute. exact I. }
  split; [exact Hin|].
  exact (list_posts_anonymous_status (λ _ qs, qs) (λ qp qs r Hr, Hr)
           Samples.blog no_params (1%nat, Samples.hello) Hin).
Defined.

(** The claim C1 as it is worded fails: the anonymous caller who asks for
    [status=draft] is answered the draft. *)
Lemma list_posts_anonymous_draft :
  ¬ (∀ r, r ∈ list_posts (λ _ qs, qs) Samples.blog None Samples.drafts →
          post_status r.2 = "published").
Proof.
  intros Hall.
  assert ((2%nat, Samples.secret) ∈ list_posts (λ _ qs, qs) Samples.blog None Samples.drafts)
    as Hin.
  { apply (bool_decide_unpack _). vm_compute. exact I. }
  apply Hall in Hin. discriminate Hin.
Qed.

(** ** Likes *)

Lemma alter_lookup_insert {A} (f : A → A) (m : gmap nat A) i x :
  m !! i = Some x → alter f i m = <[i := f x]> m.
Proof.
  intros Hi. apply map_eq. intros j. destruct (decide (i = j)) as [->|Hne].
  - by rewrite lookup_alter_eq, lookup_insert_eq, Hi.
  - by rewrite lookup_alter_ne, lookup_insert_ne.
Qed.

(** Without query parameters, a detail route finds a post by its key. *)
Lemma get_object_no_params st action user pk :
  action ≠ act_list →
  get_object st action user no_params pk = posts st !! pk.
Proof.
  intros Ha. unfold get_object, get_queryset, objects. simpl.
  destruct (decide (action = act_list)); [done|].
  by rewrite list_to_map_to_list.
Qed.

Lemma like_new st u pk post :
  posts st !! pk = Some post → (pk, u) ∉ likes st →
  like st (Some u) no_params pk =
    (Success HTTP_200_OK
       {| like_status := "liked"; like_likes_count := post_likes_count post + 1 |},
     with_posts (<[pk := with_likes_count (post_likes_count post + 1) post]> (posts st))
       (with_likes ({[ (pk, u) ]} ∪ likes st) st)).
Proof.
  intros Hp Hl. unfold like. rewrite get_object_no_params by done. rewrite Hp.
  unfold get_or_create. rewrite decide_False by done. simpl.
  rewrite lookup_alter_eq, Hp. simpl.
  by rewrite (alter_lookup_insert _ _ _ _ Hp).
Qed.

Lemma like_existing st u pk post :
  posts st !! pk = Some post → (pk, u) ∈ likes st →
  like st (Some u) no_params pk =
    (Success HTTP_200_OK
       {| like_status := "unliked";
          like_likes_count := Z.max 0 (post_likes_count post - 1) |},
     with_posts
       (<[pk := with_likes_count (Z.max 0 (post_likes_count post - 1)) post]> (posts st))
       (with_likes (likes st ∖ {[ (pk, u) ]}) st)).
Proof.
  intros Hp Hl. unfold like. rewrite get_object_no_params by done. rewrite Hp.
  unfold get_or_create. rewrite decide_True by done. simpl.
  by rewrite (alter_lookup_insert _ _ _ _ Hp).
Qed.

(** C2: a like call by [u] on an existing post creates the missing Like
    row, adds one to the counter and answers [liked] with the new count;
    when the row exists it deletes it, takes one off the counter (not
    below zero) and answers [unliked] with the new count; a like followed
    by a second call of the same user restores the counter (and the
    store). *)
Theorem like_toggle st u pk post :
  posts st !! pk = Some post →
  let n := post_likes_count post in
  ((pk, u) ∉ likes st →
     ∃ st', like st (Some u) no_params pk =
              (Success HTTP_200_OK {| like_status := "liked"; like_likes_count := n + 1 |}, st')
            ∧ likes st' = {[ (pk, u) ]} ∪ likes st
            ∧ posts st' = <[pk := with_likes_count (n + 1) post]> (posts st))
  ∧ ((pk, u) ∈ likes st →
     ∃ st', like st (Some u) no_params pk =
              (Success HTTP_200_OK
                 {| like_status := "unliked"; like_likes_count := Z.max 0 (n - 1) |}, st')
            ∧ likes st' = likes st ∖ {[ (pk, u) ]}
            ∧ posts st' = <[pk := with_likes_count (Z.max 0 (n - 1)) post]> (posts st))
  ∧ ((pk, u) ∉ likes st → 0 ≤ n →
     ∃ st1,
       like st (Some u) no_params pk =
         (Success HTTP_200_OK {| like_status := "liked"; like_likes_count := n + 1 |}, st1)
       ∧ like st1 (Some u) no_params pk =
         (Success HTTP_200_OK {| like_status := "unliked"; like_likes_count := n |}, st))
       ∧ ((pk, u) ∈ likes st → 1 ≤ n →
       ∃ st1,
        like st (Some u) no_params pk =
          (Success HTTP_200_OK {| like_status := "unliked"; like_likes_count := n - 1 |}, st1)
        ∧ like st1 (Some u) no_params pk =
          (Success HTTP_200_OK {| like_status := "liked"; like_likes_count := n |}, st)).
       Proof.
       intros Hp n. split_and!.
  - intros Hl. eexists. split; [by apply like_new|done].
  - intros Hl. eexists. split; [by apply like_existing|done].
  - intros Hl Hn. eexists. split; [by apply like_new|].
    erewrite like_existing; cycle 1.
    + simpl. apply lookup_insert_eq.
    + simpl. rewrite elem_of_union, elem_of_singleton. by left.
    + subst n. destruct st as [ps ts cs ls bs cls].
      destruct post as [ti sl co ex au sta vc lc tg]. simpl in *.
      unfold with_posts, with_likes, with_likes_count. simpl.
      replace (lc + 1 - 1) with lc by lia.
      rewrite Z.max_r by done. do 2 f_equal.
      * rewrite insert_insert_eq. by apply insert_id.
      * apply set_eq. intros x.
        rewrite elem_of_difference, elem_of_union, elem_of_singleton.
        split; [by intros [[->|?] ?]|].
        intros Hx. split; [by right|]. by intros ->.
  - intros Hl Hn. eexists. split.
    + rewrite (like_existing _ _ _ _ Hp Hl). subst n.
      by rewrite Z.max_r by lia.
    + erewrite like_new; cycle 1.
      * simpl. apply lookup_insert_eq.
      * simpl. rewrite elem_of_difference, elem_of_singleton. tauto.
      * subst n. destruct st as [ps ts cs ls bs cls].
        destruct post as [ti sl co ex au sta vc lc tg]. simpl in *.
        unfold with_posts, with_likes, with_likes_count. simpl.
        replace (lc - 1 + 1) with lc by lia. do 2 f_equal.
        -- rewrite insert_insert_eq. by apply insert_id.
        -- apply set_eq. intros x.
           rewrite elem_of_union, elem_of_difference, elem_of_singleton.
           destruct (decide (x = (pk, u))) as [->|]; tauto.
Qed.

Lemma like_toggle_witness :
  posts Samples.blog !! 1%nat = Some Samples.hello
  ∧ ∃ st1,
      like Samples.blog (Some 8%nat) no_params 1
      = (Success HTTP_200_OK {| like_status := "liked"; like_likes_count := 2 |}, st1)
      ∧ like st1 (Some 8%nat) no_params 1
        = (Success HTTP_200_OK {| like_status := "unliked"; like_likes_count := 1 |},
           Samples.blog).
Proof.
  assert (posts Samples.blog !! 1%nat = Some Samples.hello) as Hp by reflexivity.
  split; [exact Hp|].
  destruct (like_toggle Samples.blog 8 1 Samples.hello Hp) as (_ & _ & Htwice).
  apply Htwice.
  - apply (bool_decide_unpack _). vm_compute. exact I.
  - simpl. lia.
Defined.

Lemma like_rows_new st u pk :
  (pk, u) ∉ likes st →
  size (filter (λ row, row.1 = pk) ({[ (pk, u) ]} ∪ likes st)) = S (like_rows st pk).
Proof.
  intros Hl. unfold like_rows.
  assert (filter (λ row, row.1 = pk) ({[ (pk, u) ]} ∪ likes st) =
          {[ (pk, u) ]} ∪ filter (λ row : nat * nat, row.1 = pk) (likes st)) as ->.
  { apply set_eq. intros x.
    rewrite elem_of_union, !elem_of_filter, elem_of_union, elem_of_singleton.
    split; [intros [Hx [->|Hin]]; tauto|].
    intros [->|[Hx Hin]]; [by split; [|left]|tauto]. }
  rewrite size_union, size_singleton; [done|].
  apply disjoint_singleton_l. rewrite elem_of_filter. tauto.
Qed.

Lemma like_rows_deleted st u pk :
  (pk, u) ∈ likes st →
  S (size (filter (λ row, row.1 = pk) (likes st ∖ {[ (pk, u) ]}))) = like_rows st pk.
Proof.
  intros Hl. unfold like_rows.
  assert (filter (λ row, row.1 = pk) (likes st) =
          {[ (pk, u) ]} ∪ filter (λ row : nat * nat, row.1 = pk) (likes st ∖ {[ (pk, u) ]}))
    as ->.
  { apply set_eq. intros x.
    rewrite elem_of_union, !elem_of_filter, elem_of_difference, elem_of_singleton.
    destruct (decide (x = (pk, u))) as [->|]; [|tauto].
    split; [by left|]. by intros _. }
  rewrite size_union, size_singleton; [done|].
  apply disjoint_singleton_l.
  rewrite elem_of_filter, elem_of_difference, elem_of_singleton. tauto.
Qed.

(** One like call, by any user, keeps the counter of the post in step
    with its rows. *)
Lemma like_consistent st u pk :
  likes_consistent st pk →
  likes_consistent (like st (Some u) no_params pk).2 pk.
Proof.
  intros (post & Hp & Hn). destruct (decide ((pk, u) ∈ likes st)) as [Hl|Hl].
  - rewrite (like_existing _ _ _ _ Hp Hl). simpl.
    exists (with_likes_count (Z.max 0 (post_likes_count post - 1)) post).
    split; [apply lookup_insert_eq|]. unfold like_rows. simpl.
    pose proof (like_rows_deleted _ _ _ Hl). lia.
  - rewrite (like_new _ _ _ _ Hp Hl). simpl.
    exists (with_likes_count (post_likes_count post + 1) post).
    split; [apply lookup_insert_eq|]. unfold like_rows. simpl.
    rewrite (like_rows_new _ _ _ Hl). lia.
Qed.

Lemma like_calls_consistent st pk users :
  likes_consistent st pk → likes_consistent (like_calls pk users st) pk.
Proof.
  revert st. induction users as [|u users IH]; intros st Hc; [done|].
  simpl. apply IH. by apply like_consistent.
Qed.

(** C3: starting from a store in which the counter of a post equals the
    number of its Like rows, after like calls on that post by any list of
    distinct users the counter again equals the number of Like rows. *)
Theorem like_calls_count st pk post users :
  posts st !! pk = Some post →
  post_likes_count post = Z.of_nat (like_rows st pk) →
  NoDup users →
  ∃ post', posts (like_calls pk users st) !! pk = Some post'
           ∧ post_likes_count post' = Z.of_nat (like_rows (like_calls pk users st) pk).
Proof.
  intros Hp Hn _. apply like_calls_consistent. by exists post.
Qed.

Lemma like_calls_count_witness :
  NoDup [7%nat; 8%nat; 9%nat]
  ∧ ∃ post', posts (like_calls 1 [7%nat; 8%nat; 9%nat] Samples.blog) !! 1%nat = Some post'
             ∧ post_likes_count post'
               = Z.of_nat (like_rows (like_calls 1 [7%nat; 8%nat; 9%nat] Samples.blog) 1).
Proof.
  assert (NoDup [7%nat; 8%nat; 9%nat]) as Hnd.
  { apply (bool_decide_unpack _). vm_compute. exact I. }
  split; [exact Hnd|].
  apply (like_calls_count Samples.blog 1 Samples.hello [7%nat; 8%nat; 9%nat]).
  - reflexivity.
  - vm_compute. reflexivity.
  - exact Hnd.
Defined.

(** ** Trending *)

#[local] Instance by_engagement_desc_trans : Transitive by_engagement_desc.
Proof. intros x y z. unfold by_engagement_desc. lia. Qed.

#[local] Instance by_engagement_desc_total : Total by_engagement_desc.
Proof. intros x y. unfold by_engagement_desc. lia. Qed.




(** On the sample stores: of twelve published posts the ten most viewed
    are answered, most viewed first, and the draft is never trending. *)
Example trending_twelve :
  (trending Samples.twelve None no_params).*1
  = [12; 11; 10; 9; 8; 7; 6; 5; 4; 3]%nat.
Proof. vm_compute. reflexivity. Qed.

Example trending_blog : (trending Samples.blog None no_params).*1 = [1%nat].
Proof. vm_compute. reflexivity. Qed.

End PostFacts.

Module CommentFacts.
Import Blog Blog.CommentSerializer Blog.CommentViewSet Model.

(** ** Rendering the reply tree *)

Lemma replies_lookup st id r :
  r ∈ replies st id ↔
  comments st !! r.1 = Some r.2 ∧ comment_parent r.2 = Some id.
Proof.
  unfold replies. rewrite list_elem_of_filter. destruct r as [k c]. simpl.
  rewrite elem_of_map_to_list. tauto.
Qed.

Lemma above_reply st id r :
  parents_first (comments st) → r ∈ replies st id → above st r.1 ⊂ above st id.
Proof.
  intros Hpf [Hr Hp]%replies_lookup. pose proof (Hpf _ _ Hr _ Hp) as Hlt.
  unfold above. split.
  - intros k. rewrite !elem_of_filter. intros [? ?]. split; [lia|done].
  - intros Hsub. assert (r.1 ∈ filter (λ k, (r.1 < k)%nat) (dom (comments st))) as Hin.
    { apply Hsub. apply elem_of_filter. split; [done|]. by apply elem_of_dom. }
    apply elem_of_filter in Hin as [? _]. lia.
Qed.

(** In a forest the serializer ends: a depth above the number of keys
    greater than [id] is enough. *)
Lemma to_representation_ends depth st user id obj :
  parents_first (comments st) → (size (above st id) < depth)%nat →
  is_Some (to_representation depth st user id obj).
Proof.
  intros Hpf. revert id obj.
  induction depth as [|depth IH]; intros id obj Hsize; [lia|]. simpl.
  assert (is_Some (mapM (λ r, to_representation depth st user r.1 r.2) (replies st id)))
    as [nested ->]; [|done].
  apply mapM_is_Some_2, Forall_forall. intros r Hr. simpl. apply IH.
  pose proof (subset_size _ _ (above_reply st id r Hpf Hr)). lia.
Qed.

Lemma to_representation_total st user id obj :
  parents_first (comments st) →
  is_Some (to_representation (depth_bound st) st user id obj).
Proof.
  intros Hpf. apply to_representation_ends; [done|].
  unfold depth_bound, above.
  assert (size (filter (λ k, (id < k)%nat) (dom (comments st))) ≤ size (dom (comments st)))%nat.
  { apply subseteq_size. intros k. rewrite elem_of_filter. tauto. }
  rewrite size_dom in *. lia.
Qed.

(** What the serializer answers is the rendering of the comment. *)
Lemma to_representation_rendered depth st user id obj d :
  to_representation depth st user id obj = Some d →
  rendered (comments st) (comment_likes st) user id obj d.
Proof.
  revert id obj d. induction depth as [|depth IH]; intros id obj d; [done|]. simpl.
  destruct (mapM _ _) as [nested|] eqn:Hm; [|done]. simpl. intros [= <-].
  constructor; simpl; try done.
  - unfold get_can_edit. destruct user as [u|]; simpl; [|done].
    rewrite bool_decide_eq_true. split; by intros ->.
  - unfold get_can_delete. destruct user as [u|]; simpl; [|done].
    rewrite bool_decide_eq_true. split; by intros ->.
  - unfold get_is_liked. destruct user as [u|].
    + rewrite bool_decide_eq_true. split; [by exists u|by intros (? & [= ->] & ?)].
    + split; [done|by intros (? & ? & ?)].
  - apply mapM_Some_1 in Hm. eapply Forall2_impl; [exact Hm|].
    intros r n Hr. by apply IH.
Qed.

Lemma many_rendered st user rows :
  parents_first (comments st) →
  ∃ nested, many st user rows = Some nested
            ∧ Forall2 (λ r n, rendered (comments st) (comment_likes st) user r.1 r.2 n)
                rows nested.
Proof.
  intros Hpf. unfold many.
  assert (is_Some (mapM (λ r, to_representation (depth_bound st) st user r.1 r.2) rows))
    as [nested Hm].
  { apply mapM_is_Some_2, Forall_forall. intros r _. by apply to_representation_total. }
  exists nested. split; [done|]. apply mapM_Some_1 in Hm.
  eapply Forall2_impl; [exact Hm|]. intros r n. apply to_representation_rendered.
Qed.

(** ** Editing a comment *)

Lemma parents_first_with_content table pk comment content :
  table !! pk = Some comment → parents_first table →
  parents_first (<[pk := with_content content comment]> table).
Proof.
  intros Hc Hpf id c. destruct (decide (pk = id)) as [->|Hne].
  - rewrite lookup_insert_eq. intros [= <-]. simpl. by apply (Hpf id comment).
  - rewrite lookup_insert_ne by done. apply Hpf.
Qed.

Lemma truthy_false s : Text.truthy s = false ↔ s = "".
Proof. unfold Text.truthy. by case_decide. Qed.

Section Permission.
Variable py : Text.Python.
(** The object permission of the view set lets the author write. *)
Variable permission : Method → nat → option nat → bool.
Hypothesis permission_author : ∀ m author, permission m author (Some author) = true.

(** C5: for an existing comment and an authenticated caller, [update]
    answers 403 and changes nothing when the caller is not the author;
    for the author, when the content of the body is a string, or is
    absent and read as the empty string, it answers 400 and changes
    nothing when the content is empty once stripped, and otherwise stores
    the stripped content in the comment and answers 200 with the rendered
    comment.  A body that is not a dictionary, or whose content is not a
    string, ends in the [AttributeError] that nothing catches: 500, and
    nothing changes. *)
Theorem update_comment method st u pk comment data :
  comments st !! pk = Some comment →
  (comment_author comment ≠ u →
     ∃ errors, update py permission method st (Some u) pk data
               = (Failure HTTP_403_FORBIDDEN errors, st))
  ∧ (∀ s, comment_author comment = u →
     Body.get data "content" (JString "") = Done (JString s) →
     Text.py_strip py s = "" →
     ∃ errors, update py permission method st (Some u) pk data
               = (Failure HTTP_400_BAD_REQUEST errors, st))
  ∧ (∀ s, comment_author comment = u →
     Body.get data "content" (JString "") = Done (JString s) →
     Text.py_strip py s ≠ "" →
     parents_first (comments st) →
     ∃ body,
       update py permission method st (Some u) pk data
       = (Success HTTP_200_OK body,
          with_comments
            (<[pk := with_content (Text.py_strip py s) comment]> (comments st))
            st)
       ∧ cd_id body = pk
       ∧ cd_content body = Text.py_strip py s)
  ∧ (comment_author comment = u →
     (∀ s, Body.get data "content" (JString "") ≠ Done (JString s)) →
     update py permission method st (Some u) pk data
     = (server_error "AttributeError", st)).
Proof.
  intros Hc. unfold update, get_object. rewrite Hc. split_and!.
  - intros Hne. destruct (permission method (comment_author comment) (Some u)); simpl.
    + rewrite decide_True by done. by eexists.
    + by eexists.
  - intros s <- -> Hempty. rewrite permission_author. simpl.
    rewrite decide_False by (by intros []).
    apply truthy_false in Hempty. rewrite Hempty. simpl. by eexists.
  - intros s <- -> Hcontent Hpf. rewrite permission_author. cbn [negb].
    rewrite decide_False by (by intros []). cbn [Body.strip].
    assert (Text.truthy (Text.py_strip py s) = true) as ->.
    { destruct (Text.truthy _) eqn:E; [done|]. by apply truthy_false in E. }
    cbn [negb]. cbv zeta.
    set (st' := with_comments _ st).
    destruct (to_representation_total st' (Some (comment_author comment)) pk
                (with_content (Text.py_strip py s) comment)) as [body Hd].
    { by apply parents_first_with_content. }
    rewrite Hd. exists body. split; [done|].
    apply to_representation_rendered in Hd. by inversion Hd.
  - intros <- Hno. rewrite permission_author. cbn [negb].
    rewrite decide_False by (by intros []).
    destruct (Body.get data "content" (JString "")) as [value|e] eqn:Hget.
    + destruct value as [| | |s| |]; try done. by destruct (Hno s).
    + destruct data; simpl in Hget; try discriminate; by injection Hget as <-.
Qed.

End Permission.

Lemma update_comment_witness :
  comments Samples.blog !! 1%nat = Some (Samples.comment "first" 7 None)
  ∧ ∃ body,
      update Text.ascii_range IsAuthorOrReadOnly PUT Samples.blog (Some 7%nat) 1
        (JObject [("content", JString "  edited  ")])
      = (Success HTTP_200_OK body,
         with_comments
           (<[1%nat := with_content "edited" (Samples.comment "first" 7 None)]>
              (comments Samples.blog))
           Samples.blog)
      ∧ cd_id body = 1%nat
      ∧ cd_content body = "edited".
Proof.
  assert (comments Samples.blog !! 1%nat = Some (Samples.comment "first" 7 None))
    as Hc by reflexivity.
  split; [exact Hc|].
  destruct (update_comment Text.ascii_range IsAuthorOrReadOnly
              PermissionFacts.IsAuthorOrReadOnly_author
              PUT Samples.blog 7 1 (Samples.comment "first" 7 None)
              (JObject [("content", JString "  edited  ")]) Hc)
    as (_ & _ & Hok & _).
  apply (Hok "  edited  ").
  - reflexivity.
  - reflexivity.
  - vm_compute. discriminate.
  - apply (bool_decide_unpack _). vm_compute. exact I.
Defined.

(** A content that is [null] is not a string: the author's request ends
    in the exception. *)
Example update_comment_null :
  update Text.ascii_range IsAuthorOrReadOnly PUT Samples.blog (Some 7%nat) 1
    (JObject [("content", JNull)])
  = (server_error "AttributeError", Samples.blog).
Proof. reflexivity. Qed.

(** ** Deleting a comment *)

Lemma in_subtree_trans table a b c :
  in_subtree table a b → in_subtree table b c → in_subtree table a c.
Proof.
  intros Hab Hbc. induction Hbc as [|x cx p Hx Hp _ IH]; [done|].
  by eapply subtree_reply.
Qed.

Lemma replies_to_spec table seen x :
  x ∈ replies_to table seen ↔
  ∃ c p, table !! x = Some c ∧ comment_parent c = Some p ∧ p ∈ seen.
Proof.
  unfold replies_to. rewrite elem_of_dom. unfold is_Some.
  setoid_rewrite map_lookup_filter_Some. unfold parent_in. simpl. split.
  - intros (c & Hc & Hp). destruct (comment_parent c) as [p|] eqn:E; [|done].
    by exists c, p.
  - intros (c & p & Hc & Hp & Hin). exists c. by rewrite Hp.
Qed.

(** The deletion collects exactly the subtrees of what it starts from. *)
Lemma collect_subtrees table seen x :
  x ∈ collect table seen ↔ ∃ root, root ∈ seen ∧ in_subtree table root x.
Proof.
  funelim (collect table seen).
  - (* a round that finds nothing new *)
    match goal with Hclosed : replies_to _ _ ⊆ _ |- _ => rename Hclosed into Hsubset end.
    split.
    + intros Hx. exists x. split; [done|constructor].
    + intros (root & Hroot & Hsub).
      induction Hsub as [|y c p Hy Hp _ IH]; [done|].
      apply Hsubset. apply replies_to_spec. by exists c, p.
  - (* a round that finds replies *)
    match goal with IH : ∀ x, x ∈ collect _ _ ↔ _ |- _ => rewrite IH end. split.
    + intros (root & Hroot & Hsub). apply elem_of_union in Hroot as [Hroot|Hroot].
      * by exists root.
      * apply replies_to_spec in Hroot as (c & p & Hc & Hp & Hin).
        exists p. split; [done|]. eapply in_subtree_trans; [|exact Hsub].
        eapply subtree_reply; [exact Hc|exact Hp|constructor].
    + intros (root & Hroot & Hsub). exists root. split; [|done].
      apply elem_of_union. by left.
Qed.

Lemma delete_collected st pk x :
  x ∈ collect (comments st) {[pk]} ↔ in_subtree (comments st) pk x.
Proof.
  rewrite collect_subtrees. split.
  - by intros (root & ->%elem_of_singleton & ?).
  - intros ?. exists pk. by rewrite elem_of_singleton.
Qed.

Lemma delete_subtree st pk x :
  in_subtree (comments st) pk x → comments (delete pk st) !! x = None.
Proof.
  intros Hs%delete_collected. unfold delete. simpl.
  apply map_lookup_filter_None. right. intros c _. simpl. tauto.
Qed.

Lemma delete_others st pk x :
  ¬ in_subtree (comments st) pk x →
  comments (delete pk st) !! x = comments st !! x.
Proof.
  intros Hs. rewrite <- delete_collected in Hs. unfold delete. simpl.
  destruct (comments st !! x) as [c|] eqn:Hc.
  - by apply map_lookup_filter_Some.
  - apply map_lookup_filter_None. by left.
Qed.

Section Permission.
Variable permission : Method → nat → option nat → bool.
Hypothesis permission_author : ∀ m author, permission m author (Some author) = true.

(** C6: for an existing comment, [destroy] answers 403 and changes
    nothing when the caller is not the author; for the author it
    answers 204 and removes the comment with every reply below it,
    through any number of parents, and nothing else. *)
Theorem destroy_comment st u pk comment :
  comments st !! pk = Some comment →
  (comment_author comment ≠ u →
     ∃ errors, destroy permission st (Some u) pk
               = (Failure HTTP_403_FORBIDDEN errors, st))
  ∧ (comment_author comment = u →
     ∃ st', destroy permission st (Some u) pk = (Success HTTP_204_NO_CONTENT (), st')
            ∧ comments st' !! pk = None
            ∧ (∀ x, in_subtree (comments st) pk x → comments st' !! x = None)
            ∧ (∀ x, ¬ in_subtree (comments st) pk x →
                    comments st' !! x = comments st !! x)
            ∧ posts st' = posts st).
Proof.
  intros Hc. unfold destroy, get_object. rewrite Hc. split.
  - intros Hne. destruct (permission DELETE (comment_author comment) (Some u)); simpl.
    + rewrite decide_True by done. by eexists.
    + by eexists.
  - intros <-. rewrite permission_author. cbn [negb].
    rewrite decide_False by (by intros []).
    eexists. split; [done|]. split_and!.
    + apply delete_subtree. constructor.
    + apply delete_subtree.
    + apply delete_others.
    + done.
Qed.

End Permission.

Lemma destroy_comment_witness :
  comments Samples.blog !! 1%nat = Some (Samples.comment "first" 7 None)
  ∧ ∃ st', destroy IsAuthorOrReadOnly Samples.blog (Some 7%nat) 1
           = (Success HTTP_204_NO_CONTENT (), st')
           ∧ comments st' !! 1%nat = None
           ∧ (∀ x, in_subtree (comments Samples.blog) 1 x → comments st' !! x = None)
           ∧ (∀ x, ¬ in_subtree (comments Samples.blog) 1 x →
                   comments st' !! x = comments Samples.blog !! x)
           ∧ posts st' = posts Samples.blog.
Proof.
  assert (comments Samples.blog !! 1%nat = Some (Samples.comment "first" 7 None))
    as Hc by reflexivity.
  split; [exact Hc|].
  destruct (destroy_comment IsAuthorOrReadOnly PermissionFacts.IsAuthorOrReadOnly_author
              Samples.blog 7 1 (Samples.comment "first" 7 None) Hc) as [_ Hok].
  apply Hok. reflexivity.
Defined.

(** On the sample store, deleting comment 1 leaves comment 4 alone. *)
Example delete_thread :
  comments (delete 1 Samples.blog) = {[ 4%nat := Samples.comment "second" 7 None ]}.
Proof. vm_compute. reflexivity. Qed.

End CommentFacts.

Module PostDetailFacts.
Import Blog Blog.PostViewSet Model.

Section Permission.
(** The object permission of the view set lets anyone read. *)
Variable permission : Method → nat → option nat → bool.
Hypothesis permission_read : ∀ author user, permission GET author user = true.

(** C9: for an existing post and any caller, [retrieve] adds one to the
    view counter of the post and changes nothing else in the store; on a
    comment forest the detail it answers carries the new count and, under
    [pd_comments], the top-level comments of the post, each rendered with
    its replies. *)
Theorem retrieve_counts_view st user pk post :
  posts st !! pk = Some post →
  (retrieve permission st user no_params pk).2
  = with_posts (<[pk := with_views_count (post_views_count post + 1) post]> (posts st)) st
  ∧ (parents_first (comments st) →
     ∃ data,
       (retrieve permission st user no_params pk).1 = Success HTTP_200_OK data
       ∧ pd_id data = pk
       ∧ pd_views_count data = post_views_count post + 1
       ∧ Forall2 (λ r n, rendered (comments st) (comment_likes st) user r.1 r.2 n)
           (filter (λ r, comment_post r.2 = pk ∧ comment_parent r.2 = None)
              (map_to_list (comments st)))
           (pd_comments data)).
Proof.
  intros Hp. unfold retrieve.
  rewrite PostFacts.get_object_no_params by done. rewrite Hp.
  rewrite permission_read. cbn [negb]. cbv zeta.
  rewrite (PostFacts.alter_lookup_insert _ _ _ _ Hp).
  set (st' := with_posts _ st).
  assert (posts st' !! pk = Some (with_views_count (post_views_count post + 1) post))
    as -> by apply lookup_insert_eq.
  cbn [default from_option]. split.
  - by destruct (PostDetailSerializer.to_representation _ _ _ _).
  - intros Hpf. unfold PostDetailSerializer.to_representation.
    destruct (CommentFacts.many_rendered st' user
                (PostDetailSerializer.top_level_comments st' pk) Hpf)
      as (nested & Hm & Hr).
    unfold PostDetailSerializer.get_comments. rewrite Hm. simpl.
    eexists. split; [done|]. simpl. by split_and!.
Qed.

End Permission.

Lemma retrieve_counts_view_witness :
  posts Samples.blog !! 1%nat = Some Samples.hello
  ∧ (retrieve IsAuthorOrReadOnly Samples.blog None no_params 1).2
    = with_posts (<[1%nat := with_views_count (3 + 1) Samples.hello]> (posts Samples.blog))
        Samples.blog
  ∧ ∃ data,
      (retrieve IsAuthorOrReadOnly Samples.blog None no_params 1).1
      = Success HTTP_200_OK data
      ∧ pd_id data = 1%nat
      ∧ pd_views_count data = 3 + 1
      ∧ Forall2
          (λ r n, rendered (comments Samples.blog) (comment_likes Samples.blog) None r.1 r.2 n)
          (filter (λ r, comment_post r.2 = 1%nat ∧ comment_parent r.2 = None)
             (map_to_list (comments Samples.blog)))
          (pd_comments data).
Proof.
  assert (posts Samples.blog !! 1%nat = Some Samples.hello) as Hp by reflexivity.
  split; [exact Hp|].
  destruct (retrieve_counts_view IsAuthorOrReadOnly PermissionFacts.IsAuthorOrReadOnly_read
              Samples.blog None 1 Samples.hello Hp) as [Hstore Hbody].
  split; [exact Hstore|]. apply Hbody.
  apply (bool_decide_unpack _). vm_compute. exact I.
Defined.

(** On the sample store: the answer counts the fourth view, and a second
    retrieval by the same caller counts the fifth. *)
Example retrieve_twice :
  let first := retrieve IsAuthorOrReadOnly Samples.blog (Some 7%nat) no_params 1 in
  let second := retrieve IsAuthorOrReadOnly first.2 (Some 7%nat) no_params 1 in
  (status_code first.1, post_views_count <$> posts first.2 !! 1%nat) = (200%nat, Some 4)
  ∧ (status_code second.1, post_views_count <$> posts second.2 !! 1%nat) = (200%nat, Some 5).
Proof. vm_compute. done. Qed.

End PostDetailFacts.

Module TagFacts.
Import Blog Blog.PostCreateUpdateSerializer Model.

Lemma Tag_get_found table i t :
  tags_unique table → table !! i = Some t →
  Tag_get (tag_name t) table = Done (Some (i, t)).
Proof.
  intros Hu Hi. unfold Tag_get.
  assert (filter (λ r : nat * Tag, tag_name r.2 = tag_name t) table = {[ i := t ]}) as ->.
  { apply map_eq. intros j. destruct (decide (i = j)) as [<-|Hne].
    - rewrite lookup_singleton_eq. by apply map_lookup_filter_Some.
    - rewrite lookup_singleton_ne by done. apply map_lookup_filter_None.
      right. intros t' Hj Hn. simpl in Hn. apply Hne. symmetry.
      by apply (Hu j t' Hj i t Hi). }
  by rewrite map_to_list_singleton.
Qed.

Lemma Tag_get_missing table name :
  (∀ i t, table !! i = Some t → tag_name t ≠ name) →
  Tag_get name table = Done None.
Proof.
  intros Hno. unfold Tag_get.
  assert (filter (λ r : nat * Tag, tag_name r.2 = name) table = ∅) as ->.
  { apply map_eq. intros j. rewrite lookup_empty. apply map_lookup_filter_None.
    right. intros t Hj. by apply (Hno j). }
  by rewrite map_to_list_empty.
Qed.

Lemma named_dec (table : gmap nat Tag) name :
  (∃ i t, table !! i = Some t ∧ tag_name t = name)
  ∨ (∀ i t, table !! i = Some t → tag_name t ≠ name).
Proof.
  destruct (decide (map_Exists (λ _ t, tag_name t = name) table)) as [He|Hn].
  - left. destruct He as (i & t & ? & ?). by exists i, t.
  - right. intros i t Hi Hname. apply Hn. by exists i, t.
Qed.

(** Lookup-or-create on a table without duplicate names: the tag with the
    name is found and the table is left as it is, or there is none, its
    slug is free and one row is added for it. *)
Lemma Tag_get_or_create_unique slugify name table :
  tags_unique table →
  (unnamed table name → slug_free table (slugify name)) →
  ∃ id tag table',
    Tag_get_or_create slugify name table = Done (id, table')
    ∧ table' !! id = Some tag ∧ tag_name tag = name
    ∧ table ⊆ table'
    ∧ tags_unique table'
    ∧ (∀ j t, table' !! j = Some t → table !! j = None →
         tag_name t = name ∧ tag_slug t = slugify name ∧ unnamed table name).
Proof.
  intros Hu Hslug. unfold Tag_get_or_create.
  destruct (named_dec table name) as [(i & t & Hi & Hname)|Hno].
  - subst name. rewrite (Tag_get_found _ _ _ Hu Hi). exists i, t, table. simpl.
    split_and!; try done. intros j t' Hj Hnone. by rewrite Hj in Hnone.
  - rewrite (Tag_get_missing _ _ Hno). unfold Tag_create. cbv zeta.
    rewrite decide_False; cycle 1.
    { intros (j & t & Hj & Hs). by apply (Hslug Hno j t Hj). }
    set (id := fresh (dom table)).
    assert (table !! id = None) as Hid.
    { apply not_elem_of_dom. apply is_fresh. }
    eexists id, _, _. split; [done|]. split_and!.
    + apply lookup_insert_eq.
    + done.
    + by apply insert_subseteq.
    + intros i t1 Hi1 j t2. revert Hi1.
      destruct (decide (id = i)) as [<-|Hi], (decide (id = j)) as [<-|Hj]; [done|..].
      * rewrite lookup_insert_eq, lookup_insert_ne by done.
        intros [= <-] Hj2 Hn. simpl in Hn. by destruct (Hno j t2 Hj2).
      * rewrite lookup_insert_eq, lookup_insert_ne by done.
        intros Hi2 [= <-] Hn. simpl in Hn. by destruct (Hno i t1 Hi2).
      * rewrite !lookup_insert_ne by done. intros Hi1. by apply Hu.
    + intros j t. destruct (decide (id = j)) as [<-|Hj].
      * rewrite lookup_insert_eq. by intros [= <-].
      * rewrite lookup_insert_ne by done. by intros ->.
Qed.

(** A creation that the store refuses: the name has no tag and its slug
    is in use. *)
Lemma Tag_get_or_create_clash slugify name table i t :
  unnamed table name → table !! i = Some t → tag_slug t = slugify name →
  Tag_get_or_create slugify name table = Raised "IntegrityError".
Proof.
  intros Hno Hi Hs. unfold Tag_get_or_create. rewrite (Tag_get_missing _ _ Hno).
  unfold Tag_create. cbv zeta. rewrite decide_True; [done|]. by exists i, t.
Qed.

Lemma with_tag_set_id post : with_tag_set (post_tags post) post = post.
Proof. by destruct post. Qed.

Lemma unnamed_weaken (table table' : gmap nat Tag) name :
  table ⊆ table' → unnamed table' name → unnamed table name.
Proof. intros Hsub Hno i t Hi. apply (Hno i t). by eapply lookup_weaken. Qed.

(** The condition on the slugs goes through a lookup-or-create. *)
Lemma slugs_free_step slugify (table table' : gmap nat Tag) name names :
  slugs_free slugify table (name :: names) →
  table ⊆ table' →
  (∀ j t, table' !! j = Some t → table !! j = None →
     tag_name t = name ∧ tag_slug t = slugify name ∧ unnamed table name) →
  slugs_free slugify table' names.
Proof.
  intros [HA HB] Hsub Hnew.
  apply Forall_cons in HA as [_ HA]. apply Forall_cons in HB as [HBn HB].
  apply Forall_cons in HBn as [_ HBn].
  split.
  - apply Forall_forall. intros n Hn Hno j t Hj.
    destruct (table !! j) as [t'|] eqn:Hj'.
    + assert (t = t') as ->.
      { eapply lookup_weaken in Hj'; [|exact Hsub]. congruence. }
      rewrite Forall_forall in HA.
      by apply (HA n Hn (unnamed_weaken _ _ _ Hsub Hno) j t').
    + destruct (Hnew j t Hj Hj') as (Hname & Hs & Hfree).
      rewrite Hs. intros Heq. apply (Hno j t Hj). rewrite Hname.
      rewrite Forall_forall in HBn.
      apply (HBn n Hn Hfree (unnamed_weaken _ _ _ Hsub Hno)). done.
  - apply Forall_forall. intros n1 Hn1. apply Forall_forall. intros n2 Hn2 Hno1 Hno2.
    rewrite Forall_forall in HB. specialize (HB n1 Hn1).
    apply Forall_cons in HB as [_ HB]. rewrite Forall_forall in HB.
    apply (HB n2 Hn2); by eapply unnamed_weaken.
Qed.

Section Python.
Variable py : Text.Python.

(** The loop over the names, on a table without duplicate names, when
    the names that have no tag can be given their slugs: it ends without
    an exception; the post gains the tags that carry the names,
    normalised, and keeps the others; tags are added to the table for
    names that had none, and for nothing else. *)
Lemma add_tags_unique slugify names pk st post :
  tags_unique (tags st) →
  slugs_free slugify (tags st) (normalise py <$> names) →
  posts st !! pk = Some post →
  ∃ st' post',
    add_tags py slugify names pk st = (st', None)
    ∧ posts st' = <[pk := post']> (posts st)
    ∧ post' = with_tag_set (post_tags post') post
    ∧ (∀ t, t ∈ post_tags post' ↔
            t ∈ post_tags post
            ∨ ∃ name tag, name ∈ names ∧ tags st' !! t = Some tag
                          ∧ tag_name tag = normalise py name)
    ∧ (∀ name, name ∈ names →
            ∃ t tag, tags st' !! t = Some tag
                     ∧ tag_name tag = normalise py name)
    ∧ tags st ⊆ tags st'
    ∧ tags_unique (tags st')
    ∧ (∀ t tag, tags st' !! t = Some tag → tags st !! t = None →
            ∃ name, name ∈ names ∧ tag_name tag = normalise py name
                    ∧ tag_slug tag = slugify (normalise py name)).
Proof.
  revert st post. induction names as [|name names IH]; intros st post Hu Hfree Hp.
  - exists st, post. simpl. split_and!.
    + done.
    + by rewrite insert_id.
    + by rewrite with_tag_set_id.
    + intros t. split; [by left|]. intros [?|(? & ? & []%elem_of_nil & _)]. done.
    + by intros ? ?%elem_of_nil.
    + done.
    + done.
    + intros t tag Ht Hn. by rewrite Ht in Hn.
  - simpl.
    assert (unnamed (tags st) (normalise py name) →
            slug_free (tags st) (slugify (normalise py name))) as Hslug.
    { destruct Hfree as [HA _]. rewrite fmap_cons in HA.
      by apply Forall_cons in HA as [HA _]. }
    destruct (Tag_get_or_create_unique slugify (normalise py name) (tags st) Hu Hslug)
      as (id & tag & table & -> & Hid & Hname & Hsub & Hu1 & Hnew).
    set (post1 := with_tag_set ({[ id ]} ∪ post_tags post) post).
    set (st1 := with_posts _ (with_tags table st)).
    assert (posts st1 = <[pk := post1]> (posts st)) as Hposts1.
    { unfold st1. simpl. by rewrite (PostFacts.alter_lookup_insert _ _ _ _ Hp). }
    assert (posts st1 !! pk = Some post1) as Hp1.
    { rewrite Hposts1. apply lookup_insert_eq. }
    assert (slugs_free slugify (tags st1) (normalise py <$> names)) as Hfree1.
    { rewrite fmap_cons in Hfree. by eapply slugs_free_step. }
    destruct (IH st1 post1 Hu1 Hfree1 Hp1)
      as (st' & post' & -> & Hposts & Hpost' & Htags & Hall & Hsub' & Hu' & Hnew').
    exists st', post'. split_and!.
    + done.
    + by rewrite Hposts, Hposts1, insert_insert_eq.
    + exact Hpost'.
    + intros t. rewrite Htags. unfold post1. simpl.
      rewrite elem_of_union, elem_of_singleton. split.
      * intros [[->|Ht]|(n & tg & Hn & Ht & Htn)].
        -- right. exists name, tag. split_and!; [by left| |done].
           by eapply lookup_weaken.
        -- by left.
        -- right. exists n, tg. split_and!; [by right|done|done].
      * intros [Ht|(n & tg & Hn & Ht & Htn)]; [by left; right|].
        apply elem_of_cons in Hn as [->|Hn].
        -- left; left. apply (Hu' t tg Ht id tag); [|by rewrite Htn, Hname].
           by eapply lookup_weaken.
        -- right. by exists n, tg.
    + intros n [->|Hn]%elem_of_cons; [|by apply Hall].
      exists id, tag. split; [|done]. by eapply lookup_weaken.
    + by etrans.
    + done.
    + intros t tg Ht Hnone. destruct (table !! t) as [tg'|] eqn:Ht'.
      * exists name. split; [by left|].
        assert (tg = tg') as ->.
        { eapply lookup_weaken in Ht'; [|exact Hsub']. congruence. }
        destruct (Hnew t tg' Ht' Hnone) as (? & ? & _). done.
      * destruct (Hnew' t tg Ht Ht') as (n & Hn & Htn). exists n. split; [by right|done].
Qed.

Section Permission.
Variable permission : Method → nat → option nat → bool.
Hypothesis permission_author : ∀ m author, permission m author (Some author) = true.
Variable slugify : string → string.


End Permission.
End Python.


(** On the sample store the post, tagged [rocq], is retagged with
    [" Coq "] and ["ROCQ"]: [coq] is created with key 2, [rocq] is found. *)
Example retag_hello :
  let st' := (PostViewSet.update Text.ascii_range IsAuthorOrReadOnly (λ name, name) PUT
                Samples.blog (Some 7%nat) no_params 1 Samples.retag).2 in
  post_tags <$> posts st' !! 1%nat = Some {[ 1%nat; 2%nat ]}
  ∧ tag_name <$> tags st' = {[ 1%nat := "rocq"; 2%nat := "coq" ]}.
Proof. vm_compute. done. Qed.

(** When the slug of a name that has no tag is in use the store refuses
    the tag: under a [slugify] that gives every name one slug, the
    update ends in the exception that nothing catches. *)
Example retag_clash :
  (PostViewSet.update Text.ascii_range IsAuthorOrReadOnly (λ _, "rocq") PUT
     Samples.blog (Some 7%nat) no_params 1 Samples.retag).1
  = server_error "IntegrityError".
Proof. vm_compute. reflexivity. Qed.

End TagFacts.

Module AccountFacts.
Import Accounts.

(** ** Registration *)

Section Register.
Import RegisterSerializer RegisterView.
Variable py : Text.Python.
Variable fw : Framework.

Lemma field_errors_nil name o checks :
  field_errors py name o checks = [] →
  ∃ v, o = Some v ∧ checks (Text.py_strip py v) = [].
Proof.
  unfold field_errors, required, to_internal_value. destruct o as [v|]; [|done].
  destruct (bool_decide (v = "") || bool_decide (Text.py_strip py v = "")); [done|].
  intros Hnil%fmap_nil_inv. by exists v.
Qed.

Lemma unique_false field value st i u :
  users st !! i = Some u → field u = value → unique field value st = false.
Proof.
  intros Hi Hv. unfold unique. apply bool_decide_eq_false. intros Hall.
  by apply (Hall i u Hi).
Qed.

(** An email that, stripped, a user already has is a validation error. *)
Lemma run_validation_email_in_use st data e i u :
  d_email data = Some e → users st !! i = Some u → email u = Text.py_strip py e →
  run_validation py fw st data ≠ [].
Proof.
  intros He Hi Hu Hnil. unfold run_validation in Hnil.
  apply app_eq_nil in Hnil as [_ Hnil]. apply app_eq_nil in Hnil as [_ Hnil].
  apply app_eq_nil in Hnil as [_ Hnil].
  apply field_errors_nil in Hnil as (v & Hv & Hchecks).
  rewrite He in Hv. injection Hv as <-.
  apply app_eq_nil in Hchecks as [_ Hchecks].
  by rewrite (unique_false email _ st i u Hi Hu) in Hchecks.
Qed.

Lemma post_invalid st data :
  run_validation py fw st data ≠ [] →
  ∃ errors, post py fw st data = (Failure HTTP_400_BAD_REQUEST errors, st).
Proof.
  intros Hne. unfold post. destruct (run_validation py fw st data); [done|]. by eexists.
Qed.

(** C7, as amended: the fields are compared on their stripped values.
    Registration answers a validation error (400) when the email, once
    stripped, is that of an existing user, and when the password and its
    confirmation, once stripped, differ or one of them is missing;
    whenever it fails the store is left as it was, so that no user is
    created; when it succeeds, the body it answers holds the username and
    the email, and no password. *)
Theorem register_validation st data :
  ((∃ e i u, d_email data = Some e ∧ users st !! i = Some u
             ∧ email u = Text.py_strip py e) →
     ∃ errors, post py fw st data = (Failure HTTP_400_BAD_REQUEST errors, st))
  ∧ (Text.py_strip py <$> d_password data ≠ Text.py_strip py <$> d_password2 data →
     ∃ errors, post py fw st data = (Failure HTTP_400_BAD_REQUEST errors, st))
  ∧ (∀ code errors st', post py fw st data = (Failure code errors, st') → st' = st)
  ∧ (∀ code body st', post py fw st data = (Success code body, st') →
       body.*1 = ["username"; "email"]
       ∧ ("password" ∉ body.*1) ∧ ("password2" ∉ body.*1)).
Proof.
  split_and!.
  - intros (e & i & u & He & Hi & Hu). apply post_invalid.
    by eapply run_validation_email_in_use.
  - intros Hne. unfold post.
    destruct (run_validation py fw st data) as [|err errs] eqn:Hv; [|by eexists].
    unfold validate. simpl.
    unfold run_validation in Hv.
    apply app_eq_nil in Hv as [_ Hv]. apply app_eq_nil in Hv as [Hp Hv].
    apply app_eq_nil in Hv as [Hp2 _].
    apply field_errors_nil in Hp as (p & Hp & _).
    apply field_errors_nil in Hp2 as (p2 & Hp2 & _).
    rewrite Hp, Hp2 in *. unfold to_internal_value. simpl in *.
    rewrite decide_True by (intros E; apply Hne; by rewrite E). by eexists.
  - intros code errors st'. unfold post.
    destruct (run_validation py fw st data); [|by intros [= _ _ <-]].
    destruct (validate _); [|by intros [= _ _ <-]].
    destruct (create fw st a) as [[[id user] st1]|e]; [done|]. by intros [= _ _ <-].
  - intros code body st'. unfold post.
    destruct (run_validation py fw st data); [|done].
    destruct (validate _); [|done].
    destruct (create fw st a) as [[[id user] st1]|e]; [|done].
    intros [= _ <- _].
    unfold to_representation. simpl. split; [done|].
    split; intros Hin; repeat (apply elem_of_cons in Hin as [Hin|Hin]; [done|]);
      by apply elem_of_nil in Hin.
Qed.

End Register.

(** The claim as it was stated fails: a password and a confirmation that
    differ by surrounding whitespace are two strings, and the
    registration is carried out, because the serializer's fields strip
    their values before [validate] compares them. *)
Lemma register_trimmed_passwords :
  let data := {| RegisterSerializer.d_username := Some "alice";
                 RegisterSerializer.d_password := Some "Aa12345! ";
                 RegisterSerializer.d_password2 := Some "Aa12345!";
                 RegisterSerializer.d_email := Some "a@x.com" |} in
  RegisterSerializer.d_password data ≠ RegisterSerializer.d_password2 data
  ∧ (RegisterView.post Text.ascii_range Samples.framework Samples.accounts data).1
    = Success HTTP_201_CREATED [("username", "alice"); ("email", "a@x.com")].
Proof. split; [discriminate|]. vm_compute. reflexivity. Qed.

(** ** Profile update *)

Section Profile.
Import UpdateUserProfileSerializer UpdateUserProfileView.

Lemma username_exists_true name st :
  username_exists name st = true ↔ ∃ j other, users st !! j = Some other ∧ username other = name.
Proof.
  unfold username_exists. rewrite bool_decide_eq_true. unfold map_Exists. done.
Qed.

(** C10: a profile update that sends the caller's own current username
    succeeds, without the error of a taken username, and leaves the user
    table, hence the username, as it was; a different non-empty username
    is refused with that error when a user has it, and is stored when
    none has. *)
Theorem update_profile_username st uid user profile vd :
  users st !! uid = Some user →
  profiles st !! uid = Some profile →
  (vd_username vd = Some (username user) →
     ∃ data st', put st (Some uid) vd = (Success HTTP_200_OK data, st')
                 ∧ users st' = users st
                 ∧ pr_username data = username user)
  ∧ (∀ name, vd_username vd = Some name → name ≠ "" → name ≠ username user →
       (∃ j other, users st !! j = Some other ∧ username other = name) →
       put st (Some uid) vd
       = (Failure HTTP_400_BAD_REQUEST [("username", "This username is already taken.")], st))
  ∧ (∀ name, vd_username vd = Some name → name ≠ "" → name ≠ username user →
       (∀ j other, users st !! j = Some other → username other ≠ name) →
       ∃ data st', put st (Some uid) vd = (Success HTTP_200_OK data, st')
                   ∧ users st' = <[uid := with_username name user]> (users st)
                   ∧ pr_username data = name).
Proof.
  intros Hu Hpr. unfold put. rewrite Hu, Hpr. split_and!.
  - intros Hv. unfold update. rewrite Hv.
    rewrite (bool_decide_eq_false_2 (username user ≠ username user)) by (by intros []).
    rewrite andb_false_r. simpl. rewrite Hu, lookup_insert_eq.
    by eexists _, _.
  - intros name Hv Hne Hdiff Htaken. unfold update. rewrite Hv.
    assert (Text.truthy name = true) as ->.
    { unfold Text.truthy. by rewrite decide_False. }
    rewrite bool_decide_eq_true_2 by done. simpl.
    apply username_exists_true in Htaken. by rewrite Htaken.
  - intros name Hv Hne Hdiff Hfree. unfold update. rewrite Hv.
    assert (Text.truthy name = true) as ->.
    { unfold Text.truthy. by rewrite decide_False. }
    rewrite bool_decide_eq_true_2 by done. simpl.
    assert (username_exists name st = false) as ->.
    { destruct (username_exists name st) eqn:E; [|done].
      apply username_exists_true in E as (j & other & Hj & Hn). by destruct (Hfree j other Hj). }
    simpl. rewrite !lookup_insert_eq. by eexists _, _.
Qed.

End Profile.

Lemma update_profile_username_witness :
  users Samples.accounts !! 1%nat = Some Samples.bob
  ∧ ∃ data st',
      UpdateUserProfileView.put Samples.accounts (Some 1%nat) Samples.keep_name
      = (Success HTTP_200_OK data, st')
      ∧ users st' = users Samples.accounts
      ∧ pr_username data = "bob".
Proof.
  assert (users Samples.accounts !! 1%nat = Some Samples.bob) as Hu by reflexivity.
  split; [exact Hu|].
  destruct (update_profile_username Samples.accounts 1 Samples.bob
              {| bio := ""; profile_picture := None |} Samples.keep_name Hu eq_refl)
    as (Hsame & _ & _).
  apply Hsame. reflexivity.
Defined.

(** On the sample store, where [bob] has the email [b@x.com]: registering
    with that email, a space before it, or with a confirmation that
    differs, answers 400. *)
Example register_email_in_use :
  status_code
    (RegisterView.post Text.ascii_range Samples.framework Samples.accounts
       {| RegisterSerializer.d_username := Some "alice";
          RegisterSerializer.d_password := Some "Aa12345!";
          RegisterSerializer.d_password2 := Some "Aa12345!";
          RegisterSerializer.d_email := Some " b@x.com" |}).1 = 400%nat.
Proof. vm_compute. reflexivity. Qed.

Example register_mismatch :
  status_code
    (RegisterView.post Text.ascii_range Samples.framework Samples.accounts
       {| RegisterSerializer.d_username := Some "alice";
          RegisterSerializer.d_password := Some "Aa12345!";
          RegisterSerializer.d_password2 := Some "Aa12345?";
          RegisterSerializer.d_email := Some "a@x.com" |}).1 = 400%nat.
Proof. vm_compute. reflexivity. Qed.

(** The scenario of the specification: registering [alice] answers 201
    with her username and email. *)
Example register_alice :
  (RegisterView.post Text.ascii_range Samples.framework Samples.accounts Samples.alice).1
  = Success HTTP_201_CREATED [("username", "alice"); ("email", "a@x.com")].
Proof. vm_compute. reflexivity. Qed.

End AccountFacts.

(** * Further properties of the post view set *)

Module PostExtras.
Import Blog Blog.PostViewSet Model.

Lemma filter_keys_NoDup {A} (P : nat * A → Prop) `{!∀ x, Decision (P x)}
    (l : list (nat * A)) :
  NoDup (l.*1) → NoDup ((filter P l).*1).
Proof.
  intros Hnd. apply (sublist_NoDup _ (l.*1)); [exact Hnd|].
  apply fmap_sublist, sublist_filter.
Qed.

(** ** Which posts a listing holds *)

Lemma lower_empty s : Text.lower s = "" ↔ s = "".
Proof. by destruct s. Qed.

Lemma given_lower s1 s2 :
  Text.lower s1 = Text.lower s2 →
  (Text.given (Some s1) = None ↔ Text.given (Some s2) = None).
Proof.
  intros Hl. simpl. unfold Text.truthy.
  destruct (decide (s1 = "")) as [->|H1], (decide (s2 = "")) as [->|H2]; try done.
  - exfalso. apply H2. apply lower_empty. by rewrite <- Hl.
  - exfalso. apply H1. apply lower_empty. by rewrite Hl.
Qed.

Lemma matches_search_lower st s1 s2 post :
  Text.lower s1 = Text.lower s2 →
  matches_search st s1 post = matches_search st s2 post.
Proof. intros Hl. unfold matches_search, Text.icontains. by rewrite Hl. Qed.

Lemma filter_none {A} (P : A → Prop) `{!∀ x, Decision (P x)} (l : list A) :
  (∀ x, x ∈ l → ¬ P x) → filter P l = [].
Proof.
  induction l as [|x l IH]; [done|]. intros Hno.
  rewrite filter_cons_False.
  - apply IH. intros y Hy. apply Hno. by right.
  - apply Hno. by left.
Qed.

(** A query parameter that is present but empty counts as absent: the
    listing for [?status=&tag=&search=] is the listing without these
    parameters, for every action and caller. *)
Lemma get_queryset_blank_params st action user author :
  get_queryset st action user
    {| qp_status := Some ""; qp_author := author; qp_tag := Some ""; qp_search := Some "" |}
  = get_queryset st action user
      {| qp_status := None; qp_author := author; qp_tag := None; qp_search := None |}.
Proof. done. Qed.

(** X2: without query parameters the list action holds, for an anonymous
    caller, exactly the published posts, and for an authenticated caller
    exactly the published posts and the caller's own posts of any status;
    with author, tag and search filters but no status, an authenticated
    caller is shown no draft of another user. *)
Theorem default_listing st pk post :
  ((pk, post) ∈ get_queryset st act_list None no_params ↔
     posts st !! pk = Some post ∧ post_status post = "published")
  ∧ (∀ u, (pk, post) ∈ get_queryset st act_list (Some u) no_params ↔
          posts st !! pk = Some post
          ∧ (post_status post = "published" ∨ post_author post = u))
  ∧ (∀ u qp, Text.given (qp_status qp) = None →
          (pk, post) ∈ get_queryset st act_list (Some u) qp →
          post_status post = "published" ∨ post_author post = u).
Proof.
  split_and!.
  - unfold get_queryset, by_status, objects. simpl.
    rewrite list_elem_of_filter, elem_of_map_to_list. simpl. tauto.
  - intros u. unfold get_queryset, objects. simpl.
    rewrite list_elem_of_filter, elem_of_map_to_list. simpl.
    split.
    + intros [[Hp|E] Hl]; (split; [done|]); [by left|right; by injection E].
    + intros [Hl [Hp|E]]; (split; [|done]); [by left|right; by rewrite E].
  - intros u qp Hs. unfold get_queryset. rewrite Hs. simpl. intros Hin.
    PostFacts.queryset_stage; simpl in *;
      match goal with
      | H : _ ∨ _ |- _ => destruct H as [?|E]; [by left|right; by injection E]
      end.
Qed.

(** X3: a non-empty [status] parameter alone selects exactly the posts
    with that status, for every action and for every caller: asking for
    [draft] lists the drafts of all authors. *)
Theorem status_filter_exact st action user s pk post :
  s ≠ "" →
  ((pk, post) ∈ get_queryset st action user
       {| qp_status := Some s; qp_author := None; qp_tag := None; qp_search := None |}
   ↔ posts st !! pk = Some post ∧ post_status post = s).
Proof.
  intros Hs. unfold get_queryset, by_status, objects. simpl.
  unfold Text.truthy. rewrite decide_False by done.
  rewrite list_elem_of_filter, elem_of_map_to_list. simpl. tauto.
Qed.

Lemma status_filter_exact_witness :
  (2%nat, Samples.secret) ∈ get_queryset Samples.blog act_list (Some 7%nat) Samples.drafts
  ∧ post_author Samples.secret ≠ 7%nat.
Proof.
  split; [|discriminate].
  apply (status_filter_exact Samples.blog act_list (Some 7%nat) "draft" 2 Samples.secret).
  - discriminate.
  - split; reflexivity.
Defined.

(** X4: [my_posts] refuses an anonymous caller; for a user it answers only
    posts of the table whose author is that user, and, when pagination is
    off and no filter is given, all of them, drafts included. *)
Theorem my_posts_own pages st u qp :
  (∀ qs page, pages qs = Some page → page ⊆ qs) →
  my_posts pages st None qp = not_authenticated
  ∧ ∃ rows,
      my_posts pages st (Some u) qp = Success HTTP_200_OK rows
      ∧ (∀ pk post, (pk, post) ∈ rows →
            posts st !! pk = Some post ∧ post_author post = u)
      ∧ (qp = no_params → pages (by_author u (objects st)) = None →
         ∀ pk post, (pk, post) ∈ rows ↔ posts st !! pk = Some post ∧ post_author post = u).
Proof.
  intros Hpages. split; [done|]. unfold my_posts.
  set (queryset := by_author u (get_queryset st act_my_posts (Some u) qp)).
  assert (∀ pk post, (pk, post) ∈ queryset →
            posts st !! pk = Some post ∧ post_author post = u) as Hown.
  { intros pk post [Ha Hin]%list_elem_of_filter. split; [|done].
    apply PostFacts.get_queryset_objects in Hin. by apply elem_of_map_to_list in Hin. }
  destruct (pages queryset) as [page|] eqn:Hp.
  - exists page. split; [done|]. split.
    + intros pk post Hin. apply Hown. by eapply Hpages.
    + intros -> Hoff. exfalso. cut (Some page = None); [done|].
      rewrite <- Hp. exact Hoff.
  - exists queryset. split; [done|]. split; [done|].
    intros -> _ pk post. subst queryset. unfold by_author, get_queryset, objects. simpl.
    rewrite list_elem_of_filter, elem_of_map_to_list. simpl. tauto.
Qed.

Lemma my_posts_own_witness :
  ∃ rows,
    my_posts (λ _, None) Samples.blog (Some 8%nat) no_params = Success HTTP_200_OK rows
    ∧ (2%nat, Samples.secret) ∈ rows.
Proof.
  destruct (my_posts_own (λ _, None) Samples.blog 8 no_params) as [_ (rows & Hr & _ & Hall)].
  { intros qs page Hp. discriminate Hp. }
  exists rows. split; [exact Hr|].
  apply Hall; [reflexivity|reflexivity|]. split; reflexivity.
Defined.

(** X5: search ignores letter case: two search strings with the same
    lower-casing select the same posts, whatever the other filters. *)
Theorem search_ignores_case st action user status author tag s1 s2 :
  Text.lower s1 = Text.lower s2 →
  get_queryset st action user
    {| qp_status := status; qp_author := author; qp_tag := tag; qp_search := Some s1 |}
  = get_queryset st action user
      {| qp_status := status; qp_author := author; qp_tag := tag; qp_search := Some s2 |}.
Proof.
  intros Hl. unfold get_queryset. cbv zeta.
  cbn [qp_status qp_author qp_tag qp_search].
  pose proof (given_lower s1 s2 Hl) as Hg. simpl in Hg. simpl.
  destruct (Text.truthy s1), (Text.truthy s2); try done.
  - f_equal. apply list_filter_iff. intros r.
    by rewrite (matches_search_lower st s1 s2 r.2 Hl).
  - by destruct Hg as [_ Hg]; specialize (Hg eq_refl).
  - by destruct Hg as [Hg _]; specialize (Hg eq_refl).
Qed.

Lemma search_ignores_case_witness :
  get_queryset Samples.blog act_list None
    {| qp_status := None; qp_author := None; qp_tag := None; qp_search := Some "HELLO" |}
  = get_queryset Samples.blog act_list None
      {| qp_status := None; qp_author := None; qp_tag := None; qp_search := Some "hello" |}.
Proof.
  apply (search_ignores_case Samples.blog act_list None None None None "HELLO" "hello").
  reflexivity.
Defined.

(** X6: [trending] under a [status] parameter other than [published] is
    empty: the parameter is applied before the published filter of the
    action. *)
Theorem trending_other_status st user qp s :
  Text.given (qp_status qp) = Some s → s ≠ "published" →
  trending st user qp = [].
Proof.
  intros Hs Hne. unfold trending, by_status.
  rewrite (filter_none (λ r : nat * Post, post_status r.2 = "published")); [done|].
  intros r Hr Hpub. apply Hne. rewrite <- Hpub. symmetry.
  by eapply PostFacts.get_queryset_status.
Qed.

Lemma trending_other_status_witness : trending Samples.blog None Samples.drafts = [].
Proof.
  apply (trending_other_status Samples.blog None Samples.drafts "draft").
  - reflexivity.
  - discriminate.
Defined.

(** ** Retrievals *)

Lemma get_object_Some st action user qp pk post :
  get_object st action user qp pk = Some post → posts st !! pk = Some post.
Proof.
  unfold get_object. intros Hin%elem_of_list_to_map_2.
  apply PostFacts.get_queryset_objects in Hin. by apply elem_of_map_to_list in Hin.
Qed.

Lemma with_posts_id st pk post :
  posts st !! pk = Some post → with_posts (<[pk := post]> (posts st)) st = st.
Proof. intros Hp. destruct st. unfold with_posts. simpl in *. by rewrite insert_id. Qed.

Section Retrievals.
Variable permission : Method → nat → option nat → bool.
Hypothesis permission_read : ∀ author user, permission GET author user = true.

Lemma retrieve_store st user pk post :
  posts st !! pk = Some post →
  (retrieve permission st user no_params pk).2
  = with_posts (<[pk := with_views_count (post_views_count post + 1) post]> (posts st)) st.
Proof.
  intros Hp. unfold retrieve.
  rewrite PostFacts.get_object_no_params by done. rewrite Hp.
  rewrite permission_read. cbn [negb]. cbv zeta.
  rewrite (PostFacts.alter_lookup_insert _ _ _ _ Hp).
  by destruct (PostDetailSerializer.to_representation _ _ _ _).
Qed.

(** X7: every retrieval counts, whoever the callers are and whether they
    come back: after a run of retrievals of an existing post the view
    counter has grown by the length of the run, and nothing else in the
    store has changed. *)
Theorem retrievals_count st pk post callers :
  posts st !! pk = Some post →
  retrievals permission pk callers st
  = with_posts
      (<[pk := with_views_count (post_views_count post + Z.of_nat (length callers)) post]>
         (posts st)) st.
Proof.
  revert st post. induction callers as [|user callers IH]; intros st post Hp.
  - simpl. rewrite Z.add_0_r. symmetry. apply with_posts_id.
    rewrite Hp. by destruct post.
  - simpl. rewrite (retrieve_store st user pk post Hp).
    set (post1 := with_views_count (post_views_count post + 1) post).
    rewrite (IH _ post1) by apply lookup_insert_eq.
    destruct st. unfold with_posts. simpl. rewrite insert_insert_eq.
    do 2 f_equal. unfold post1, with_views_count. simpl. f_equal. lia.
Qed.

End Retrievals.

Lemma retrievals_count_witness :
  retrievals IsAuthorOrReadOnly 1 [None; Some 7%nat; Some 7%nat] Samples.blog
  = with_posts (<[1%nat := with_views_count (3 + 3) Samples.hello]> (posts Samples.blog))
      Samples.blog.
Proof.
  apply (retrievals_count IsAuthorOrReadOnly PermissionFacts.IsAuthorOrReadOnly_read
           Samples.blog 1 Samples.hello [None; Some 7%nat; Some 7%nat]).
  reflexivity.
Defined.

(** ** Likes and bookmarks *)

(** X8: a like call on a post touches nothing but that post's counter and
    the caller's Like row for it: the tags, comments, bookmarks and comment
    likes, the other posts, the other fields of the post and the other
    Like rows are as before; and when it answers an error the store is
    unchanged. *)
Theorem like_frame st user qp pk :
  tags (like st user qp pk).2 = tags st
  ∧ comments (like st user qp pk).2 = comments st
  ∧ bookmarks (like st user qp pk).2 = bookmarks st
  ∧ comment_likes (like st user qp pk).2 = comment_likes st
  ∧ (∀ j, j ≠ pk → posts (like st user qp pk).2 !! j = posts st !! j)
  ∧ (∀ post', posts (like st user qp pk).2 !! pk = Some post' →
       ∃ post, posts st !! pk = Some post
               ∧ post' = with_likes_count (post_likes_count post') post)
  ∧ (∀ row, Some row ≠ pair pk <$> user →
       (row ∈ likes (like st user qp pk).2 ↔ row ∈ likes st))
  ∧ (∀ code errors, (like st user qp pk).1 = Failure code errors →
       (like st user qp pk).2 = st).
Proof.
  assert (∀ post', posts st !! pk = Some post' →
            ∃ post, posts st !! pk = Some post
                    ∧ post' = with_likes_count (post_likes_count post') post) as Hsame.
  { intros post' Hp. exists post'. split; [done|]. by destruct post'. }
  unfold like. destruct user as [u|]; [|by split_and!].
  destruct (get_object st act_like (Some u) qp pk) as [post|] eqn:Hg; [|by split_and!].
  unfold get_or_create. case_decide as Hin; simpl.
  - split_and!; try done.
    + intros j Hj. by rewrite lookup_alter_ne.
    + intros post'. rewrite lookup_alter_eq.
      destruct (posts st !! pk) as [p|]; [|done]. simpl. intros [= <-].
      exists p. split; [done|]. by destruct p.
    + intros row Hrow. rewrite elem_of_difference, elem_of_singleton.
      split; [tauto|]. intros Hr. split; [done|]. intros ->. by apply Hrow.
  - split_and!; try done.
    + intros j Hj. by rewrite lookup_alter_ne.
    + intros post'. rewrite lookup_alter_eq.
      destruct (posts st !! pk) as [p|]; [|done]. simpl. intros [= <-].
      exists p. split; [done|]. by destruct p.
    + intros row Hrow. rewrite elem_of_union, elem_of_singleton.
      split; [|tauto]. intros [->|Hr]; [|done]. by destruct Hrow.
Qed.

Lemma like_rows_other (L : gset (nat * nat)) (pk pk' u : nat) :
  pk ≠ pk' →
  filter (λ row : nat * nat, row.1 = pk') ({[ (pk, u) ]} ∪ L)
  = filter (λ row : nat * nat, row.1 = pk') L
  ∧ filter (λ row : nat * nat, row.1 = pk') (L ∖ {[ (pk, u) ]})
    = filter (λ row : nat * nat, row.1 = pk') L.
Proof.
  intros Hne. split; apply set_eq; intros [a b];
    rewrite !elem_of_filter, ?elem_of_union, ?elem_of_difference, elem_of_singleton;
    simpl; split.
  - intros [-> [[= -> ->]|Hin]]; [done|by split].
  - intros [-> Hin]. split; [done|by right].
  - intros [-> [Hin _]]. by split.
  - intros [-> Hin]. split; [done|]. split; [done|]. intros [= -> ->]. done.
Qed.

(** X9: a like call, by any caller on any post and under any query
    parameters, keeps every post counter equal to the number of Like rows
    of its post. *)
Theorem like_keeps_counters st user qp pk :
  all_likes_consistent st → all_likes_consistent (like st user qp pk).2.
Proof.
  intros Hc. unfold like. destruct user as [u|]; [|done].
  destruct (get_object st act_like (Some u) qp pk) as [post|] eqn:Hg; [|done].
  apply get_object_Some in Hg. pose proof (Hc pk post Hg) as Hn.
  unfold get_or_create.
  case_decide as Hin; unfold all_likes_consistent, like_rows; simpl; intros pk' post'.
  - destruct (decide (pk = pk')) as [<-|Hne].
    + rewrite lookup_alter_eq, Hg. simpl. intros [= <-]. simpl.
      pose proof (PostFacts.like_rows_deleted _ _ _ Hin). unfold like_rows in *. lia.
    + rewrite lookup_alter_ne by done. intros Hp'. rewrite (Hc pk' post' Hp').
      unfold like_rows. by rewrite (proj2 (like_rows_other _ _ _ u Hne)).
  - destruct (decide (pk = pk')) as [<-|Hne].
    + rewrite lookup_alter_eq, Hg. simpl. intros [= <-]. simpl.
      pose proof (PostFacts.like_rows_new _ _ _ Hin). unfold like_rows in *. lia.
    + rewrite lookup_alter_ne by done. intros Hp'. rewrite (Hc pk' post' Hp').
      unfold like_rows. by rewrite (proj1 (like_rows_other _ _ _ u Hne)).
Qed.

Lemma like_keeps_counters_witness :
  all_likes_consistent Samples.blog
  ∧ all_likes_consistent (like Samples.blog (Some 8%nat) no_params 1).2.
Proof.
  assert (all_likes_consistent Samples.blog) as Hc.
  { intros pk post Hp. unfold Samples.blog in Hp. simpl in Hp.
    apply lookup_insert_Some in Hp as [[<- <-]|[_ Hp]].
    - vm_compute. reflexivity.
    - apply lookup_singleton_Some in Hp as [<- <-]. vm_compute. reflexivity. }
  split; [exact Hc|].
  exact (like_keeps_counters Samples.blog (Some 8%nat) no_params 1 Hc).
Defined.

Lemma with_bookmarks_id st : with_bookmarks (bookmarks st) st = st.
Proof. by destruct st. Qed.

Lemma bookmark_new st u qp pk post :
  get_object st act_bookmark (Some u) qp pk = Some post → (pk, u) ∉ bookmarks st →
  bookmark st (Some u) qp pk
  = (Success HTTP_200_OK "bookmarked", with_bookmarks ({[ (pk, u) ]} ∪ bookmarks st) st).
Proof.
  intros Hg Hin. unfold bookmark. rewrite Hg. unfold get_or_create.
  by rewrite decide_False.
Qed.

Lemma bookmark_existing st u qp pk post :
  get_object st act_bookmark (Some u) qp pk = Some post → (pk, u) ∈ bookmarks st →
  bookmark st (Some u) qp pk
  = (Success HTTP_200_OK "unbookmarked", with_bookmarks (bookmarks st ∖ {[ (pk, u) ]}) st).
Proof.
  intros Hg Hin. unfold bookmark. rewrite Hg. unfold get_or_create.
  by rewrite decide_True.
Qed.

(** X10: a bookmark call changes only the Bookmark table, never a post or
    a counter; on a post the caller can see it answers [bookmarked] when
    the caller had no bookmark on it and [unbookmarked] otherwise; and two
    calls in a row by the same caller leave the store as it was. *)
Theorem bookmark_toggle st u qp pk :
  posts (bookmark st (Some u) qp pk).2 = posts st
  ∧ likes (bookmark st (Some u) qp pk).2 = likes st
  ∧ comments (bookmark st (Some u) qp pk).2 = comments st
  ∧ (∀ post, get_object st act_bookmark (Some u) qp pk = Some post →
       (bookmark st (Some u) qp pk).1
       = Success HTTP_200_OK
           (if decide ((pk, u) ∈ bookmarks st) then "unbookmarked" else "bookmarked")
       ∧ ((pk, u) ∈ bookmarks (bookmark st (Some u) qp pk).2 ↔ (pk, u) ∉ bookmarks st))
  ∧ (bookmark (bookmark st (Some u) qp pk).2 (Some u) qp pk).2 = st.
Proof.
  destruct (get_object st act_bookmark (Some u) qp pk) as [post|] eqn:Hg; cycle 1.
  { unfold bookmark. rewrite Hg. simpl. rewrite Hg. by split_and!. }
  destruct (decide ((pk, u) ∈ bookmarks st)) as [Hin|Hin].
  - rewrite (bookmark_existing _ _ _ _ _ Hg Hin). cbn [fst snd]. split_and!; try done.
    + intros ? _. split; [done|]. simpl.
      rewrite elem_of_difference, elem_of_singleton. tauto.
    + erewrite bookmark_new; [|exact Hg|]; simpl.
      * destruct st as [ps ts cs ls bs cls]. unfold with_bookmarks. simpl in *. f_equal.
        apply set_eq. intros x.
        rewrite elem_of_union, elem_of_difference, elem_of_singleton.
        destruct (decide (x = (pk, u))) as [->|]; tauto.
      * rewrite elem_of_difference, elem_of_singleton. tauto.
  - rewrite (bookmark_new _ _ _ _ _ Hg Hin). cbn [fst snd]. split_and!; try done.
    + intros ? _. split; [done|]. simpl.
      rewrite elem_of_union, elem_of_singleton. tauto.
    + erewrite bookmark_existing; [|exact Hg|]; simpl.
      * destruct st as [ps ts cs ls bs cls]. unfold with_bookmarks. simpl in *. f_equal.
        apply set_eq. intros x.
        rewrite elem_of_difference, elem_of_union, elem_of_singleton.
        split; [by intros [[->|?] ?]|]. intros Hx. split; [by right|]. by intros ->.
      * rewrite elem_of_union, elem_of_singleton. by left.
Qed.

(** X11: the bookmark list of a user holds exactly the Bookmark rows of
    that user, each once; it is refused to an anonymous caller; a post the
    user has just bookmarked is in it, and a bookmark call by another user
    does not change it. *)
Theorem bookmarks_own st u :
  BookmarkViewSet.get_queryset st None = not_authenticated
  ∧ ∃ rows,
      BookmarkViewSet.get_queryset st (Some u) = Success HTTP_200_OK rows
      ∧ NoDup rows
      ∧ (∀ row, row ∈ rows ↔ row ∈ bookmarks st ∧ row.2 = u)
      ∧ (∀ qp pk post,
           get_object st act_bookmark (Some u) qp pk = Some post →
           (pk, u) ∉ bookmarks st →
           ∃ rows', BookmarkViewSet.get_queryset (bookmark st (Some u) qp pk).2 (Some u)
                    = Success HTTP_200_OK rows'
                    ∧ (pk, u) ∈ rows')
      ∧ (∀ v qp pk, v ≠ u →
           BookmarkViewSet.get_queryset (bookmark st (Some v) qp pk).2 (Some u)
           = Success HTTP_200_OK rows).
Proof.
  split; [done|]. eexists. split; [done|]. split_and!.
  - apply NoDup_elements.
  - intros row. rewrite elem_of_elements, elem_of_filter. tauto.
  - intros qp pk post Hg Hin. rewrite (bookmark_new _ _ _ _ _ Hg Hin). simpl.
    eexists. split; [done|].
    rewrite elem_of_elements, elem_of_filter, elem_of_union, elem_of_singleton.
    split; [done|by left].
  - intros v qp pk Hv. unfold BookmarkViewSet.get_queryset. do 2 f_equal.
    apply set_eq. intros [a b]. rewrite !elem_of_filter. simpl.
    unfold bookmark. destruct (get_object st act_bookmark (Some v) qp pk); [|done].
    unfold get_or_create. case_decide; simpl.
    + rewrite elem_of_difference, elem_of_singleton.
      split; [tauto|]. intros [-> Hin]. split; [done|]. split; [done|]. by intros [= _ ->].
    + rewrite elem_of_union, elem_of_singleton.
      split; [|tauto]. intros [-> [[= _ ->]|Hin]]; [done|by split].
Qed.

End PostExtras.

(** * Further properties of the comment view set *)

Module CommentExtras.
Import Blog Blog.CommentSerializer Blog.CommentViewSet Model.

Lemma fresh_list_gt (xs : list nat) x : x ∈ xs → (x < fresh xs)%nat.
Proof.
  change (fresh xs) with (foldr (Nat.max ∘ S) 0%nat xs).
  induction 1 as [x xs|x y xs _ IH]; simpl; unfold compose in *; lia.
Qed.

(** The key of a new row is above every key in use. *)
Lemma fresh_gt (X : gset nat) x : x ∈ X → (x < fresh X)%nat.
Proof.
  intros Hx. change (fresh X) with (fresh (elements X)).
  apply fresh_list_gt. by apply elem_of_elements.
Qed.

Lemma fresh_key_gt {A} (table : gmap nat A) x :
  is_Some (table !! x) → (x < fresh (dom table))%nat.
Proof. intros Hx. apply fresh_gt. by apply elem_of_dom. Qed.

Lemma fresh_key_None {A} (table : gmap nat A) : table !! fresh (dom table) = None.
Proof. apply not_elem_of_dom, is_fresh. Qed.

(** ** Refusals *)

(** X12: when a comment handler refuses a request (401, 403, 404 or 400)
    it leaves the store as it was: this holds for [update], [destroy],
    [reply], [create] and [like]. *)
Theorem comment_refusals py permission method st user pk data validated errors :
  (∀ code body, (update py permission method st user pk data).1 = Failure code body →
       code ≠ HTTP_500_INTERNAL_SERVER_ERROR →
       (update py permission method st user pk data).2 = st)
  ∧ (∀ code body, (destroy permission st user pk).1 = Failure code body →
       (destroy permission st user pk).2 = st)
  ∧ (∀ code body, (reply st user pk validated errors).1 = Failure code body →
       code ≠ HTTP_500_INTERNAL_SERVER_ERROR →
       (reply st user pk validated errors).2 = st)
  ∧ (∀ code body, (create st user validated errors).1 = Failure code body →
       code ≠ HTTP_500_INTERNAL_SERVER_ERROR →
       (create st user validated errors).2 = st)
  ∧ (∀ code body, (like st user pk).1 = Failure code body → (like st user pk).2 = st).
Proof.
  split_and!; intros code body.
  - unfold update. destruct user as [u|]; [|done].
    destruct (get_object st pk) as [c|]; [|done].
    destruct (negb (permission method (comment_author c) (Some u))); [done|].
    case_decide; [done|].
    destruct (Body.get data "content" (JString "")) as [value|e]; [|done].
    destruct (Body.strip py value) as [content|e]; [|done].
    destruct (negb (Text.truthy _)); [done|]. cbv zeta.
    destruct (to_representation _ _ _ _ _); [done|].
    simpl. by intros [= <- _].
  - unfold destroy. destruct user as [u|]; [|done].
    destruct (get_object st pk) as [c|]; [|done].
    destruct (negb (permission DELETE (comment_author c) (Some u))); [done|].
    by case_decide.
  - unfold reply. destruct user as [u|]; [|done].
    destruct (get_object st pk) as [c|]; [|done].
    destruct validated as [vd|]; [|done]. unfold save. cbv zeta.
    destruct (to_representation _ _ _ _ _); [done|].
    simpl. by intros [= <- _].
  - unfold create. destruct user as [u|]; [|done].
    destruct validated as [vd|]; [|done]. unfold save. cbv zeta.
    destruct (to_representation _ _ _ _ _); [done|].
    simpl. by intros [= <- _].
  - unfold like. destruct user as [u|]; [|done].
    destruct (get_object st pk) as [c|]; [|done].
    unfold PostViewSet.get_or_create. by case_decide.
Qed.

(** ** Deleting keeps the forest *)

Lemma delete_lookup_Some st pk x c :
  comments (delete pk st) !! x = Some c ↔
  comments st !! x = Some c ∧ ¬ in_subtree (comments st) pk x.
Proof.
  unfold delete. simpl. rewrite map_lookup_filter_Some. simpl.
  by rewrite CommentFacts.delete_collected.
Qed.

Lemma destroy_store permission st user pk :
  (destroy permission st user pk).2 = st
  ∨ (destroy permission st user pk).2 = delete pk st.
Proof.
  unfold destroy. destruct user as [u|]; [|by left].
  destruct (get_object st pk) as [c|]; [|by left].
  destruct (negb (permission DELETE (comment_author c) (Some u))); [by left|].
  case_decide; [by left|by right].
Qed.

(** X13: deleting never leaves an orphan: when every parent that a comment
    names exists, and parents have smaller keys than their replies, this
    is still so after any [destroy] call, whatever it answers. *)
Theorem destroy_keeps_forest permission st user pk :
  refs_closed (comments st) → parents_first (comments st) →
  refs_closed (comments (destroy permission st user pk).2)
  ∧ parents_first (comments (destroy permission st user pk).2).
Proof.
  intros Hrc Hpf. destruct (destroy_store permission st user pk) as [->| ->]; [done|].
  split.
  - intros x c [Hx Hnot]%delete_lookup_Some p Hp.
    destruct (Hrc x c Hx p Hp) as [cp Hcp]. exists cp.
    apply delete_lookup_Some. split; [done|].
    intros Hsub. apply Hnot. by eapply subtree_reply.
  - intros x c [Hx _]%delete_lookup_Some p Hp. by apply (Hpf x c Hx).
Qed.

Lemma destroy_keeps_forest_witness :
  refs_closed (comments Samples.blog) ∧ parents_first (comments Samples.blog)
  ∧ refs_closed (comments (destroy IsAuthorOrReadOnly Samples.blog (Some 8%nat) 2).2)
  ∧ parents_first (comments (destroy IsAuthorOrReadOnly Samples.blog (Some 8%nat) 2).2).
Proof.
  assert (refs_closed (comments Samples.blog)) as Hrc.
  { apply (bool_decide_unpack _). vm_compute. exact I. }
  assert (parents_first (comments Samples.blog)) as Hpf.
  { apply (bool_decide_unpack _). vm_compute. exact I. }
  split; [exact Hrc|]. split; [exact Hpf|].
  exact (destroy_keeps_forest IsAuthorOrReadOnly Samples.blog (Some 8%nat) 2 Hrc Hpf).
Defined.

Section Permission.
Variable permission : Method → nat → option nat → bool.
Hypothesis permission_author : ∀ m author, permission m author (Some author) = true.

Lemma destroy_author st pk c :
  comments st !! pk = Some c →
  destroy permission st (Some (comment_author c)) pk
  = (Success HTTP_204_NO_CONTENT (), delete pk st).
Proof.
  intros Hc. unfold destroy, get_object. rewrite Hc, permission_author. cbn [negb].
  by rewrite decide_False by (by intros []).
Qed.

(** X14: once its author has deleted a comment, the comment and every
    reply below it are gone for every handler and every caller: [update],
    [destroy], [reply] and [like] on any of them answer 404. *)
Theorem destroyed_gone st pk c x :
  comments st !! pk = Some c →
  in_subtree (comments st) pk x →
  ∀ py caller method data validated errors,
    (update py permission method (destroy permission st (Some (comment_author c)) pk).2
       (Some caller) x data).1 = not_found
    ∧ (destroy permission (destroy permission st (Some (comment_author c)) pk).2
         (Some caller) x).1 = not_found
    ∧ (reply (destroy permission st (Some (comment_author c)) pk).2
         (Some caller) x validated errors).1 = not_found
    ∧ (like (destroy permission st (Some (comment_author c)) pk).2 (Some caller) x).1
      = not_found.
Proof.
  intros Hc Hsub py caller method data validated errors.
  rewrite (destroy_author st pk c Hc). cbn [snd].
  pose proof (CommentFacts.delete_subtree st pk x Hsub) as Hgone.
  unfold update, destroy, reply, like, get_object. by rewrite Hgone.
Qed.

End Permission.

Lemma destroyed_gone_witness :
  (destroy IsAuthorOrReadOnly
     (destroy IsAuthorOrReadOnly Samples.blog (Some 7%nat) 1).2 (Some 8%nat) 2).1
  = not_found.
Proof.
  assert (comments Samples.blog !! 1%nat = Some (Samples.comment "first" 7 None))
    as Hc by reflexivity.
  assert (in_subtree (comments Samples.blog) 1 2) as Hsub.
  { eapply subtree_reply; [reflexivity|reflexivity|constructor]. }
  exact (proj1 (proj2 (destroyed_gone IsAuthorOrReadOnly
                         PermissionFacts.IsAuthorOrReadOnly_author Samples.blog 1 _ 2 Hc Hsub
                         Text.ascii_range 8%nat PUT JNull None []))).
Defined.

(** ** Replies *)

Lemma next_id_gt st x : is_Some (comments st !! x) → (x < next_id st)%nat.
Proof. intros Hx. pose proof (fresh_key_gt _ _ Hx). unfold next_id. lia. Qed.

Lemma next_id_None st : comments st !! next_id st = None.
Proof.
  destruct (comments st !! next_id st) eqn:Hn; [|done].
  assert (next_id st < next_id st)%nat by (apply next_id_gt; eauto). lia.
Qed.

Lemma next_id_seq st : (comment_seq st ≤ next_id st)%nat.
Proof. unfold next_id. lia. Qed.

Lemma reply_store st u pk parent vd errors :
  comments st !! pk = Some parent →
  (reply st (Some u) pk (Some vd) errors).2
  = with_comment_seq (S (next_id st))
      (with_comments (<[next_id st := reply_row st u pk parent vd]> (comments st)) st).
Proof.
  intros Hp. unfold reply, get_object. rewrite Hp. unfold save. cbv zeta.
  by destruct (to_representation _ _ _ _ _).
Qed.

Lemma new_row_parents_first table id c :
  parents_first table → table !! id = None →
  (∀ p, comment_parent c = Some p → (p < id)%nat) →
  parents_first (<[id := c]> table).
Proof.
  intros Hpf Hid Hc x cx. destruct (decide (id = x)) as [<-|Hne].
  - rewrite lookup_insert_eq. by intros [= <-].
  - rewrite lookup_insert_ne by done. apply Hpf.
Qed.

(** A row added above all keys has no reply yet. *)
Lemma new_row_no_replies st c :
  parents_first (comments st) →
  (∀ p, comment_parent c = Some p → (p < next_id st)%nat) →
  replies
    (with_comment_seq (S (next_id st))
       (with_comments (<[next_id st := c]> (comments st)) st))
    (next_id st) = [].
Proof.
  intros Hpf Hc. pose proof (next_id_gt st) as Hgt. set (id := next_id st) in *.
  unfold replies. apply PostExtras.filter_none. intros [x cx] Hin Hp. simpl in *.
  apply elem_of_map_to_list in Hin.
  destruct (decide (id = x)) as [<-|Hne].
  - rewrite lookup_insert_eq in Hin. injection Hin as <-.
    specialize (Hc id Hp). lia.
  - rewrite lookup_insert_ne in Hin by done.
    pose proof (Hpf x cx Hin id Hp).
    assert (x < id)%nat by (apply Hgt; eauto). lia.
Qed.

(** A new row keeps the keys below the sequence. *)
Lemma new_row_keys st c :
  keys_handed_out st →
  keys_handed_out
    (with_comment_seq (S (next_id st))
       (with_comments (<[next_id st := c]> (comments st)) st)).
Proof.
  intros [Hk Hl]. pose proof (next_id_seq st). split; simpl.
  - intros x cx. destruct (decide (next_id st = x)) as [<-|Hne].
    + intros _. lia.
    + rewrite lookup_insert_ne by done. intros Hx. specialize (Hk x cx Hx).
      simpl in Hk. lia.
  - intros row Hrow. specialize (Hl row Hrow). simpl in Hl. lia.
Qed.

(** X15: a reply is stored below the comment it answers and on the post of
    that comment, with the caller as author and a counter of zero,
    whatever post and parent the request body names.  Its key is the next
    of the sequence: not a key handed out before, not in the table, and
    above the key of the parent; when the keys of the store come from the
    sequence they still do, and no CommentLike row names the new key.  On
    a comment forest the answer is 201 with the new comment, which has no
    replies, which the caller may edit and, under the same condition, has
    not liked. *)
Theorem reply_effect st u pk parent vd errors :
  comments st !! pk = Some parent →
  comments st !! next_id st = None
  ∧ (pk < next_id st)%nat
  ∧ (comment_seq st ≤ next_id st)%nat
  ∧ (reply st (Some u) pk (Some vd) errors).2
    = with_comment_seq (S (next_id st))
        (with_comments
           (<[next_id st :=
                {| comment_content := cvd_content vd;
                   comment_author := u;
                   comment_post := comment_post parent;
                   comment_parent := Some pk;
                   comment_likes_count := 0 |}]> (comments st)) st)
  ∧ in_subtree (comments (reply st (Some u) pk (Some vd) errors).2) pk (next_id st)
  ∧ (keys_handed_out st →
     next_id st = comment_seq st
     ∧ (∀ v, (next_id st, v) ∉ comment_likes st)
     ∧ keys_handed_out (reply st (Some u) pk (Some vd) errors).2)
  ∧ (parents_first (comments st) →
     ∃ data, (reply st (Some u) pk (Some vd) errors).1 = Success HTTP_201_CREATED data
             ∧ cd_id data = next_id st
             ∧ cd_parent data = Some pk
             ∧ cd_post data = comment_post parent
             ∧ cd_author data = u
             ∧ cd_content data = cvd_content vd
             ∧ cd_replies data = []
             ∧ cd_can_edit data = true
             ∧ cd_likes_count data = 0
             ∧ (keys_handed_out st → cd_is_liked data = false)).
Proof.
  intros Hp.
  assert (pk < next_id st)%nat as Hlt by (apply next_id_gt; eauto).
  assert (keys_handed_out st → ∀ v, (next_id st, v) ∉ comment_likes st) as Hfresh.
  { intros [_ Hl] v Hin. specialize (Hl _ Hin). simpl in Hl.
    pose proof (next_id_seq st). lia. }
  split; [apply next_id_None|]. split; [done|]. split; [apply next_id_seq|].
  split; [by apply reply_store|]. split; [|split].
  - rewrite (reply_store st u pk parent vd errors Hp). simpl.
    eapply subtree_reply; [apply lookup_insert_eq|done|constructor].
  - intros Hk. split_and!.
    + destruct Hk as [Hk _]. unfold next_id.
      destruct (decide (fresh (dom (comments st)) ≤ comment_seq st)%nat); [lia|].
      exfalso.
      assert (∀ X : gset nat, set_Forall (λ x, (x < comment_seq st)%nat) X →
                (fresh X ≤ comment_seq st)%nat) as Hle.
      { intros X. change (fresh X) with (fresh (elements X)).
        intros HX. assert (Forall (λ x, (x < comment_seq st)%nat) (elements X)) as HF.
        { apply Forall_forall. intros x Hx. apply HX. by apply elem_of_elements. }
        change (fresh (elements X)) with (foldr (Nat.max ∘ S) 0%nat (elements X)).
        induction HF as [|x l Hx _ IH]; simpl; lia. }
      specialize (Hle (dom (comments st))).
      assert (fresh (dom (comments st)) ≤ comment_seq st)%nat; [|lia].
      apply Hle. intros x [c Hx]%elem_of_dom. exact (Hk x c Hx).
    + by apply Hfresh.
    + rewrite (reply_store st u pk parent vd errors Hp). by apply new_row_keys.
  - intros Hpf. unfold reply, get_object. rewrite Hp. unfold save. cbv zeta.
    unfold depth_bound. cbn [to_representation].
    rewrite (new_row_no_replies st); [|done|by intros ? [= <-]].
    simpl. eexists. split; [done|]. simpl.
    unfold get_can_edit. simpl. rewrite bool_decide_eq_true_2 by done.
    split_and!; try done. intros Hk. apply bool_decide_eq_false. by apply Hfresh.
Qed.

Lemma reply_effect_witness :
  ∃ data,
    (reply Samples.blog (Some 8%nat) 4
       (Some {| cvd_content := "thanks"; cvd_post := 2; cvd_parent := None |}) []).1
    = Success HTTP_201_CREATED data
    ∧ cd_id data = 5%nat ∧ cd_parent data = Some 4%nat ∧ cd_post data = 1%nat.
Proof.
  destruct (reply_effect Samples.blog 8 4 (Samples.comment "second" 7 None)
              {| cvd_content := "thanks"; cvd_post := 2; cvd_parent := None |} [] eq_refl)
    as (_ & _ & _ & _ & _ & _ & Hok).
  destruct Hok as (data & Hd & Hid & Hpar & Hpost & _).
  { apply (bool_decide_unpack _). vm_compute. exact I. }
  exists data. split; [exact Hd|]. split; [|by split].
  rewrite Hid. vm_compute. reflexivity.
Defined.

(** The key of a deleted comment is not given again: on the sample store,
    after user 8 has liked comment 4 and its author has deleted it, a
    reply to comment 1 gets the key 5, and user 8 has not liked it. *)
Example reply_after_destroy :
  let st1 := (like Samples.blog (Some 8%nat) 4).2 in
  let st2 := (destroy IsAuthorOrReadOnly st1 (Some 7%nat) 4).2 in
  (λ data, (cd_id data, cd_is_liked data)) <$>
    match (reply st2 (Some 8%nat) 1
             (Some {| cvd_content := "again"; cvd_post := 1; cvd_parent := None |}) []).1
    with Success _ data => Some data | Failure _ _ => None end
  = Some (5%nat, false).
Proof. vm_compute. reflexivity. Qed.

Lemma reply_store_cases st user pk validated errors :
  (reply st user pk validated errors).2 = st
  ∨ ∃ u parent vd, user = Some u ∧ comments st !! pk = Some parent
                   ∧ validated = Some vd
                   ∧ (reply st user pk validated errors).2
                     = with_comment_seq (S (next_id st))
                         (with_comments
                            (<[next_id st := reply_row st u pk parent vd]> (comments st))
                            st).
Proof.
  destruct user as [u|]; [|by left].
  destruct (comments st !! pk) as [parent|] eqn:Hp; cycle 1.
  { left. unfold reply, get_object. by rewrite Hp. }
  destruct validated as [vd|]; cycle 1.
  { left. unfold reply, get_object. by rewrite Hp. }
  right. exists u, parent, vd. split_and!; try done. by apply reply_store.
Qed.

(** X16: replies keep the forest: when parents have smaller keys than
    their replies and every parent named exists, this is still so after
    any [reply] call, whatever it answers. *)
Theorem reply_keeps_forest st user pk validated errors :
  parents_first (comments st) → refs_closed (comments st) →
  parents_first (comments (reply st user pk validated errors).2)
  ∧ refs_closed (comments (reply st user pk validated errors).2).
Proof.
  intros Hpf Hrc.
  destruct (reply_store_cases st user pk validated errors)
    as [->|(u & parent & vd & -> & Hp & -> & ->)]; [done|]. simpl. split.
  - apply new_row_parents_first; [done|apply next_id_None|].
    intros p [= <-]. apply next_id_gt. eauto.
  - intros x cx. destruct (decide (next_id st = x)) as [<-|Hne].
    + rewrite lookup_insert_eq. intros [= <-] p [= <-].
      rewrite lookup_insert_ne; [eauto|].
      intros Heq. pose proof (next_id_None st) as Hn.
      rewrite Heq, Hp in Hn. done.
    + rewrite lookup_insert_ne by done. intros Hx p Hpx.
      destruct (Hrc x cx Hx p Hpx) as [cp Hcp].
      exists cp. rewrite lookup_insert_ne; [done|].
      intros Heq. pose proof (next_id_None st) as Hn.
      rewrite Heq, Hcp in Hn. done.
Qed.

Lemma reply_keeps_forest_witness :
  parents_first
    (comments (reply Samples.blog (Some 8%nat) 3
                 (Some {| cvd_content := "ok"; cvd_post := 1; cvd_parent := None |}) []).2)
  ∧ refs_closed
      (comments (reply Samples.blog (Some 8%nat) 3
                   (Some {| cvd_content := "ok"; cvd_post := 1; cvd_parent := None |}) []).2).
Proof.
  apply reply_keeps_forest.
  - apply (bool_decide_unpack _). vm_compute. exact I.
  - apply (bool_decide_unpack _). vm_compute. exact I.
Defined.

Section Permission.
Variable permission : Method → nat → option nat → bool.
Hypothesis permission_author : ∀ m author, permission m author (Some author) = true.

(** X17: the cascade takes the replies of other users too: after any user
    has replied to a comment, the reply is stored under the next key of
    the sequence, and when the author of the comment then deletes it the
    reply is gone. *)
Theorem reply_then_destroy st u pk parent vd errors :
  comments st !! pk = Some parent →
  is_Some (comments (reply st (Some u) pk (Some vd) errors).2 !! next_id st)
  ∧ (destroy permission (reply st (Some u) pk (Some vd) errors).2
       (Some (comment_author parent)) pk).1 = Success HTTP_204_NO_CONTENT ()
  ∧ comments (destroy permission (reply st (Some u) pk (Some vd) errors).2
                (Some (comment_author parent)) pk).2
      !! next_id st = None.
Proof.
  intros Hp. rewrite (reply_store st u pk parent vd errors Hp).
  set (id := next_id st). set (st1 := with_comment_seq _ _).
  assert (pk ≠ id) as Hne.
  { intros Heq. pose proof (next_id_None st) as Hn.
    fold id in Hn. rewrite <- Heq, Hp in Hn. done. }
  assert (comments st1 !! pk = Some parent) as Hp1.
  { unfold st1. simpl. by rewrite lookup_insert_ne. }
  split; [unfold st1; simpl; rewrite lookup_insert_eq; eauto|].
  rewrite (destroy_author permission permission_author st1 pk parent Hp1). split; [done|].
  cbn [snd]. apply (CommentFacts.delete_subtree st1 pk id).
  eapply subtree_reply; [apply lookup_insert_eq|done|constructor].
Qed.

End Permission.

Lemma reply_then_destroy_witness :
  comments (destroy IsAuthorOrReadOnly
              (reply Samples.blog (Some 8%nat) 4
                 (Some {| cvd_content := "thanks"; cvd_post := 1; cvd_parent := None |}) []).2
              (Some 7%nat) 4).2
    !! 5%nat = None.
Proof.
  exact (proj2 (proj2 (reply_then_destroy IsAuthorOrReadOnly
                         PermissionFacts.IsAuthorOrReadOnly_author Samples.blog 8 4
                         (Samples.comment "second" 7 None)
                         {| cvd_content := "thanks"; cvd_post := 1; cvd_parent := None |} []
                         eq_refl))).
Defined.

(** ** Likes of comments *)

Lemma rows_new (L : gset (nat * nat)) pk u :
  (pk, u) ∉ L →
  size (filter (λ row : nat * nat, row.1 = pk) ({[ (pk, u) ]} ∪ L))
  = S (size (filter (λ row : nat * nat, row.1 = pk) L)).
Proof.
  intros Hin.
  assert (filter (λ row : nat * nat, row.1 = pk) ({[ (pk, u) ]} ∪ L)
          = {[ (pk, u) ]} ∪ filter (λ row : nat * nat, row.1 = pk) L) as ->.
  { apply set_eq. intros [a b].
    rewrite elem_of_union, !elem_of_filter, elem_of_union, elem_of_singleton. simpl.
    split; [intros [-> [?|?]]; tauto|]. intros [[= -> ->]|[-> ?]]; tauto. }
  rewrite size_union, size_singleton; [done|].
  apply disjoint_singleton_l. rewrite elem_of_filter. tauto.
Qed.

Lemma rows_deleted (L : gset (nat * nat)) pk u :
  (pk, u) ∈ L →
  S (size (filter (λ row : nat * nat, row.1 = pk) (L ∖ {[ (pk, u) ]})))
  = size (filter (λ row : nat * nat, row.1 = pk) L).
Proof.
  intros Hin.
  assert (filter (λ row : nat * nat, row.1 = pk) L
          = {[ (pk, u) ]} ∪ filter (λ row : nat * nat, row.1 = pk) (L ∖ {[ (pk, u) ]})) as ->.
  { apply set_eq. intros x.
    rewrite elem_of_union, !elem_of_filter, elem_of_difference, elem_of_singleton.
    destruct (decide (x = (pk, u))) as [->|]; [|tauto].
    split; [by left|]. by intros _. }
  rewrite size_union, size_singleton; [done|].
  apply disjoint_singleton_l.
  rewrite elem_of_filter, elem_of_difference, elem_of_singleton. tauto.
Qed.

Lemma comment_like_new st u pk c :
  comments st !! pk = Some c → (pk, u) ∉ comment_likes st →
  like st (Some u) pk
  = (Success HTTP_200_OK
       {| PostViewSet.like_status := "liked";
          PostViewSet.like_likes_count := comment_likes_count c + 1 |},
     with_comments
       (<[pk := with_comment_likes_count (comment_likes_count c + 1) c]> (comments st))
       (with_comment_likes ({[ (pk, u) ]} ∪ comment_likes st) st)).
Proof.
  intros Hc Hin. unfold like, get_object. rewrite Hc. unfold PostViewSet.get_or_create.
  rewrite decide_False by done. simpl. rewrite lookup_alter_eq, Hc. simpl.
  by rewrite (PostFacts.alter_lookup_insert _ _ _ _ Hc).
Qed.

Lemma comment_like_existing st u pk c :
  comments st !! pk = Some c → (pk, u) ∈ comment_likes st →
  like st (Some u) pk
  = (Success HTTP_200_OK
       {| PostViewSet.like_status := "unliked";
          PostViewSet.like_likes_count := Z.max 0 (comment_likes_count c - 1) |},
     with_comments
       (<[pk := with_comment_likes_count (Z.max 0 (comment_likes_count c - 1)) c]>
          (comments st))
       (with_comment_likes (comment_likes st ∖ {[ (pk, u) ]}) st)).
Proof.
  intros Hc Hin. unfold like, get_object. rewrite Hc. unfold PostViewSet.get_or_create.
  rewrite decide_True by done. simpl.
  by rewrite (PostFacts.alter_lookup_insert _ _ _ _ Hc).
Qed.

(** The keys of the store still come from the sequence after a reply, a
    deletion or a like, whatever the handler answers. *)
Lemma keys_handed_out_kept permission st user pk validated errors :
  keys_handed_out st →
  keys_handed_out (reply st user pk validated errors).2
  ∧ keys_handed_out (destroy permission st user pk).2
  ∧ keys_handed_out (like st user pk).2.
Proof.
  intros Hk. split_and!.
  - destruct (reply_store_cases st user pk validated errors)
      as [->|(u & parent & vd & _ & _ & _ & ->)]; [done|]. by apply new_row_keys.
  - destruct (destroy_store permission st user pk) as [->| ->]; [done|].
    destruct Hk as [Hc Hl]. split; [|done]. unfold delete. simpl.
    intros k c [Hkc _]%map_lookup_filter_Some. by apply (Hc k c).
  - destruct user as [u|]; [|done].
    destruct (comments st !! pk) as [c|] eqn:Hc; cycle 1.
    { unfold like, get_object. by rewrite Hc. }
    destruct Hk as [Hkeys Hl].
    destruct (decide ((pk, u) ∈ comment_likes st)) as [Hin|Hin].
    + rewrite (comment_like_existing st u pk c Hc Hin). split; simpl.
      * intros k c'. destruct (decide (pk = k)) as [<-|Hne].
        -- intros _. by apply (Hkeys pk c).
        -- rewrite lookup_insert_ne by done. apply Hkeys.
      * intros row [Hrow _]%elem_of_difference. by apply Hl.
    + rewrite (comment_like_new st u pk c Hc Hin). split; simpl.
      * intros k c'. destruct (decide (pk = k)) as [<-|Hne].
        -- intros _. by apply (Hkeys pk c).
        -- rewrite lookup_insert_ne by done. apply Hkeys.
      * intros row [->%elem_of_singleton|Hrow]%elem_of_union; [|by apply Hl].
        by apply (Hkeys pk c).
Qed.

(** X18: a like call on a comment, by any caller, keeps every comment
    counter equal to the number of CommentLike rows of its comment. *)
Theorem comment_like_keeps_counters st user pk :
  all_comment_likes_consistent st →
  all_comment_likes_consistent (like st user pk).2.
Proof.
  intros Hc. destruct user as [u|]; [|done].
  destruct (comments st !! pk) as [c|] eqn:Hp; cycle 1.
  { unfold like, get_object. by rewrite Hp. }
  pose proof (Hc pk c Hp) as Hn. unfold comment_like_rows in Hn.
  destruct (decide ((pk, u) ∈ comment_likes st)) as [Hin|Hin].
  - rewrite (comment_like_existing st u pk c Hp Hin).
    unfold all_comment_likes_consistent, comment_like_rows. simpl. intros pk' c'.
    destruct (decide (pk = pk')) as [<-|Hne].
    + rewrite lookup_insert_eq. intros [= <-]. simpl.
      pose proof (rows_deleted _ _ _ Hin). lia.
    + rewrite lookup_insert_ne by done. intros Hp'. rewrite (Hc pk' c' Hp').
      unfold comment_like_rows.
      by rewrite (proj2 (PostExtras.like_rows_other _ _ _ u Hne)).
  - rewrite (comment_like_new st u pk c Hp Hin).
    unfold all_comment_likes_consistent, comment_like_rows. simpl. intros pk' c'.
    destruct (decide (pk = pk')) as [<-|Hne].
    + rewrite lookup_insert_eq. intros [= <-]. simpl.
      pose proof (rows_new _ _ _ Hin). lia.
    + rewrite lookup_insert_ne by done. intros Hp'. rewrite (Hc pk' c' Hp').
      unfold comment_like_rows.
      by rewrite (proj1 (PostExtras.like_rows_other _ _ _ u Hne)).
Qed.

Lemma comment_like_keeps_counters_witness :
  all_comment_likes_consistent (like Samples.blog (Some 8%nat) 1).2.
Proof.
  apply comment_like_keeps_counters.
  change (map_Forall
            (λ pk c, comment_likes_count c = Z.of_nat (comment_like_rows Samples.blog pk))
            (comments Samples.blog)).
  apply (bool_decide_unpack _). vm_compute. exact I.
Defined.

(** X19: on a comment whose counter agrees with its CommentLike rows, two
    like calls in a row by the same user leave the store as it was: the
    first answers [liked] with the count plus one when the user had no like
    on it and [unliked] with the count minus one otherwise. *)
Theorem comment_like_twice st u pk c :
  comments st !! pk = Some c →
  comment_likes_count c = Z.of_nat (comment_like_rows st pk) →
  (like st (Some u) pk).1
  = Success HTTP_200_OK
      (if decide ((pk, u) ∈ comment_likes st)
       then {| PostViewSet.like_status := "unliked";
               PostViewSet.like_likes_count := comment_likes_count c - 1 |}
       else {| PostViewSet.like_status := "liked";
               PostViewSet.like_likes_count := comment_likes_count c + 1 |})
  ∧ (like (like st (Some u) pk).2 (Some u) pk).2 = st.
Proof.
  intros Hp Hn. unfold comment_like_rows in Hn.
  destruct (decide ((pk, u) ∈ comment_likes st)) as [Hin|Hin].
  - pose proof (rows_deleted _ _ _ Hin) as Hrows.
    rewrite (comment_like_existing st u pk c Hp Hin). cbn [fst snd].
    rewrite Z.max_r by lia. split; [done|].
    erewrite comment_like_new; cycle 1.
    + simpl. apply lookup_insert_eq.
    + simpl. rewrite elem_of_difference, elem_of_singleton. tauto.
    + destruct st as [ps ts cs ls bs cls]. destruct c as [co au po pa lc].
      unfold with_comments, with_comment_likes, with_comment_likes_count. simpl in *.
      replace (lc - 1 + 1) with lc by lia. f_equal.
      * rewrite insert_insert_eq. by apply insert_id.
      * apply set_eq. intros x.
        rewrite elem_of_union, elem_of_difference, elem_of_singleton.
        destruct (decide (x = (pk, u))) as [->|]; tauto.
  - rewrite (comment_like_new st u pk c Hp Hin). cbn [fst snd]. split; [done|].
    erewrite comment_like_existing; cycle 1.
    + simpl. apply lookup_insert_eq.
    + simpl. rewrite elem_of_union, elem_of_singleton. by left.
    + destruct st as [ps ts cs ls bs cls]. destruct c as [co au po pa lc].
      unfold with_comments, with_comment_likes, with_comment_likes_count. simpl in *.
      replace (lc + 1 - 1) with lc by lia. rewrite Z.max_r by lia. f_equal.
      * rewrite insert_insert_eq. by apply insert_id.
      * apply set_eq. intros x.
        rewrite elem_of_difference, elem_of_union, elem_of_singleton.
        split; [by intros [[->|?] ?]|]. intros Hx. split; [by right|]. by intros ->.
Qed.

Lemma comment_like_twice_witness :
  (like (like Samples.blog (Some 8%nat) 1).2 (Some 8%nat) 1).2 = Samples.blog.
Proof.
  refine (proj2 (comment_like_twice Samples.blog 8 1 (Samples.comment "first" 7 None)
                   eq_refl _)).
  vm_compute. reflexivity.
Defined.

End CommentExtras.

(** * The comments of a post *)

Module PostCommentsExtras.
Import Blog Blog.CommentSerializer Model.

(** The serializer reads the comments and their likes, nothing else. *)
Lemma to_representation_ext depth st st' user id obj :
  comments st = comments st' → comment_likes st = comment_likes st' →
  to_representation depth st user id obj = to_representation depth st' user id obj.
Proof.
  intros Hc Hl. revert id obj. induction depth as [|depth IH]; intros id obj; [done|].
  simpl. unfold replies, get_is_liked. rewrite Hc, Hl.
  by rewrite (mapM_ext _ (λ r, to_representation depth st' user r.1 r.2)).
Qed.

Lemma many_ext st st' user rows :
  comments st = comments st' → comment_likes st = comment_likes st' →
  many st user rows = many st' user rows.
Proof.
  intros Hc Hl. unfold many, depth_bound. rewrite Hc.
  apply mapM_ext. intros r. by apply to_representation_ext.
Qed.

Section Permission.
Variable permission : Method → nat → option nat → bool.
Hypothesis permission_read : ∀ author user, permission GET author user = true.

(** X20: [GET /posts/{id}/comments] answers the comments that the detail
    of the post carries, rendered the same way, and unlike the detail it
    does not count a view: it leaves the store as it is. *)
Theorem comments_get_agrees st user pk post validated errors :
  posts st !! pk = Some post →
  parents_first (comments st) →
  ∃ data,
    (PostViewSet.retrieve permission st user no_params pk).1 = Success HTTP_200_OK data
    ∧ Blog.PostViewSet.comments GET st user no_params pk validated errors
      = (Success HTTP_200_OK (PostViewSet.Listing (pd_comments data)), st).
Proof.
  intros Hp Hpf. unfold PostViewSet.retrieve, Blog.PostViewSet.comments.
  rewrite !PostFacts.get_object_no_params by done. rewrite Hp.
  rewrite permission_read. cbn [negb is_safe orb]. cbv zeta.
  rewrite (PostFacts.alter_lookup_insert _ _ _ _ Hp).
  set (st' := with_posts _ st).
  assert (posts st' !! pk = Some (with_views_count (post_views_count post + 1) post))
    as -> by apply lookup_insert_eq.
  cbn [default from_option].
  unfold PostDetailSerializer.to_representation, PostDetailSerializer.get_comments,
    PostDetailSerializer.top_level_comments.
  rewrite <- (many_ext st st') by done.
  destruct (CommentFacts.many_rendered st user
              (filter (λ r, comment_post r.2 = pk ∧ comment_parent r.2 = None)
                 (map_to_list (comments st))) Hpf) as (nested & Hm & _).
  change (comments st') with (comments st). rewrite Hm. simpl.
  eexists. split; done.
Qed.

End Permission.

Lemma comments_get_agrees_witness :
  ∃ data,
    (PostViewSet.retrieve IsAuthorOrReadOnly Samples.blog None no_params 1).1
    = Success HTTP_200_OK data
    ∧ Blog.PostViewSet.comments GET Samples.blog None no_params 1 None []
      = (Success HTTP_200_OK (PostViewSet.Listing (pd_comments data)), Samples.blog).
Proof.
  apply (comments_get_agrees IsAuthorOrReadOnly PermissionFacts.IsAuthorOrReadOnly_read
           Samples.blog None 1 Samples.hello None []).
  - reflexivity.
  - apply (bool_decide_unpack _). vm_compute. exact I.
Defined.

(** X21: [POST /posts/{id}/comments] by an anonymous caller is refused and
    an invalid body is answered 400, both without a change; a valid body
    is stored as a comment of the post of the route, whatever post the
    body names, with the caller as author, a counter of zero and the
    parent that the body names, under the next key of the sequence, which
    is not a key handed out before.  On a comment forest, when the parent
    named is a comment of the table, the answer is 201 with the new
    comment alone, which has no replies and, when the keys of the store
    come from the sequence, is not liked by the caller. *)
Theorem comments_post_effect st u pk post validated errors :
  posts st !! pk = Some post →
  Blog.PostViewSet.comments POST st None no_params pk validated errors = (not_authenticated, st)
  ∧ Blog.PostViewSet.comments POST st (Some u) no_params pk None errors
    = (Failure HTTP_400_BAD_REQUEST errors, st)
  ∧ ∀ vd,
      (Blog.PostViewSet.comments POST st (Some u) no_params pk (Some vd) errors).2
      = with_comment_seq (S (next_id st))
          (with_comments
             (<[next_id st :=
                  {| comment_content := cvd_content vd;
                     comment_author := u;
                     comment_post := pk;
                     comment_parent := cvd_parent vd;
                     comment_likes_count := 0 |}]> (comments st)) st)
      ∧ comments st !! next_id st = None
      ∧ (comment_seq st ≤ next_id st)%nat
      ∧ (parents_first (comments st) →
         (∀ p, cvd_parent vd = Some p → is_Some (comments st !! p)) →
         ∃ data,
           (Blog.PostViewSet.comments POST st (Some u) no_params pk (Some vd) errors).1
           = Success HTTP_201_CREATED (PostViewSet.Created data)
           ∧ cd_id data = next_id st
           ∧ cd_post data = pk
           ∧ cd_author data = u
           ∧ cd_content data = cvd_content vd
           ∧ cd_parent data = cvd_parent vd
           ∧ cd_replies data = []
           ∧ cd_likes_count data = 0
           ∧ (keys_handed_out st → cd_is_liked data = false)).
Proof.
  intros Hp. split; [done|]. unfold Blog.PostViewSet.comments.
  rewrite !PostFacts.get_object_no_params by done. rewrite Hp.
  cbn [negb is_safe orb is_authenticated]. split; [done|]. intros vd.
  unfold save. cbv zeta. split_and!.
  - by destruct (to_representation _ _ _ _ _).
  - apply CommentExtras.next_id_None.
  - apply CommentExtras.next_id_seq.
  - intros Hpf Hparent. unfold depth_bound. cbn [to_representation].
    rewrite (CommentExtras.new_row_no_replies st); [|done|]; cycle 1.
    { simpl. intros p Hpar. apply CommentExtras.next_id_gt. by apply Hparent. }
    simpl. eexists. split; [done|]. simpl. split_and!; try done.
    intros [_ Hl]. apply bool_decide_eq_false. intros Hin.
    specialize (Hl _ Hin). simpl in Hl. pose proof (CommentExtras.next_id_seq st). lia.
Qed.

Lemma comments_post_effect_witness :
  comment_post <$>
    comments (Blog.PostViewSet.comments POST Samples.blog (Some 8%nat) no_params 1
                (Some {| cvd_content := "hi"; cvd_post := 2; cvd_parent := None |}) []).2
      !! 5%nat = Some 1%nat.
Proof.
  rewrite (proj1 (proj2 (proj2 (comments_post_effect Samples.blog 8 1 Samples.hello None []
                                  eq_refl)) _)).
  vm_compute. reflexivity.
Defined.

End PostCommentsExtras.

(** * Tags *)

Module TagExtras.
Import Blog Blog.PostCreateUpdateSerializer Model.

#[local] Instance by_posts_count_desc_trans st :
  Transitive (TagViewSet.by_posts_count_desc st).
Proof. intros x y z. unfold TagViewSet.by_posts_count_desc. lia. Qed.

#[local] Instance by_posts_count_desc_total st :
  Total (TagViewSet.by_posts_count_desc st).
Proof. intros x y. unfold TagViewSet.by_posts_count_desc. lia. Qed.

(** X22: the tag list holds every tag of the table once, each with the
    number of posts that carry it, drafts included, and the counts never
    increase along the list. *)
Theorem tags_by_use st :
  (TagViewSet.queryset st).*1 ≡ₚ map_to_list (tags st)
  ∧ StronglySorted (λ a b, (b.2 ≤ a.2)%nat) (TagViewSet.queryset st)
  ∧ ∀ k tag n, (k, tag, n) ∈ TagViewSet.queryset st →
      tags st !! k = Some tag
      ∧ n = size (filter (λ r : nat * Post, k ∈ post_tags r.2) (posts st)).
Proof.
  unfold TagViewSet.queryset. split_and!.
  - rewrite <- list_fmap_compose.
    rewrite (list_fmap_ext _ id); [|by intros]. rewrite list_fmap_id.
    apply merge_sort_Permutation.
  - eapply (StronglySorted_fmap _ (TagViewSet.by_posts_count_desc st)); [by intros|].
    apply StronglySorted_merge_sort; apply _.
  - intros k tag n [[i t] [Heq Hr]]%list_elem_of_fmap.
    injection Heq as -> -> ->.
    rewrite merge_sort_Permutation in Hr.
    by apply elem_of_map_to_list in Hr.
Qed.

Lemma map_filter_length {A} (P : nat * A → Prop) `{!∀ x, Decision (P x)}
    (m : gmap nat A) :
  size (filter P m) = length (filter P (map_to_list m)).
Proof.
  rewrite <- length_map_to_list, map_filter_alt.
  rewrite map_to_list_to_map; [done|].
  apply PostExtras.filter_keys_NoDup, NoDup_fst_map_to_list.
Qed.

(** X23: the posts of a tag: an unknown tag is answered 404; for a tag of
    the table the answer holds exactly the published posts that carry the
    tag, each once, so that it is never longer than the count the tag list
    gives for the tag. *)
Theorem tag_posts st pk :
  (tags st !! pk = None → TagViewSet.posts st pk = not_found)
  ∧ (is_Some (tags st !! pk) →
     ∃ rows, TagViewSet.posts st pk = Success HTTP_200_OK rows
             ∧ NoDup rows
             ∧ (∀ k post, (k, post) ∈ rows ↔
                  posts st !! k = Some post ∧ pk ∈ post_tags post
                  ∧ post_status post = "published")
             ∧ (length rows ≤ TagViewSet.posts_count st pk)%nat).
Proof.
  unfold TagViewSet.posts. split; [by intros ->|]. intros [tag ->].
  eexists. split; [done|]. split_and!.
  - apply NoDup_filter, NoDup_map_to_list.
  - intros k post. rewrite list_elem_of_filter, elem_of_map_to_list. simpl. tauto.
  - unfold TagViewSet.posts_count. rewrite map_filter_length.
    rewrite (list_filter_iff _
               (λ r : nat * Post, post_status r.2 = "published" ∧ pk ∈ post_tags r.2));
      [|intros r; tauto].
    rewrite <- list_filter_filter. apply length_filter.
Qed.

Lemma tag_posts_witness :
  ∃ rows, TagViewSet.posts Samples.blog 1 = Success HTTP_200_OK rows
          ∧ (1%nat, Samples.hello) ∈ rows
          ∧ (length rows ≤ TagViewSet.posts_count Samples.blog 1)%nat.
Proof.
  destruct (tag_posts Samples.blog 1) as [_ Hok].
  destruct Hok as (rows & Hr & _ & Hin & Hlen).
  { vm_compute. eauto. }
  exists rows. split; [exact Hr|]. split; [|exact Hlen].
  apply Hin. split_and!; [reflexivity| |reflexivity].
  apply (bool_decide_unpack _). vm_compute. exact I.
Defined.

(** ** Tag names in an update *)

Lemma add_tags_names py slugify names1 names2 pk st :
  normalise py <$> names1 = normalise py <$> names2 →
  add_tags py slugify names1 pk st = add_tags py slugify names2 pk st.
Proof.
  revert names2 st. induction names1 as [|n1 names1 IH]; intros [|n2 names2] st;
    simpl; try done.
  intros [= Hn Hrest]. rewrite Hn.
  destruct (Tag_get_or_create slugify _ (tags st)) as [[tag table]|e]; [|done].
  by apply IH.
Qed.

(** X24: an update reads tag names only through the interpreter's
    [strip] and [lower]: two lists of names that agree once stripped and
    lower-cased give the same answer and the same store, whether the
    update is carried out, refused or stopped by an exception. *)
Theorem update_names_normalised py permission slugify method st user qp pk
    title content excerpt status names1 names2 :
  (λ n, Text.py_lower py (Text.py_strip py n)) <$> names1
  = (λ n, Text.py_lower py (Text.py_strip py n)) <$> names2 →
  PostViewSet.update py permission slugify method st user qp pk
    {| vd_title := title; vd_content := content; vd_excerpt := excerpt;
       vd_status := status; vd_tags := Some names1 |}
  = PostViewSet.update py permission slugify method st user qp pk
      {| vd_title := title; vd_content := content; vd_excerpt := excerpt;
         vd_status := status; vd_tags := Some names2 |}.
Proof.
  intros Hn. unfold PostViewSet.update. destruct user as [u|]; [|done]. cbv zeta.
  destruct (PostViewSet.get_object _ _ _ _ _) as [instance|]; [|done].
  destruct (negb _); [done|]. unfold update. cbv zeta.
  cbn [vd_tags]. by rewrite (add_tags_names py slugify names1 names2 pk _ Hn).
Qed.

Lemma update_names_normalised_witness :
  PostViewSet.update Text.ascii_range IsAuthorOrReadOnly (λ name, name) PUT Samples.blog
    (Some 7%nat) no_params 1 Samples.retag
  = PostViewSet.update Text.ascii_range IsAuthorOrReadOnly (λ name, name) PUT Samples.blog
      (Some 7%nat) no_params 1
      {| vd_title := None; vd_content := None; vd_excerpt := None; vd_status := None;
         vd_tags := Some ["coq"; "  Rocq"] |}.
Proof.
  apply (update_names_normalised Text.ascii_range IsAuthorOrReadOnly (λ name, name) PUT
           Samples.blog (Some 7%nat) no_params 1 None None None None
           [" Coq "; "ROCQ"] ["coq"; "  Rocq"]).
  reflexivity.
Defined.

(** ** Updating twice *)

Lemma store_eq (st st' : Store) :
  posts st = posts st' → tags st = tags st' → comments st = comments st' →
  likes st = likes st' → bookmarks st = bookmarks st' →
  comment_likes st = comment_likes st' → comment_seq st = comment_seq st' → st = st'.
Proof. destruct st, st'. simpl. by intros -> -> -> -> -> -> ->. Qed.

(** The loop over the names touches the posts and the tags only. *)
Lemma add_tags_frame py slugify names pk st :
  let st' := (add_tags py slugify names pk st).1 in
  comments st' = comments st ∧ likes st' = likes st
  ∧ bookmarks st' = bookmarks st ∧ comment_likes st' = comment_likes st
  ∧ comment_seq st' = comment_seq st.
Proof.
  revert st. induction names as [|name names IH]; intros st; simpl; [done|].
  destruct (Tag_get_or_create slugify _ (tags st)) as [[tag table]|e]; [|done].
  specialize (IH (with_posts
    (alter (λ p, with_tag_set ({[ tag ]} ∪ post_tags p) p) pk (posts st))
    (with_tags table st))).
  simpl in IH. exact IH.
Qed.

Lemma set_fields_twice vd T T' post :
  with_tag_set T (with_tag_set ∅ (set_fields vd
    (with_tag_set T' (with_tag_set ∅ (set_fields vd post)))))
  = with_tag_set T (with_tag_set ∅ (set_fields vd post)).
Proof.
  destruct vd as [[?|] [?|] [?|] [?|] ?]; reflexivity.
Qed.

Lemma set_fields_idem vd post :
  set_fields vd (set_fields vd post) = set_fields vd post.
Proof.
  destruct vd as [[?|] [?|] [?|] [?|] ?]; reflexivity.
Qed.

(** Names that all have a tag need no slug. *)
Lemma slugs_free_named slugify (table : gmap nat Tag) names :
  (∀ n, n ∈ names → ∃ t tag, table !! t = Some tag ∧ tag_name tag = n) →
  slugs_free slugify table names.
Proof.
  intros Hall. split.
  - apply Forall_forall. intros n Hn Hno.
    destruct (Hall n Hn) as (t & tag & Ht & Hname). by destruct (Hno t tag Ht).
  - apply Forall_forall. intros n1 Hn1. apply Forall_forall. intros n2 Hn2 Hno.
    destruct (Hall n1 Hn1) as (t & tag & Ht & Hname). by destruct (Hno t tag Ht).
Qed.

(** On the rows of the model, the serializer's update, run again on the
    store it left with the row it left, changes nothing. *)
Lemma serializer_update_twice py slugify st pk post vd :
  tags_unique (tags st) →
  (∀ names, vd_tags vd = Some names →
     slugs_free slugify (tags st) (normalise py <$> names)) →
  posts st !! pk = Some post →
  ∃ st1 post1,
    update py slugify st pk post vd = (st1, None)
    ∧ posts st1 !! pk = Some post1
    ∧ post_author post1 = post_author post
    ∧ update py slugify st1 pk post1 vd = (st1, None).
Proof.
  intros Hu Hfree Hp. unfold update. cbv zeta.
  destruct (vd_tags vd) as [names|] eqn:Hnames.
  - specialize (Hfree names eq_refl).
    set (X := with_tag_set ∅ (set_fields vd post)).
    set (st0 := with_posts (<[pk := set_fields vd post]> (posts st)) st).
    set (st1c := with_posts (alter (with_tag_set ∅) pk (posts st0)) st0).
    assert (posts st1c !! pk = Some X) as Hp1c.
    { unfold st1c, st0. simpl. by rewrite lookup_alter_eq, lookup_insert_eq. }
    destruct (TagFacts.add_tags_unique py slugify names pk st1c _ Hu Hfree Hp1c)
      as (st1 & post1 & Hrun1 & Hposts1 & Hpost1 & Htags1 & Hall1 & Hsub1 & Hu1 & Hnew1).
    pose proof (add_tags_frame py slugify names pk st1c) as Hframe1.
    rewrite Hrun1 in Hframe1. cbn [fst] in Hframe1.
    destruct Hframe1 as (Hc1 & Hl1 & Hb1 & Hcl1 & Hs1).
    exists st1, post1. split; [done|].
    assert (posts st1 !! pk = Some post1) as Hp1.
    { rewrite Hposts1. apply lookup_insert_eq. }
    split; [done|]. split; [by rewrite Hpost1|].
    set (st0' := with_posts (<[pk := set_fields vd post1]> (posts st1)) st1).
    set (st2c := with_posts (alter (with_tag_set ∅) pk (posts st0')) st0').
    assert (posts st2c !! pk = Some (with_tag_set ∅ (set_fields vd post1))) as Hp2c.
    { unfold st2c, st0'. simpl. by rewrite lookup_alter_eq, lookup_insert_eq. }
    assert (slugs_free slugify (tags st2c) (normalise py <$> names)) as Hfree2.
    { apply slugs_free_named. intros n (name & -> & Hin)%list_elem_of_fmap.
      exact (Hall1 name Hin). }
    destruct (TagFacts.add_tags_unique py slugify names pk st2c _ Hu1 Hfree2 Hp2c)
      as (st2 & post2 & Hrun2 & Hposts2 & Hpost2 & Htags2 & Hall2 & Hsub2 & Hu2 & Hnew2).
    pose proof (add_tags_frame py slugify names pk st2c) as Hframe2.
    rewrite Hrun2 in Hframe2. cbn [fst] in Hframe2.
    destruct Hframe2 as (Hc2 & Hl2 & Hb2 & Hcl2 & Hs2).
    rewrite Hrun2. f_equal.
    assert (tags st2 = tags st1) as Htageq.
    { apply (anti_symm (⊆)); [|exact Hsub2].
      apply map_subseteq_spec. intros t tag Ht.
      destruct (tags st1 !! t) as [tag'|] eqn:Ht1.
      - eapply lookup_weaken in Ht1; [|exact Hsub2]. congruence.
      - destruct (Hnew2 t tag Ht Ht1) as (name & Hin & Hname & _).
        destruct (Hall1 name Hin) as (t' & tag' & Ht' & Hname').
        assert (t = t') as ->.
        { apply (Hu2 t tag Ht t' tag'); [|congruence].
          eapply lookup_weaken; [exact Ht'|exact Hsub2]. }
        congruence. }
    assert (post_tags post2 = post_tags post1) as Hsame.
    { apply set_eq. intros t. rewrite Htags2, Htags1, Htageq. simpl.
      rewrite !elem_of_empty. tauto. }
    assert (post2 = post1) as ->.
    { rewrite Hpost2, Hsame.
      assert (∃ T1, post1 = with_tag_set T1 X) as [T1 ->] by eauto.
      unfold X. rewrite set_fields_twice. reflexivity. }
    apply store_eq; try done.
    rewrite Hposts2. unfold st2c, st0'. simpl. apply map_eq. intros j.
    destruct (decide (pk = j)) as [<-|Hne].
    + by rewrite lookup_insert_eq.
    + by rewrite lookup_insert_ne, lookup_alter_ne, lookup_insert_ne.
  - eexists _, _. split; [done|]. simpl. rewrite lookup_insert_eq.
    split; [done|]. split; [done|]. f_equal.
    rewrite set_fields_idem, insert_insert_eq. by apply store_eq.
Qed.

Section Twice.
Variable py : Text.Python.
Variable permission : Method → nat → option nat → bool.
Variable slugify : string → string.

(** X25: an update of a post that is sent twice creates no tag the second
    time and changes none of the fields the first one wrote.  On a tag
    table without duplicate names in which the names that have no tag can
    be given their slugs, and without query parameters, both requests of
    the author are answered 200; after the second the tag table, the tags
    of the post, its title, content, excerpt, status, slug, author and
    counters, the other posts, the comments, likes and bookmarks are as
    the first left them, and the two answers show the same title, content,
    excerpt, status, slug and tags. *)
Theorem update_twice method st u pk post vd :
  posts st !! pk = Some post →
  permission method (post_author post) (Some u) = true →
  tags_unique (tags st) →
  (∀ names, vd_tags vd = Some names →
     slugs_free slugify (tags st) (normalise py <$> names)) →
  ∃ data1 st1 data2 st2 post1 post2,
    PostViewSet.update py permission slugify method st (Some u) no_params pk vd
    = (Success HTTP_200_OK data1, st1)
    ∧ PostViewSet.update py permission slugify method st1 (Some u) no_params pk vd
      = (Success HTTP_200_OK data2, st2)
    ∧ tags st2 = tags st1
    ∧ posts st1 !! pk = Some post1 ∧ posts st2 !! pk = Some post2
    ∧ post_tags post2 = post_tags post1
    ∧ (post_title post2, post_content post2, post_excerpt post2, post_status post2,
       post_slug post2)
      = (post_title post1, post_content post1, post_excerpt post1, post_status post1,
         post_slug post1)
    ∧ (post_author post2, post_views_count post2, post_likes_count post2)
      = (post_author post1, post_views_count post1, post_likes_count post1)
    ∧ (∀ j, j ≠ pk → posts st2 !! j = posts st1 !! j)
    ∧ (comments st2, likes st2, bookmarks st2, comment_likes st2)
      = (comments st1, likes st1, bookmarks st1, comment_likes st1)
    ∧ (pw_title data2, pw_content data2, pw_excerpt data2, pw_status data2,
       pw_slug data2, pw_tag_objects data2)
      = (pw_title data1, pw_content data1, pw_excerpt data1, pw_status data1,
         pw_slug data1, pw_tag_objects data1).
Proof.
  intros Hp Hperm Hu Hfree.
  destruct (serializer_update_twice py slugify st pk post vd Hu Hfree Hp)
    as (st1 & post1 & Hfirst & Hp1 & Hauthor & Hagain).
  assert (∀ st0 post0, posts st0 !! pk = Some post0 →
            post_author post0 = post_author post →
            update py slugify st0 pk post0 vd = (st1, None) →
            PostViewSet.update py permission slugify method st0 (Some u) no_params pk vd
            = (Success HTTP_200_OK (to_representation st1 pk post1), st1)) as Hrun.
  { intros st0 post0 Hp0 Ha0 Hup. unfold PostViewSet.update. cbv zeta.
    rewrite PostFacts.get_object_no_params by (by case_decide).
    rewrite Hp0, Ha0, Hperm. cbn [negb]. by rewrite Hup, Hp1. }
  eexists _, st1, _, st1, post1, post1.
  split; [by apply (Hrun st post)|].
  split; [by apply (Hrun st1 post1)|].
  by split_and!.
Qed.

End Twice.

Lemma update_twice_witness :
  ∃ st1 st2,
    (PostViewSet.update Text.ascii_range IsAuthorOrReadOnly (λ name, name) PUT
       Samples.blog (Some 7%nat) no_params 1 Samples.retag).2 = st1
    ∧ (PostViewSet.update Text.ascii_range IsAuthorOrReadOnly (λ name, name) PUT
         st1 (Some 7%nat) no_params 1 Samples.retag).2 = st2
    ∧ tags st2 = tags st1.
Proof.
  assert (tags_unique (tags Samples.blog)) as Hu.
  { apply (bool_decide_unpack _). vm_compute. exact I. }
  destruct (update_twice Text.ascii_range IsAuthorOrReadOnly (λ name, name) PUT
              Samples.blog 7 1 Samples.hello Samples.retag eq_refl eq_refl Hu)
    as (data1 & st1 & data2 & st2 & post1 & post2 & H1 & H2 & Htags & _).
  { intros names [= <-]. apply (bool_decide_unpack _). vm_compute. exact I. }
  exists st1, st2. by rewrite H1, H2.
Defined.

End TagExtras.

(** * The admin's comment column *)

Module AdminExtras.
Import Blog Blog.CommentAdmin.

Lemma length_append (s t : string) :
  String.length (s +:+ t) = (String.length s + String.length t)%nat.
Proof. induction s as [|c s IH]; simpl; [done|]. by rewrite IH. Qed.

Lemma length_prefix n s : String.length (prefix n s) = (n `min` String.length s)%nat.
Proof.
  revert s. induction n as [|n IH]; intros [|c s]; simpl; try done. by rewrite IH.
Qed.

Lemma prefix_append n s t :
  (n ≤ String.length s)%nat → prefix n (prefix n s +:+ t) = prefix n s.
Proof.
  revert s. induction n as [|n IH]; intros [|c s]; simpl; try done; [lia|].
  intros Hn. rewrite IH; [done|lia].
Qed.

(** X26: the comment column of the admin shows the content as it is when
    it has at most 50 characters, and otherwise its first 50 characters
    followed by three dots: the preview is at most 53 characters long and
    begins as the content does. *)
Theorem content_preview_bounds obj :
  String.length (content_preview obj)
  = (if (50 <? String.length (comment_content obj))%nat then 53%nat
     else String.length (comment_content obj))
  ∧ (String.length (content_preview obj) ≤ 53)%nat
  ∧ prefix 50 (content_preview obj) = prefix 50 (comment_content obj).
Proof.
  unfold content_preview.
  destruct (50 <? String.length (comment_content obj))%nat eqn:Hlen.
  - apply Nat.ltb_lt in Hlen. rewrite length_append, length_prefix.
    change (String.length "...") with 3%nat.
    split_and!; [lia|lia|]. apply prefix_append. lia.
  - apply Nat.ltb_ge in Hlen. split_and!; [done|lia|done].
Qed.

End AdminExtras.

(** * Accounts *)

Module AccountExtras.
Import Accounts AccountModel.

Lemma field_value py name o checks :
  RegisterSerializer.field_errors py name o checks = [] →
  ∃ v, o = Some v ∧ checks (Text.py_strip py v) = [].
Proof.
  unfold RegisterSerializer.field_errors, RegisterSerializer.required,
    RegisterSerializer.to_internal_value.
  destruct o as [v|]; [|done].
  destruct (bool_decide (v = "") || bool_decide (Text.py_strip py v = "")); [done|].
  intros Hnil%fmap_nil_inv. by exists v.
Qed.

Lemma check_nil ok message : RegisterSerializer.check ok message = [] → ok = true.
Proof. by destruct ok. Qed.

Lemma usernames_unique_insert table id user :
  usernames_unique table →
  (∀ j other, table !! j = Some other → j ≠ id → username other ≠ username user) →
  usernames_unique (<[id := user]> table).
Proof.
  intros Hu Hfree i u1 Hi j u2 Hj Hname.
  destruct (decide (id = i)) as [<-|Hni], (decide (id = j)) as [<-|Hnj]; [done|..].
  - rewrite lookup_insert_eq in Hi. rewrite lookup_insert_ne in Hj by done.
    injection Hi as <-. by destruct (Hfree j u2 Hj).
  - rewrite lookup_insert_eq in Hj. rewrite lookup_insert_ne in Hi by done.
    injection Hj as <-. by destruct (Hfree i u1 Hi).
  - rewrite lookup_insert_ne in Hi, Hj by done. by apply (Hu i u1 Hi j u2 Hj).
Qed.

Section Register.
Import RegisterSerializer RegisterView.
Variable py : Text.Python.
Variable fw : Framework.

(** The user row a registration stores for a body. *)
Lemma post_created st data code body st' :
  post py fw st data = (Success code body, st') →
  ∃ name pw pw2 e,
    d_username data = Some name ∧ d_password data = Some pw
    ∧ d_password2 data = Some pw2 ∧ d_email data = Some e
    ∧ Text.py_strip py pw = Text.py_strip py pw2
    ∧ validate_password fw (Text.py_strip py pw) = true
    ∧ run_validation py fw st data = []
    ∧ (∀ j other, users st !! j = Some other →
         username other ≠ normalize_username fw (Text.py_strip py name))
    ∧ code = HTTP_201_CREATED
    ∧ body = [("username", normalize_username fw (Text.py_strip py name));
              ("email", normalize_email fw (Text.py_strip py e))]
    ∧ st' = {| users :=
                 <[fresh (dom (users st)) :=
                     {| username := normalize_username fw (Text.py_strip py name);
                        email := normalize_email fw (Text.py_strip py e);
                        password := make_password fw (Text.py_strip py pw) |}]>
                   (users st);
               profiles :=
                 <[fresh (dom (users st)) := {| bio := ""; profile_picture := None |}]>
                   (profiles st) |}.
Proof.
  unfold post. destruct (run_validation py fw st data) eqn:Hv; [|done].
  pose proof Hv as Hv'. unfold run_validation in Hv.
  apply app_eq_nil in Hv as [Hn Hv]. apply app_eq_nil in Hv as [Hp Hv].
  apply app_eq_nil in Hv as [Hp2 He].
  apply field_value in Hn as (name & -> & Hn).
  apply field_value in Hp as (pw & -> & Hp).
  apply field_value in Hp2 as (pw2 & -> & _).
  apply field_value in He as (e & -> & _).
  apply check_nil in Hp.
  unfold validate, to_internal_value. simpl.
  destruct (decide (Text.py_strip py pw ≠ Text.py_strip py pw2)) as [|Heq]; [done|].
  apply dec_stable in Heq. unfold create. simpl.
  case_decide as Hex; [done|]. intros [= <- <- <-].
  exists name, pw, pw2, e. split_and!; try done.
  intros j other Hj Hname. apply Hex. by exists j, other.
Qed.

(** X27: a registration that is carried out answers 201 and adds one user
    under a key that was free, with the username and the email that were
    sent, stripped and then normalised by the user manager, and the hash
    of the stripped password, which passed the password policy, and an
    empty profile; the answer shows the stored username and email; the
    users and profiles there were are kept; and usernames stay unique. *)
Theorem register_effect st data code body st' :
  usernames_unique (users st) →
  post py fw st data = (Success code body, st') →
  ∃ id name pw e,
    d_username data = Some name ∧ d_password data = Some pw ∧ d_email data = Some e
    ∧ code = HTTP_201_CREATED
    ∧ validate_password fw (Text.py_strip py pw) = true
    ∧ users st !! id = None
    ∧ users st'
      = <[id := {| username := normalize_username fw (Text.py_strip py name);
                   email := normalize_email fw (Text.py_strip py e);
                   password := make_password fw (Text.py_strip py pw) |}]> (users st)
    ∧ profiles st' = <[id := {| bio := ""; profile_picture := None |}]> (profiles st)
    ∧ body = [("username", normalize_username fw (Text.py_strip py name));
              ("email", normalize_email fw (Text.py_strip py e))]
    ∧ usernames_unique (users st').
Proof.
  intros Hu (name & pw & pw2 & e & Hn & Hp & _ & He & _ & Hpol & _ & Hfree & -> & -> & ->)
    %post_created.
  exists (fresh (dom (users st))), name, pw, e. simpl.
  split_and!; try done.
  - apply not_elem_of_dom, is_fresh.
  - apply usernames_unique_insert; [done|]. intros j other Hj _.
    by apply (Hfree j other).
Qed.

(** X28: a registration that was carried out cannot be repeated: the same
    body, sent again, is refused and the store is left as the first
    registration left it.  The answer is 400 when the user manager left
    the stripped username as it was; otherwise the validator may pass the
    username, and the store then refuses the row with the exception that
    nothing catches, 500. *)
Theorem register_twice st data code body st' :
  post py fw st data = (Success code body, st') →
  ∃ code' errors,
    post py fw st' data = (Failure code' errors, st')
    ∧ (code' = HTTP_400_BAD_REQUEST ∨ code' = HTTP_500_INTERNAL_SERVER_ERROR)
    ∧ (∀ name, d_username data = Some name →
         normalize_username fw (Text.py_strip py name) = Text.py_strip py name →
         code' = HTTP_400_BAD_REQUEST).
Proof.
  intros (name & pw & pw2 & e & Hn & Hp & Hp2 & He & Heq & Hpol & _ & Hfree & -> & -> & ->)
    %post_created.
  set (st' := {| users := _; profiles := _ |}).
  unfold post.
  destruct (run_validation py fw st' data) as [|err errs] eqn:Hv.
  - rewrite Hn, Hp, Hp2, He. unfold validate, to_internal_value. simpl.
    rewrite decide_False by (intros Hne; by apply Hne).
    unfold create. simpl. rewrite decide_True; cycle 1.
    { eexists (fresh (dom (users st))), _. split; [apply lookup_insert_eq|done]. }
    eexists _, _. split; [done|]. split; [by right|].
    intros name' [= <-] Hnorm. exfalso.
    unfold run_validation in Hv. apply app_eq_nil in Hv as [Hv _].
    apply field_value in Hv as (v & Hv & Hchecks).
    rewrite Hn in Hv. injection Hv as <-.
    apply app_eq_nil in Hchecks as [_ Hchecks%check_nil].
    unfold unique in Hchecks. apply bool_decide_eq_true in Hchecks.
    eapply (Hchecks (fresh (dom (users st)))); [apply lookup_insert_eq|done].
  - eexists _, _. split; [done|]. split; [by left|done].
Qed.

End Register.

Lemma register_effect_witness :
  ∃ st', RegisterView.post Text.ascii_range Samples.framework Samples.accounts Samples.alice
         = (Success HTTP_201_CREATED [("username", "alice"); ("email", "a@x.com")], st')
         ∧ usernames_unique (users st').
Proof.
  assert (usernames_unique (users Samples.accounts)) as Hu.
  { apply (bool_decide_unpack _). vm_compute. exact I. }
  eexists. split; [reflexivity|].
  destruct (register_effect Text.ascii_range Samples.framework Samples.accounts
              Samples.alice _ _ _ Hu eq_refl)
    as (id & _ & _ & _ & _ & _ & _ & _ & _ & _ & _ & _ & _ & Hu').
  exact Hu'.
Defined.

Lemma register_twice_witness :
  ∃ st' errors,
    RegisterView.post Text.ascii_range Samples.framework Samples.accounts Samples.alice
    = (Success HTTP_201_CREATED [("username", "alice"); ("email", "a@x.com")], st')
    ∧ RegisterView.post Text.ascii_range Samples.framework st' Samples.alice
      = (Failure HTTP_400_BAD_REQUEST errors, st').
Proof.
  destruct (register_twice Text.ascii_range Samples.framework Samples.accounts
              Samples.alice _ _ _ eq_refl) as (code' & errors & Hagain & _ & Hcode).
  rewrite (Hcode "alice" eq_refl eq_refl) in Hagain.
  eexists _, errors. split; [reflexivity|exact Hagain].
Defined.

(** Under a user manager that folds the case of usernames, [Alice] passes
    the validator after [alice] has registered, and the store refuses the
    row. *)
Example register_normalised_twice :
  let fw := {| username_valid := λ _, true; email_valid := λ _, true;
               validate_password := λ _, true; make_password := λ s, s;
               normalize_username := Text.lower; normalize_email := λ s, s |} in
  let data := {| RegisterSerializer.d_username := Some "Alice";
                 RegisterSerializer.d_password := Some "Aa12345!";
                 RegisterSerializer.d_password2 := Some "Aa12345!";
                 RegisterSerializer.d_email := Some "a@x.com" |} in
  let st' := (RegisterView.post Text.ascii_range fw Samples.accounts data).2 in
  (RegisterView.post Text.ascii_range fw st'
     {| RegisterSerializer.d_username := Some "Alice";
        RegisterSerializer.d_password := Some "Aa12345!";
        RegisterSerializer.d_password2 := Some "Aa12345!";
        RegisterSerializer.d_email := Some "c@x.com" |}).1
  = server_error "IntegrityError".
Proof. vm_compute. reflexivity. Qed.

(** ** The profile of the caller *)

Section Profile.
Import UpdateUserProfileSerializer UpdateUserProfileView.

(** What the serializer's update leaves when it raises nothing. *)
Lemma update_done st uid user instance vd st1 :
  update st uid user instance vd = Done st1 →
  profiles st1
  = <[uid := {| bio := default (bio instance) (vd_bio vd);
                profile_picture :=
                  default (profile_picture instance) (vd_profile_picture vd) |}]>
      (profiles st)
  ∧ (users st1 = users st
     ∨ ∃ name, vd_username vd = Some name
               ∧ username_exists name st = false
               ∧ users st1 = <[uid := with_username name user]> (users st)).
Proof.
  unfold update. cbv zeta. destruct (vd_username vd) as [name|].
  - destruct (Text.truthy name && bool_decide (name ≠ username user)).
    + destruct (username_exists name st) eqn:Hex; [done|].
      intros [= <-]. simpl. split; [done|]. right. by exists name.
    + intros [= <-]. simpl. by split; [|left].
  - intros [= <-]. simpl. by split; [|left].
Qed.

Lemma put_cases st uid vd r st' :
  put st (Some uid) vd = (r, st') →
  st' = st
  ∨ ∃ user instance,
      users st !! uid = Some user ∧ profiles st !! uid = Some instance
      ∧ update st uid user instance vd = Done st'.
Proof.
  unfold put.
  destruct (users st !! uid) as [user|] eqn:Hu; [|by intros [= _ <-]; left].
  destruct (profiles st !! uid) as [instance|] eqn:Hp; [|by intros [= _ <-]; left].
  destruct (update st uid user instance vd) as [st1|e] eqn:Hup; [|by intros [= _ <-]; left].
  intros Hr. right. exists user, instance. split_and!; [done|done|].
  f_equal. by destruct (users st1 !! uid), (profiles st1 !! uid); injection Hr as _ <-.
Qed.

(** X29: a profile update touches the caller only: whatever it answers,
    the users and profiles of the others are as they were, the caller
    keeps their email and password, and usernames stay unique. *)
Theorem put_frame st uid vd r st' :
  usernames_unique (users st) →
  put st (Some uid) vd = (r, st') →
  usernames_unique (users st')
  ∧ (∀ j, j ≠ uid →
       users st' !! j = users st !! j ∧ profiles st' !! j = profiles st !! j)
  ∧ (∀ user, users st !! uid = Some user →
       ∃ user', users st' !! uid = Some user'
                ∧ email user' = email user ∧ password user' = password user).
Proof.
  intros Huniq [->|(user & instance & Hu & Hp & Hup)]%put_cases.
  { split_and!; [done|done|]. intros user Hu. by exists user. }
  apply update_done in Hup as [Hprofiles [Husers|(name & Hname & Hfree & Husers)]];
    rewrite Husers, Hprofiles.
  - split_and!; [done| |].
    + intros j Hj. by rewrite lookup_insert_ne.
    + intros user0 Hu0. by exists user0.
  - split_and!.
    + apply usernames_unique_insert; [done|]. intros j other Hj _ Hsame.
      unfold username_exists in Hfree. apply bool_decide_eq_false in Hfree.
      apply Hfree. by exists j, other.
    + intros j Hj. by rewrite !lookup_insert_ne.
    + intros user0 Hu0. rewrite Hu in Hu0. injection Hu0 as <-.
      exists (with_username name user). by rewrite lookup_insert_eq.
Qed.

(** X30: a profile update that is carried out is what the profile route
    then reads: the username, bio and picture of the update's answer,
    with the email the user had.  A bio that was not sent stays; a picture
    that was not sent stays, and one that was sent, empty or not, replaces
    the old one. *)
Theorem put_then_get st uid vd code data st' :
  put st (Some uid) vd = (Success code data, st') →
  ∃ user old,
    users st !! uid = Some user ∧ profiles st !! uid = Some old
    ∧ UserProfileView.get st' (Some uid)
      = Success HTTP_200_OK
          {| pv_username := pr_username data; pv_email := email user;
             pv_bio := pr_bio data; pv_profile_picture := pr_profile_picture data |}
    ∧ pr_bio data = default (bio old) (vd_bio vd)
    ∧ pr_profile_picture data = default (profile_picture old) (vd_profile_picture vd).
Proof.
  unfold put, UserProfileView.get.
  destruct (users st !! uid) as [user|] eqn:Hu; [|done].
  destruct (profiles st !! uid) as [old|] eqn:Hp; [|done].
  destruct (update st uid user old vd) as [st1|e] eqn:Hup; [|done].
  destruct (update_done _ _ _ _ _ _ Hup) as [Hprofiles Husers].
  assert (∃ user1, users st1 !! uid = Some user1 ∧ email user1 = email user)
    as (user1 & Hu1 & Hemail).
  { destruct Husers as [->|(name & _ & _ & ->)].
    - by exists user.
    - exists (with_username name user). by rewrite lookup_insert_eq. }
  rewrite Hu1, Hprofiles, lookup_insert_eq. intros [= _ <- <-].
  exists user, old. rewrite Hu1, Hprofiles, lookup_insert_eq, Hemail. done.
Qed.

End Profile.

Lemma put_frame_witness :
  ∃ st', (UpdateUserProfileView.put Samples.accounts (Some 1%nat) Samples.keep_name).2 = st'
         ∧ usernames_unique (users st').
Proof.
  assert (usernames_unique (users Samples.accounts)) as Hu.
  { apply (bool_decide_unpack _). vm_compute. exact I. }
  eexists. split; [reflexivity|].
  destruct (put_frame Samples.accounts 1 Samples.keep_name _ _ Hu
              (surjective_pairing _)) as (Hu' & _ & _).
  exact Hu'.
Defined.

Lemma put_then_get_witness :
  ∃ st', (UpdateUserProfileView.put Samples.accounts (Some 1%nat) Samples.keep_name).2 = st'
         ∧ UserProfileView.get st' (Some 1%nat)
           = Success HTTP_200_OK
               {| pv_username := "bob"; pv_email := email Samples.bob;
                  pv_bio := "Hi"; pv_profile_picture := None |}.
Proof.
  eexists. split; [reflexivity|].
  destruct (put_then_get Samples.accounts 1 Samples.keep_name HTTP_200_OK
              {| pr_username := "bob"; pr_bio := "Hi"; pr_profile_picture := None |}
              (UpdateUserProfileView.put Samples.accounts (Some 1%nat) Samples.keep_name).2
              eq_refl)
    as (user & old & Hu & _ & Hget & _ & _).
  injection Hu as <-. exact Hget.
Defined.

End AccountExtras.
